(** * The systemd metrics source (plugins/sources/systemd/systemd.go)

    A shallow embedding of the systemd source of the Wavefront Kubernetes
    collector, and the properties of its scrape pipeline.

    - Go strings are byte strings: [string].
    - Go maps ([map[string]float64], [map[string]string], [url.Values]) are
      [gmap]s keyed by strings.
    - [float64] is IEEE 754 binary64, through the executable specification
      of the Standard Library ([SpecFloat], precision 53, emax 1024).
    - The dbus connection is a read-only oracle answering property lookups.
    - A goroutine body is the sequence of points it sends on the gathering
      channel together with the way it ends (return or panic); the scrape
      itself is a step relation over the goroutines, the buffered channel,
      the wait group and the [done] channel. *)

From Stdlib Require Import ZArith Ascii.
From Stdlib Require String.
From Stdlib Require Import Floats.SpecFloat.
From stdpp Require Import base tactics option numbers list strings gmap fin_maps relations.

#[local] Set Warnings "-clear-no-such-hyp".

Local Open Scope Z_scope.

(** ** Go strings *)

Module strings.

(** [len(s)] *)
Definition len (s : string) : nat := String.length s.

(** [strings.HasSuffix]:
    [len(s) >= len(suffix) && s[len(s)-len(suffix):] == suffix]. *)
Definition HasSuffix (s suffix : string) : bool :=
  (len suffix <=? len s)%nat &&
  String.eqb (String.substring (len s - len suffix) (len suffix) s) suffix.

(** [strings.Replace(s, old, new, n)] for a non-empty [old]: the first [n]
    non-overlapping occurrences of [old], scanning from the left, are
    replaced by [new]; a negative [n] puts no limit.  [skip] counts the
    bytes of a matched occurrence still to be dropped.  (With an empty
    [old] Go inserts [new] between runes; the source never does that and
    the string is returned unchanged here.) *)
Fixpoint Replace_from (old new : string) (n : Z) (skip : nat) (s : string) : string :=
  match s with
  | EmptyString => EmptyString
  | String c s' =>
      match skip with
      | S k => Replace_from old new n k s'
      | O =>
          if (n =? 0) then s
          else if String.prefix old s
               then new +:+ Replace_from old new (n - 1) (len old - 1) s'
               else String c (Replace_from old new n 0 s')
      end
  end.

Definition Replace (s old new : string) (n : Z) : string :=
  if String.eqb old new || (n =? 0) || String.eqb old "" then s
  else Replace_from old new n 0 s.

(** Byte-wise map, used to state what [Replace] does for one-byte
    patterns. *)
Fixpoint map_bytes (f : ascii -> ascii) (s : string) : string :=
  match s with
  | EmptyString => EmptyString
  | String c s' => String (f c) (map_bytes f s')
  end.

End strings.

(** ** [strconv.ParseBool] *)

Inductive result (A : Type) : Type :=
| Ok (a : A)
| Err (msg : string).
Arguments Ok {A} a.
Arguments Err {A} msg.

Definition is_Err {A} (r : result A) : Prop :=
  match r with Err _ => True | Ok _ => False end.

Definition is_Ok {A} (r : result A) : Prop :=
  match r with Err _ => False | Ok _ => True end.

Module strconv.

(** [ParseBool] returns a boolean and an error; with the error the
    boolean is [false]. *)
Definition ParseBool (str : string) : bool * option string :=
  if bool_decide (str ∈ ["1"; "t"; "T"; "TRUE"; "true"; "True"]) then (true, None)
  else if bool_decide (str ∈ ["0"; "f"; "F"; "FALSE"; "false"; "False"]) then (false, None)
  else (false, Some ("strconv.ParseBool: parsing " +:+ str +:+ ": invalid syntax")).

End strconv.

(** ** float64 *)

Module float64.

Definition prec : Z := 53.
Definition emax : Z := 1024.

Definition t : Type := spec_float.

(** Conversion of an integer, [float64(n)]: round to nearest, ties to
    even. *)
Definition of_Z (n : Z) : t := binary_normalize prec emax n 0 false.

Definition add (x y : t) : t := SFadd prec emax x y.
Definition div (x y : t) : t := SFdiv prec emax x y.

Definition zero : t := S754_zero false.
Definition one : t := Eval vm_compute in of_Z 1.
Definition million : t := Eval vm_compute in of_Z 1000000.

(** The integer a float holds, for the floats that hold one exactly. *)
Definition to_Z (x : t) : option Z :=
  match x with
  | S754_zero _ => Some 0
  | S754_finite s m e =>
      let v := if s then Z.neg m else Z.pos m in
      if 0 <=? e then Some (v * 2 ^ e)
      else if (v mod 2 ^ (- e) =? 0) then Some (v / 2 ^ (- e)) else None
  | _ => None
  end.

(** The normal form of a positive integer of at most 53 bits: the
    mantissa shifted to 53 bits. *)
Definition canon (p : positive) : t :=
  let '(m, e) := shl_align p 0 (Z.pos (digits2_pos p) - 53) in S754_finite false m e.

End float64.

(** ** The go-metrics counter

    [gm.Counter] holds an [int64]; [Inc] adds to it atomically, with the
    wrap-around of Go's signed addition. *)

Module gm.

Definition MaxInt64 : Z := 2 ^ 63 - 1.
Definition MinInt64 : Z := - 2 ^ 63.

Definition wrap64 (z : Z) : Z := (z + 2 ^ 63) mod 2 ^ 64 - 2 ^ 63.

Definition Counter : Type := Z.

Definition Inc (c : Counter) (i : Z) : Counter := wrap64 (c + i).

End gm.

(** ** The dbus client (github.com/coreos/go-systemd/dbus)

    Only what the source reads is kept: of [dbus.UnitStatus] the fields
    [Name], [LoadState] and [ActiveState]; of a [dbus.Property] its dynamic
    value.  A connection answers each lookup with a value or an error. *)

Module dbus.

Record UnitStatus : Type := {
  Name : string;
  LoadState : string;
  ActiveState : string;
}.

(** The dynamically typed value of a property, [p.Value.Value()]. *)
Inductive Variant : Type :=
| VString (s : string)
| VUint32 (n : Z)
| VUint64 (n : Z)
| VOther.

Record Conn : Type := {
  ListUnits : result (list UnitStatus);
  GetUnitProperty : string -> string -> result Variant;
  GetUnitTypeProperty : string -> string -> string -> result Variant;
  GetManagerProperty : string -> result string;
}.

End dbus.

Definition MaxUint64 : Z := 2 ^ 64 - 1.

(** ** Metric points and batches (internal/metrics) *)

(** A Go [map[string]string]; [None] is the nil map. *)
Abbreviation tagmap := (option (gmap string string)).

Record MetricPoint : Type := {
  Metric : string;
  Value : float64.t;
  Timestamp : Z;
  Source : string;
  Tags : tagmap;
}.

Record DataBatch : Type := {
  batch_Timestamp : Z;
  MetricPoints : list MetricPoint;
}.

(** [filter.Filter], an interface with one method. *)
Record Filter : Type := { Match : string -> tagmap -> bool }.

(** [*unitFilter] of this package; its method [match] is consulted
    read-only. *)
Record unitFilter : Type := { match_ : string -> bool }.

(** [type unit struct { dbus.UnitStatus }] *)
Record unit_ : Type := { UnitStatus : dbus.UnitStatus }.

Definition unit_Name (u : unit_) : string := dbus.Name (UnitStatus u).
Definition unit_LoadState (u : unit_) : string := dbus.LoadState (UnitStatus u).
Definition unit_ActiveState (u : unit_) : string := dbus.ActiveState (UnitStatus u).

Definition unitStatesName : list string :=
  ["active"; "activating"; "deactivating"; "inactive"; "failed"].

Record systemdMetricsSource : Type := {
  prefix : string;
  source : string;
  collectTaskMetrics : bool;
  collectStartTimeMetrics : bool;
  collectRestartMetrics : bool;
  unitsFilter : option unitFilter;
  filters : option Filter;
}.

(** ** Goroutine bodies

    A collector only talks to the rest of the scrape by sending points on
    the channel; it ends by returning or, when a type assertion on a
    property value fails, by panicking.  [Go A] is the list of points sent,
    in order, and the way the body ended. *)

Inductive outcome (A : Type) : Type :=
| Returned (a : A)
| Panicked.
Arguments Returned {A} a.
Arguments Panicked {A}.

Definition Go (A : Type) : Type := (list MetricPoint * outcome A)%type.

Definition sent {A} (m : Go A) : list MetricPoint := m.1.
Definition ending {A} (m : Go A) : outcome A := m.2.

Definition returns {A} (m : Go A) : Prop :=
  match ending m with Returned _ => True | Panicked => False end.

#[global] Instance Go_ret : MRet Go := λ A a, ([], Returned a).

#[global] Instance Go_bind : MBind Go := λ A B f m,
  match m with
  | (out, Returned a) => let '(out', r) := f a in (out ++ out', r)
  | (out, Panicked) => (out, Panicked)
  end.

(** [ch <- p] *)
Definition send (p : MetricPoint) : Go () := ([p], Returned ()).

Definition panic {A} : Go A := ([], Panicked).

(** [for _, x := range l { body }] over a slice *)
Fixpoint for_range {A} (l : list A) (body : A → Go ()) : Go () :=
  match l with
  | [] => mret ()
  | x :: l' => body x ;; for_range l' body
  end.

(** Type assertions [v.(string)], [v.(uint32)], [v.(uint64)]. *)
Definition as_string (v : dbus.Variant) : Go string :=
  match v with dbus.VString s => mret s | _ => panic end.

Definition as_uint32 (v : dbus.Variant) : Go Z :=
  match v with dbus.VUint32 n => mret n | _ => panic end.

Definition as_uint64 (v : dbus.Variant) : Go Z :=
  match v with dbus.VUint64 n => mret n | _ => panic end.

(** ** Tags and points *)

Definition setTag (tags : gmap string string) (key val : string) : gmap string string :=
  if bool_decide (val ≠ "") then <[key := val]> tags else tags.

Definition setTags (tags : gmap string string) (name state service : string)
  : gmap string string :=
  let tags := setTag tags "name" name in
  let tags := setTag tags "state_name" state in
  setTag tags "type" service.

Definition metricPoint (src : systemdMetricsSource) (name : string)
    (value : float64.t) (ts : Z) (tags : tagmap) : MetricPoint :=
  {| Metric := prefix src +:+ strings.Replace name "_" "." (-1);
     Value := value;
     Timestamp := ts;
     Source := source src;
     Tags := tags |}.

(** The Go raw string literal of [collectSystemState]: the word running
    between two double-quote bytes (34). *)
Definition quoted_running : string :=
  String (ascii_of_nat 34) ("running" +:+ String (ascii_of_nat 34) EmptyString).

(** ** The collectors *)

Section collectors.

Variable src : systemdMetricsSource.
Variable conn : dbus.Conn.
Variable now : Z.

(** Body of the loop of [collectUnitStatusMetrics]. *)
Definition unitStatus_type (u : unit_) : Go string :=
  if strings.HasSuffix (unit_Name u) ".service" then
    match dbus.GetUnitTypeProperty conn (unit_Name u) "Service" "Type" with
    | Err _ => mret ""
    | Ok serviceTypeProperty => as_string serviceTypeProperty
    end
  else if strings.HasSuffix (unit_Name u) ".mount" then
    match dbus.GetUnitTypeProperty conn (unit_Name u) "Mount" "Type" with
    | Err _ => mret ""
    | Ok serviceTypeProperty => as_string serviceTypeProperty
    end
  else mret "".

Definition unitStatus_state (u : unit_) (serviceType stateName : string) : MetricPoint :=
  let isActive :=
    if String.eqb stateName (unit_ActiveState u) then float64.one else float64.zero in
  let tags := setTags ∅ (unit_Name u) stateName serviceType in
  metricPoint src "unit_state" isActive now (Some tags).

Definition unitStatus_restarts (u : unit_) : Go () :=
  if collectRestartMetrics src && strings.HasSuffix (unit_Name u) ".service" then
    match dbus.GetUnitTypeProperty conn (unit_Name u) "Service" "NRestarts" with
    | Err _ => mret ()
    | Ok restartsCount =>
        let tags := setTag ∅ "name" (unit_Name u) in
        n ← as_uint32 restartsCount;
        send (metricPoint src "service_restart_total" (float64.of_Z n) now (Some tags))
    end
  else mret ().

Definition unitStatus_body (u : unit_) : Go () :=
  serviceType ← unitStatus_type u;
  for_range unitStatesName (λ stateName,
    send (unitStatus_state u serviceType stateName));;
  unitStatus_restarts u.

Definition collectUnitStatusMetrics (units : list unit_) : Go () :=
  for_range units unitStatus_body.

(** Body of the loop of [collectSockets]; each [continue] ends the
    body. *)
Definition sockets_body (u : unit_) : Go () :=
  if negb (strings.HasSuffix (unit_Name u) ".socket") then mret ()
  else
    match dbus.GetUnitTypeProperty conn (unit_Name u) "Socket" "NAccepted" with
    | Err _ => mret ()
    | Ok acceptedConnectionCount =>
        let tags := setTag ∅ "name" (unit_Name u) in
        n ← as_uint32 acceptedConnectionCount;
        send (metricPoint src "socket_accepted_connections_total"
                (float64.of_Z n) now (Some tags));;
        match dbus.GetUnitTypeProperty conn (unit_Name u) "Socket" "NConnections" with
        | Err _ => mret ()
        | Ok currentConnectionCount =>
            n ← as_uint32 currentConnectionCount;
            send (metricPoint src "socket_current_connections"
                    (float64.of_Z n) now (Some tags));;
            match dbus.GetUnitTypeProperty conn (unit_Name u) "Socket" "NRefused" with
            | Err _ => mret ()
            | Ok refusedConnectionCount =>
                n ← as_uint32 refusedConnectionCount;
                send (metricPoint src "socket_refused_connections_total"
                        (float64.of_Z n) now (Some tags))
            end
        end
    end.

Definition collectSockets (units : list unit_) : Go () :=
  for_range units sockets_body.

(** Body of the loop of [collectUnitStartTimeMetrics].  The variable
    [startTimeUsec] declared outside the loop is assigned on every path
    that reaches the send, so it carries nothing between iterations. *)
Definition startTime_body (u : unit_) : Go () :=
  if negb (String.eqb (unit_ActiveState u) "active") then
    let tags := setTag ∅ "name" (unit_Name u) in
    send (metricPoint src "unit_start_time_seconds"
            (float64.div (float64.of_Z 0) float64.million) now (Some tags))
  else
    match dbus.GetUnitProperty conn (unit_Name u) "ActiveEnterTimestamp" with
    | Err _ => mret ()
    | Ok timestampValue =>
        startTimeUsec ← as_uint64 timestampValue;
        let tags := setTag ∅ "name" (unit_Name u) in
        send (metricPoint src "unit_start_time_seconds"
                (float64.div (float64.of_Z startTimeUsec) float64.million) now (Some tags))
    end.

Definition collectUnitStartTimeMetrics (units : list unit_) : Go () :=
  for_range units startTime_body.

(** Body of the loop of [collectUnitTasksMetrics], in its two halves.
    The variable [val] declared outside the loop is assigned before each
    use. *)
Definition tasks_current (u : unit_) : Go () :=
  match dbus.GetUnitTypeProperty conn (unit_Name u) "Service" "TasksCurrent" with
  | Err _ => mret ()
  | Ok tasksCurrentCount =>
      val ← as_uint64 tasksCurrentCount;
      if bool_decide (val ≠ MaxUint64) then
        let tags := setTag ∅ "name" (unit_Name u) in
        send (metricPoint src "unit_tasks_current" (float64.of_Z val) now (Some tags))
      else mret ()
  end.

Definition tasks_max (u : unit_) : Go () :=
  match dbus.GetUnitTypeProperty conn (unit_Name u) "Service" "TasksMax" with
  | Err _ => mret ()
  | Ok tasksMaxCount =>
      val ← as_uint64 tasksMaxCount;
      if bool_decide (val ≠ MaxUint64) then
        let tags := setTag ∅ "name" (unit_Name u) in
        send (metricPoint src "unit_tasks_max" (float64.of_Z val) now (Some tags))
      else mret ()
  end.

Definition tasks_body (u : unit_) : Go () :=
  if strings.HasSuffix (unit_Name u) ".service" then
    tasks_current u ;; tasks_max u
  else mret ().

Definition collectUnitTasksMetrics (units : list unit_) : Go () :=
  for_range units tasks_body.

(** Body of the loop of [collectTimers]. *)
Definition timers_body (u : unit_) : Go () :=
  if negb (strings.HasSuffix (unit_Name u) ".timer") then mret ()
  else
    match dbus.GetUnitTypeProperty conn (unit_Name u) "Timer" "LastTriggerUSec" with
    | Err _ => mret ()
    | Ok lastTriggerValue =>
        let tags := setTag ∅ "name" (unit_Name u) in
        usec ← as_uint64 lastTriggerValue;
        send (metricPoint src "timer_last_trigger_seconds"
                (float64.div (float64.of_Z usec) float64.million) now (Some tags))
    end.

Definition collectTimers (units : list unit_) : Go () :=
  for_range units timers_body.

(** [collectSummaryMetrics]: [entries] is the order in which the [range]
    over the summary map visits its entries. *)
Definition collectSummaryMetrics (entries : list (string * float64.t)) : Go () :=
  for_range entries (λ '(stateName, count),
    let tags := setTag ∅ "state_name" stateName in
    send (metricPoint src "units" count now (Some tags))).

(** [collectSystemState]: the point sent, if any, and the error
    returned. *)
Definition collectSystemState : Go (option string) :=
  match dbus.GetManagerProperty conn "SystemState" with
  | Err err => mret (Some ("couldn't get system state: " +:+ err))
  | Ok systemState =>
      let isSystemRunning :=
        if String.eqb systemState quoted_running then float64.one else float64.zero in
      send (metricPoint src "system_running" isSystemRunning now None);;
      mret None
  end.

(** [getAllUnits] *)
Definition getAllUnits : result (list unit_) :=
  match dbus.ListUnits conn with
  | Err err => Err err
  | Ok units =>
      Ok (foldl (λ result status, result ++ [{| UnitStatus := status |}]) [] units)
  end.

(** [filterUnits] *)
Definition filterUnits (units : list unit_) : list unit_ :=
  foldl (λ filtered u,
      if (match unitsFilter src with
          | None => true
          | Some f => match_ f (unit_Name u)
          end) && String.eqb (unit_LoadState u) "loaded"
      then filtered ++ [u]
      else filtered)
    [] units.

(** [filterAppend], with the counter it may increment. *)
Definition filterAppend (filteredPoints : gm.Counter) (slice : list MetricPoint)
    (point : MetricPoint) : list MetricPoint * gm.Counter :=
  if (match filters src with
      | None => true
      | Some f => Match f (Metric point) (Tags point)
      end)
  then (slice ++ [point], filteredPoints)
  else (slice, gm.Inc filteredPoints 1).

End collectors.

(** [summarizeUnits]; [summarized[unit.ActiveState] += 1.0] reads the zero
    value [0.0] for a key the map does not hold yet. *)
Definition summarize_step (summarized : gmap string float64.t) (u : unit_)
  : gmap string float64.t :=
  <[unit_ActiveState u :=
      float64.add (default float64.zero (summarized !! unit_ActiveState u)) float64.one]>
    summarized.

Definition summarizeUnits (units : list unit_) : gmap string float64.t :=
  let summarized :=
    foldl (λ m unitStateName, <[unitStateName := float64.zero]> m) ∅ unitStatesName in
  foldl summarize_step summarized units.

(** ** The scrape: goroutines, channel, wait group

    [ScrapeMetrics] starts one consumer goroutine, sends the summary points
    itself, starts the collector goroutines, sends the system-state point
    itself, waits for the collectors, closes the channel and waits for the
    consumer.  Each goroutine is the list of synchronisation actions it
    still has to perform; a step of the scrape is a step of one of them. *)

Module scrape.

(** [make(chan *MetricPoint, 1000)] *)
Definition capacity : nat := 1000.

(** Actions of a collector goroutine
    [go func() { defer wg.Done(); src.collect...(conn, units, gather, now) }()].
    When the collector panics, the deferred [wg.Done()] runs and then the
    process dies. *)
Inductive action : Type :=
| Send (p : MetricPoint)
| WgDone
| Crash.

Definition goroutine {A} (body : Go A) : list action :=
  (Send <$> sent body) ++
  match ending body with
  | Returned _ => [WgDone]
  | Panicked => [WgDone; Crash]
  end.

(** Actions of the goroutine that runs [ScrapeMetrics]. *)
Inductive main_action : Type :=
| MSend (p : MetricPoint)
| MGo (g : list action)
| MSetErr (e : option string)
| MWait
| MClose
| MRecvDone
| MReturn.

(** The consumer goroutine: in its receive loop, about to send on [done],
    or gone. *)
Inductive consumer_pc : Type :=
| CReceiving
| CSignalling
| CExited.

Record state : Type := St {
  main : list main_action;
  workers : list (list action);
  wg : Z;
  gather : list MetricPoint;
  closed : bool;
  consumer : consumer_pc;
  points : list MetricPoint;
  filteredPoints : gm.Counter;
  err : option string;
  returned : option (DataBatch * option string);
  crashed : bool;
  (** ghost: every point sent on [gather] so far, in order *)
  log : list MetricPoint;
}.

Definition system_state_err (m : Go (option string)) : option string :=
  match ending m with Returned e => e | Panicked => None end.

Section program.

Variable src : systemdMetricsSource.
Variable conn : dbus.Conn.
Variable now : Z.

(** The statements of [ScrapeMetrics] after the consumer has been
    started; [entries] is the iteration order over the summary. *)
Definition spawns (units : list unit_) : list main_action :=
  [MGo (goroutine (collectUnitStatusMetrics src conn now units))] ++
  (if collectStartTimeMetrics src
   then [MGo (goroutine (collectUnitStartTimeMetrics src conn now units))] else []) ++
  (if collectTaskMetrics src
   then [MGo (goroutine (collectUnitTasksMetrics src conn now units))] else []) ++
  [MGo (goroutine (collectTimers src conn now units));
   MGo (goroutine (collectSockets src conn now units))].

Definition epilogue : list main_action :=
  [MSetErr (system_state_err (collectSystemState src conn now));
   MWait; MClose; MRecvDone; MReturn].

Definition main_program (entries : list (string * float64.t))
    (allUnits : list unit_) : list main_action :=
  (MSend <$> sent (collectSummaryMetrics src now entries)) ++
  spawns (filterUnits src allUnits) ++
  (MSend <$> sent (collectSystemState src conn now)) ++
  epilogue.

Definition init (filtered0 : gm.Counter) (entries : list (string * float64.t))
    (allUnits : list unit_) : state :=
  St (main_program entries allUnits) [] 0 [] false CReceiving [] filtered0
     None None false [].

End program.

Section step.

Variable src : systemdMetricsSource.
(** [result.Timestamp], read from the clock before the collection *)
Variable ts : Z.

Inductive step : state → state → Prop :=
(* the goroutine of ScrapeMetrics *)
| step_main_send p m ws n buf cons pts c e r lg :
    (length buf < capacity)%nat →
    step (St (MSend p :: m) ws n buf false cons pts c e r false lg)
         (St m ws n (buf ++ [p]) false cons pts c e r false (lg ++ [p]))
| step_main_send_closed p m ws n buf cons pts c e r lg :
    step (St (MSend p :: m) ws n buf true cons pts c e r false lg)
         (St m ws n buf true cons pts c e r true lg)
| step_go g m ws n buf cl cons pts c e r lg :
    step (St (MGo g :: m) ws n buf cl cons pts c e r false lg)
         (St m (ws ++ [g]) (n + 1) buf cl cons pts c e r false lg)
| step_set_err e' m ws n buf cl cons pts c e r lg :
    step (St (MSetErr e' :: m) ws n buf cl cons pts c e r false lg)
         (St m ws n buf cl cons pts c e' r false lg)
| step_wait m ws buf cl cons pts c e r lg :
    step (St (MWait :: m) ws 0 buf cl cons pts c e r false lg)
         (St m ws 0 buf cl cons pts c e r false lg)
| step_close m ws n buf cons pts c e r lg :
    step (St (MClose :: m) ws n buf false cons pts c e r false lg)
         (St m ws n buf true cons pts c e r false lg)
| step_close_closed m ws n buf cons pts c e r lg :
    step (St (MClose :: m) ws n buf true cons pts c e r false lg)
         (St m ws n buf true cons pts c e r true lg)
| step_done m ws n buf cl pts c e r lg :
    step (St (MRecvDone :: m) ws n buf cl CSignalling pts c e r false lg)
         (St m ws n buf cl CExited pts c e r false lg)
| step_return m ws n buf cl cons pts c e r lg :
    step (St (MReturn :: m) ws n buf cl cons pts c e r false lg)
         (St m ws n buf cl cons pts c e
             (Some ({| batch_Timestamp := ts; MetricPoints := pts |}, e)) false lg)
(* the consumer: [point, more := <-gather] *)
| step_recv p m ws n buf cl pts c e r lg :
    step (St m ws n (p :: buf) cl CReceiving pts c e r false lg)
         (St m ws n buf cl CReceiving
             (filterAppend src c pts p).1 (filterAppend src c pts p).2 e r false lg)
| step_recv_closed m ws n pts c e r lg :
    step (St m ws n [] true CReceiving pts c e r false lg)
         (St m ws n [] true CSignalling pts c e r false lg)
(* the collectors *)
| step_worker_send p w m ws1 ws2 n buf cons pts c e r lg :
    (length buf < capacity)%nat →
    step (St m (ws1 ++ (Send p :: w) :: ws2) n buf false cons pts c e r false lg)
         (St m (ws1 ++ w :: ws2) n (buf ++ [p]) false cons pts c e r false (lg ++ [p]))
| step_worker_send_closed p w m ws1 ws2 n buf cons pts c e r lg :
    step (St m (ws1 ++ (Send p :: w) :: ws2) n buf true cons pts c e r false lg)
         (St m (ws1 ++ w :: ws2) n buf true cons pts c e r true lg)
| step_worker_done w m ws1 ws2 n buf cl cons pts c e r lg :
    1 ≤ n →
    step (St m (ws1 ++ (WgDone :: w) :: ws2) n buf cl cons pts c e r false lg)
         (St m (ws1 ++ w :: ws2) (n - 1) buf cl cons pts c e r false lg)
| step_worker_done_negative w m ws1 ws2 n buf cl cons pts c e r lg :
    n < 1 →
    step (St m (ws1 ++ (WgDone :: w) :: ws2) n buf cl cons pts c e r false lg)
         (St m (ws1 ++ w :: ws2) (n - 1) buf cl cons pts c e r true lg)
| step_worker_crash w m ws1 ws2 n buf cl cons pts c e r lg :
    step (St m (ws1 ++ (Crash :: w) :: ws2) n buf cl cons pts c e r false lg)
         (St m (ws1 ++ w :: ws2) n buf cl cons pts c e r true lg).

End step.

End scrape.

(** [ScrapeMetrics]: what the call can return.  [dbus_New] is the outcome
    of opening the connection, [now] and [ts] the two clock readings,
    [filtered0] the value of the process-wide counter when the call
    starts. *)
Inductive ScrapeMetrics (src : systemdMetricsSource) (dbus_New : result dbus.Conn)
    (now ts : Z) (filtered0 : gm.Counter) : option DataBatch → option string → Prop :=
| Scrape_no_connection err :
    dbus_New = Err err →
    ScrapeMetrics src dbus_New now ts filtered0
      None (Some ("couldn't get dbus connection: " +:+ err))
| Scrape_no_units conn err :
    dbus_New = Ok conn →
    getAllUnits conn = Err err →
    ScrapeMetrics src dbus_New now ts filtered0
      None (Some ("couldn't get units: " +:+ err))
| Scrape_collect conn allUnits entries s batch err :
    dbus_New = Ok conn →
    getAllUnits conn = Ok allUnits →
    entries ≡ₚ map_to_list (summarizeUnits allUnits) →
    rtc (scrape.step src ts) (scrape.init src conn now filtered0 entries allUnits) s →
    scrape.returned s = Some (batch, err) →
    ScrapeMetrics src dbus_New now ts filtered0 (Some batch) err.

(** ** [NewProvider] *)

(** [uri.Query()] is a [url.Values]; [nodeName] is [util.GetNodeName()],
    [hostname] is [os.Hostname()]; [fromQuery] and [filter.FromQuery] build
    the two filters. *)
Section NewProvider.

Variable nodeName : string.
Variable hostname : result string.
Variable fromQuery : gmap string (list string) → option unitFilter.
Variable filter_FromQuery : gmap string (list string) → option Filter.

(** [vals[key]]: the nil slice for an absent key *)
Definition values (vals : gmap string (list string)) (key : string) : list string :=
  default [] (vals !! key).

(** The error of each [strconv.ParseBool] is only logged; the boolean it
    returns is kept. *)
Definition NewProvider (vals : gmap string (list string)) : list systemdMetricsSource :=
  let prefix :=
    match values vals "prefix" with
    | first :: _ => first
    | [] => "kubernetes.systemd."
    end in
  let source :=
    if String.eqb nodeName "" then
      match hostname with
      | Ok h => h
      | Err _ => "wavefront-kubernetes-collector"
      end
    else nodeName in
  let collectTaskMetrics :=
    match values vals "taskMetrics" with
    | first :: _ => (strconv.ParseBool first).1
    | [] => true
    end in
  let collectStartTimeMetrics :=
    match values vals "startTimeMetrics" with
    | first :: _ => (strconv.ParseBool first).1
    | [] => true
    end in
  let collectRestartMetrics :=
    match values vals "restartMetrics" with
    | first :: _ => (strconv.ParseBool first).1
    | [] => false
    end in
  [ {| prefix := prefix;
       source := source;
       collectTaskMetrics := collectTaskMetrics;
       collectStartTimeMetrics := collectStartTimeMetrics;
       collectRestartMetrics := collectRestartMetrics;
       unitsFilter := fromQuery vals;
       filters := filter_FromQuery vals |} ].

End NewProvider.

Arguments metricPoint : simpl never.
Arguments setTag : simpl never.
Arguments setTags : simpl never.

(** ** Vocabulary of the properties *)

(** A point passes the metric filter: the filter is absent, or it matches
    the point's name and tags. *)
Definition passes (src : systemdMetricsSource) (p : MetricPoint) : Prop :=
  filters src = None ∨ ∃ f, filters src = Some f ∧ Match f (Metric p) (Tags p) = true.

#[global] Instance passes_dec src p : Decision (passes src p).
Proof.
  unfold passes. destruct (filters src) as [f|].
  - destruct (Match f (Metric p) (Tags p)) eqn:E.
    + left. right. eauto.
    + right. intros [?|(f' & [= <-] & ?)]; congruence.
  - left. by left.
Defined.

(** A unit is selected: it is loaded, and the name filter is absent or
    matches its name. *)
Definition selected (src : systemdMetricsSource) (u : unit_) : Prop :=
  unit_LoadState u = "loaded" ∧
  (unitsFilter src = None ∨ ∃ f, unitsFilter src = Some f ∧ match_ f (unit_Name u) = true).

#[global] Instance selected_dec src u : Decision (selected src u).
Proof.
  unfold selected. destruct (unitsFilter src) as [f|].
  - destruct (match_ f (unit_Name u)) eqn:E.
    + destruct (decide (unit_LoadState u = "loaded")) as [Hl|Hl].
      * left. split; [done|]. right. eauto.
      * right. by intros [? _].
    + right. intros [_ [?|(f' & [= <-] & ?)]]; congruence.
  - destruct (decide (unit_LoadState u = "loaded")) as [Hl|Hl].
    + left. split; [done|]. by left.
    + right. by intros [? _].
Defined.

(** Every underscore replaced by a dot. *)
Definition underscores_to_dots (name : string) : string :=
  strings.map_bytes (λ c, if Ascii.eqb c "_" then "."%char else c) name.

(** The internal category tokens of the source. *)
Definition category_tokens : list string :=
  ["units"; "unit_state"; "service_restart_total"; "unit_start_time_seconds";
   "unit_tasks_current"; "unit_tasks_max"; "timer_last_trigger_seconds";
   "socket_accepted_connections_total"; "socket_current_connections";
   "socket_refused_connections_total"; "system_running"].

Definition well_named (src : systemdMetricsSource) (p : MetricPoint) : Prop :=
  ∃ token, token ∈ category_tokens ∧ Metric p = prefix src +:+ underscores_to_dots token.

(** The points of one category, by metric name. *)
Definition in_category (src : systemdMetricsSource) (token : string) (p : MetricPoint) : Prop :=
  Metric p = prefix src +:+ underscores_to_dots token.

#[global] Instance in_category_dec src token p : Decision (in_category src token p).
Proof. unfold in_category. apply _. Defined.

#[global] Instance float64_eq_dec : EqDecision float64.t.
Proof. unfold float64.t. solve_decision. Defined.

(** A unit-state point is hot when its value is [1.0], cold when it is
    [0.0]. *)
Definition hot (p : MetricPoint) : Prop := Value p = float64.one.
Definition cold (p : MetricPoint) : Prop := Value p = float64.zero.

#[global] Instance hot_dec p : Decision (hot p).
Proof. unfold hot. apply _. Defined.

#[global] Instance cold_dec p : Decision (cold p).
Proof. unfold cold. apply _. Defined.

(** The value of the tag [key] of a point, if it has one. *)
Definition tag (key : string) (p : MetricPoint) : option string :=
  Tags p ≫= λ tags, tags !! key.

(** The dynamic types the service manager gives to the properties the
    collectors read: [Type] is a string, the connection and restart counts
    are [uint32], the task counts and the timestamps are [uint64]. *)
Inductive kind : Type := KString | KUint32 | KUint64.

Definition has_kind (k : kind) (r : result dbus.Variant) : Prop :=
  match r with
  | Err _ => True
  | Ok v =>
      match k, v with
      | KString, dbus.VString _ => True
      | KUint32, dbus.VUint32 n => 0 ≤ n < 2 ^ 32
      | KUint64, dbus.VUint64 n => 0 ≤ n < 2 ^ 64
      | _, _ => False
      end
  end.

Definition well_typed (conn : dbus.Conn) : Prop :=
  ∀ name,
    has_kind KString (dbus.GetUnitTypeProperty conn name "Service" "Type") ∧
    has_kind KString (dbus.GetUnitTypeProperty conn name "Mount" "Type") ∧
    has_kind KUint32 (dbus.GetUnitTypeProperty conn name "Service" "NRestarts") ∧
    has_kind KUint32 (dbus.GetUnitTypeProperty conn name "Socket" "NAccepted") ∧
    has_kind KUint32 (dbus.GetUnitTypeProperty conn name "Socket" "NConnections") ∧
    has_kind KUint32 (dbus.GetUnitTypeProperty conn name "Socket" "NRefused") ∧
    has_kind KUint64 (dbus.GetUnitTypeProperty conn name "Service" "TasksCurrent") ∧
    has_kind KUint64 (dbus.GetUnitTypeProperty conn name "Service" "TasksMax") ∧
    has_kind KUint64 (dbus.GetUnitTypeProperty conn name "Timer" "LastTriggerUSec") ∧
    has_kind KUint64 (dbus.GetUnitProperty conn name "ActiveEnterTimestamp").

(** The point the Task Counts collector builds from a count [v], and what
    one lookup of a task count contributes: a point unless the lookup
    failed or gave the sentinel. *)
Definition tasks_point (src : systemdMetricsSource) (now : Z) (u : unit_)
    (token : string) (v : Z) : MetricPoint :=
  metricPoint src token (float64.of_Z v) now (Some (setTag ∅ "name" (unit_Name u))).

Definition tasks_points (src : systemdMetricsSource) (now : Z) (u : unit_)
    (token : string) (r : result dbus.Variant) : list MetricPoint :=
  match r with
  | Ok (dbus.VUint64 v) =>
      if bool_decide (v ≠ MaxUint64) then [tasks_point src now u token v] else []
  | _ => []
  end.

(** The point the Sockets collector builds from a connection count. *)
Definition socket_point (src : systemdMetricsSource) (now : Z) (u : unit_)
    (token : string) (n : Z) : MetricPoint :=
  metricPoint src token (float64.of_Z n) now (Some (setTag ∅ "name" (unit_Name u))).

(** The number of units of a snapshot in the active state [s], and the sum
    of the counts a summary holds (none if a bucket does not hold an
    integer). *)
Definition state_count (s : string) (units : list unit_) : Z :=
  Z.of_nat (length (filter (λ u, unit_ActiveState u = s) units)).

Definition bucket_total (m : gmap string float64.t) : option Z :=
  map_fold (λ _ v acc, n ← float64.to_Z v; t ← acc; Some (t + n)) (Some 0) m.

(** The Summarizer over integer counts instead of floats, and the sum of
    integer counts; the reference the float summary is compared with. *)
Definition count_step (m : gmap string Z) (u : unit_) : gmap string Z :=
  <[unit_ActiveState u := default 0 (m !! unit_ActiveState u) + 1]> m.

Definition count_units (units : list unit_) : gmap string Z :=
  foldl count_step (foldl (λ m unitStateName, <[unitStateName := 0]> m) ∅ unitStatesName)
    units.

Definition count_total (c : gmap string Z) : Z := map_fold (λ _ k acc, acc + k) 0 c.

(** ** Vocabulary of the scrape *)

Module scrape_spec.

Import scrape.

(** The points a goroutine still has to send, and the number of
    [wg.Done()] calls it still has to make. *)
Fixpoint worker_sends (w : list action) : list MetricPoint :=
  match w with
  | Send p :: w' => p :: worker_sends w'
  | _ :: w' => worker_sends w'
  | [] => []
  end.

Fixpoint pending (w : list action) : Z :=
  match w with
  | WgDone :: w' => 1 + pending w'
  | _ :: w' => pending w'
  | [] => 0
  end.

(** A collector goroutine has finished when it has made its deferred
    [wg.Done()] call. *)
Definition finished (w : list action) : Prop := pending w = 0.

(** A goroutine sends, then calls [wg.Done()] once, then at most
    crashes. *)
Fixpoint wf_worker (w : list action) : Prop :=
  match w with
  | Send _ :: w' => wf_worker w' ∧ pending w' = 1
  | WgDone :: w' => w' = [] ∨ w' = [Crash]
  | Crash :: w' => w' = []
  | [] => True
  end.

Definition pending_all (ws : list (list action)) : Z :=
  foldr (λ w n, pending w + n) 0 ws.

(** The points [ScrapeMetrics] still has to send or to hand to the
    goroutines it has not started yet. *)
Fixpoint main_sends (m : list main_action) : list MetricPoint :=
  match m with
  | MSend p :: m' => p :: main_sends m'
  | MGo g :: m' => worker_sends g ++ main_sends m'
  | _ :: m' => main_sends m'
  | [] => []
  end.

(** How far [ScrapeMetrics] has come: 0 while it sends and starts
    goroutines, 1 before it records the system-state error, 2 before
    [wg.Wait()], 3 before [close(gather)], 4 before [<-done], 5 before it
    returns, 6 after. *)
Definition stage (m : list main_action) : Z :=
  match m with
  | (MSend _ | MGo _) :: _ => 0
  | MSetErr _ :: _ => 1
  | MWait :: _ => 2
  | MClose :: _ => 3
  | MRecvDone :: _ => 4
  | MReturn :: _ => 5
  | [] => 6
  end.

Fixpoint wf_main (e0 : option string) (m : list main_action) : Prop :=
  match m with
  | MSend _ :: m' => wf_main e0 m' ∧ stage m' ≤ 1
  | MGo g :: m' => wf_worker g ∧ pending g = 1 ∧ wf_main e0 m' ∧ stage m' ≤ 1
  | MSetErr e :: m' => e = e0 ∧ m' = [MWait; MClose; MRecvDone; MReturn]
  | MWait :: m' => m' = [MClose; MRecvDone; MReturn]
  | MClose :: m' => m' = [MRecvDone; MReturn]
  | MRecvDone :: m' => m' = [MReturn]
  | MReturn :: m' => m' = []
  | [] => True
  end.

(** The statements of [ScrapeMetrics] before it records the system-state
    error: sends, and starts of goroutines that call [wg.Done()] once. *)
Definition prologue_action (a : main_action) : Prop :=
  match a with
  | MSend _ => True
  | MGo g => wf_worker g ∧ pending g = 1
  | _ => False
  end.

(** The consumer run over the points it has received so far. *)
Definition aggregate (src : systemdMetricsSource) (filtered0 : gm.Counter)
    (consumed : list MetricPoint) : list MetricPoint * gm.Counter :=
  foldl (λ acc p, filterAppend src acc.2 acc.1 p) ([], filtered0) consumed.

(** No goroutine, started or not, ends in a panic. *)
Definition crash_free (s : state) : Prop :=
  Forall (λ w, Crash ∉ w) (workers s) ∧
  Forall (λ a, match a with MGo g => Crash ∉ g | _ => True end) (main s).

(** What holds in every state of a scrape; [e0] is the error of
    [collectSystemState], [filtered0] the counter at the start, [total]
    every point the scrape sends, [panic_free] says that no collector of
    the scrape panics. *)
Record invariant (src : systemdMetricsSource) (ts : Z) (e0 : option string)
    (filtered0 : gm.Counter) (total : list MetricPoint) (panic_free : Prop)
    (s : state) : Prop := {
  inv_main : wf_main e0 (main s);
  inv_workers : Forall wf_worker (workers s);
  inv_wg : wg s = pending_all (workers s);
  inv_closed : closed s = true ↔ 4 ≤ stage (main s);
  inv_waited : 3 ≤ stage (main s) → wg s = 0;
  inv_consumer :
    match consumer s with
    | CReceiving => stage (main s) ≤ 4
    | CSignalling => stage (main s) = 4 ∧ gather s = []
    | CExited => 5 ≤ stage (main s) ∧ gather s = []
    end;
  inv_aggregate :
    ∃ consumed, log s = consumed ++ gather s ∧
      (points s, filteredPoints s) = aggregate src filtered0 consumed;
  inv_total :
    log s ++ main_sends (main s) ++ concat (worker_sends <$> workers s) ≡ₚ total;
  inv_err : err s = if decide (stage (main s) ≤ 1) then None else e0;
  inv_returned :
    match returned s with
    | None => stage (main s) ≤ 5
    | Some r =>
        stage (main s) = 6 ∧
        r = ({| batch_Timestamp := ts; MetricPoints := points s |}, err s)
    end;
  inv_capacity : (length (gather s) ≤ capacity)%nat;
  inv_crashed : panic_free → crash_free s ∧ crashed s = false;
}.

(** Work left, for termination: a send costs the send and the later
    receive. *)
Definition action_weight (a : action) : nat :=
  match a with Send _ => 3%nat | _ => 1%nat end.

Definition worker_weight (w : list action) : nat :=
  foldr (λ a n, action_weight a + n)%nat 0%nat w.

Definition main_weight (m : list main_action) : nat :=
  foldr (λ a n,
      match a with
      | MSend _ => 3
      | MGo g => 1 + worker_weight g
      | _ => 1
      end + n)%nat 0%nat m.

Definition consumer_weight (c : consumer_pc) : nat :=
  match c with CReceiving => 2%nat | CSignalling => 1%nat | CExited => 0%nat end.

Definition weight (s : state) : nat :=
  (main_weight (main s) + foldr (λ w n, worker_weight w + n) 0 (workers s)
   + length (gather s) + consumer_weight (consumer s))%nat.

(** Every point a scrape sends: those of the summary, of the collectors
    enabled, and of the system state. *)
Definition collected (src : systemdMetricsSource) (conn : dbus.Conn) (now : Z)
    (allUnits : list unit_) : list MetricPoint :=
  let units := filterUnits src allUnits in
  sent (collectSummaryMetrics src now (map_to_list (summarizeUnits allUnits))) ++
  sent (collectUnitStatusMetrics src conn now units) ++
  (if collectStartTimeMetrics src
   then sent (collectUnitStartTimeMetrics src conn now units) else []) ++
  (if collectTaskMetrics src
   then sent (collectUnitTasksMetrics src conn now units) else []) ++
  sent (collectTimers src conn now units) ++
  sent (collectSockets src conn now units) ++
  sent (collectSystemState src conn now).

(** The points of a per-unit collector, unit by unit. *)
Definition per_unit (body : unit_ → Go ()) (units : list unit_) : list MetricPoint :=
  concat ((λ u, sent (body u)) <$> units).

Definition collected_per_unit (src : systemdMetricsSource) (conn : dbus.Conn) (now : Z)
    (allUnits : list unit_) : list MetricPoint :=
  let units := filterUnits src allUnits in
  sent (collectSummaryMetrics src now (map_to_list (summarizeUnits allUnits))) ++
  per_unit (unitStatus_body src conn now) units ++
  (if collectStartTimeMetrics src then per_unit (startTime_body src conn now) units else []) ++
  (if collectTaskMetrics src then per_unit (tasks_body src conn now) units else []) ++
  per_unit (timers_body src conn now) units ++
  per_unit (sockets_body src conn now) units ++
  sent (collectSystemState src conn now).

(** No enabled collector panics. *)
Definition collectors_return (src : systemdMetricsSource) (conn : dbus.Conn) (now : Z)
    (allUnits : list unit_) : Prop :=
  let units := filterUnits src allUnits in
  returns (collectUnitStatusMetrics src conn now units) ∧
  (collectStartTimeMetrics src = true →
     returns (collectUnitStartTimeMetrics src conn now units)) ∧
  (collectTaskMetrics src = true →
     returns (collectUnitTasksMetrics src conn now units)) ∧
  returns (collectTimers src conn now units) ∧
  returns (collectSockets src conn now units).

End scrape_spec.

(** ** Concrete inputs *)

Module example.

(** The source [NewProvider] builds from an empty query. *)
Definition src : systemdMetricsSource :=
  {| prefix := "kubernetes.systemd."; source := "node-1";
     collectTaskMetrics := true; collectStartTimeMetrics := true;
     collectRestartMetrics := false;
     unitsFilter := None; filters := None |}.

Definition mk_unit (name load active : string) : unit_ :=
  {| UnitStatus := {| dbus.Name := name; dbus.LoadState := load;
                      dbus.ActiveState := active |} |}.

(** A service that is reloading its configuration: the service manager
    reports the active state [reloading]. *)
Definition reloading_service : unit_ := mk_unit "nginx.service" "loaded" "reloading".

Definition active_service : unit_ := mk_unit "sshd.service" "loaded" "active".

Definition socket : unit_ := mk_unit "docker.socket" "loaded" "active".

(** A service manager that answers every lookup. *)
Definition conn : dbus.Conn :=
  {| dbus.ListUnits :=
       Ok [UnitStatus reloading_service; UnitStatus active_service; UnitStatus socket];
     dbus.GetUnitProperty := λ _ _, Ok (dbus.VUint64 1700000000000000);
     dbus.GetUnitTypeProperty := λ _ _ prop,
       if String.eqb prop "Type" then Ok (dbus.VString "simple")
       else if String.eqb prop "TasksMax" then Ok (dbus.VUint64 MaxUint64)
       else if String.eqb prop "TasksCurrent" then Ok (dbus.VUint64 3)
       else if String.eqb prop "LastTriggerUSec" then Ok (dbus.VUint64 1700000000000000)
       else Ok (dbus.VUint32 2);
     dbus.GetManagerProperty := λ _, Ok quoted_running |}.

(** The same service manager, but older: the [NConnections] lookup
    fails. *)
Definition conn_no_NConnections : dbus.Conn :=
  {| dbus.ListUnits := dbus.ListUnits conn;
     dbus.GetUnitProperty := dbus.GetUnitProperty conn;
     dbus.GetUnitTypeProperty := λ name type prop,
       if String.eqb prop "NConnections" then Err "Unknown property"
       else dbus.GetUnitTypeProperty conn name type prop;
     dbus.GetManagerProperty := dbus.GetManagerProperty conn |}.

(** The same service manager, but the [SystemState] lookup fails. *)
Definition conn_no_SystemState : dbus.Conn :=
  {| dbus.ListUnits := dbus.ListUnits conn;
     dbus.GetUnitProperty := dbus.GetUnitProperty conn;
     dbus.GetUnitTypeProperty := dbus.GetUnitTypeProperty conn;
     dbus.GetManagerProperty := λ _, Err "connection timed out" |}.

End example.

(** ** Vocabulary of the further properties *)


Definition timer_point (src : systemdMetricsSource) (now : Z) (u : unit_) (usec : Z)
  : MetricPoint :=
  metricPoint src "timer_last_trigger_seconds"
    (float64.div (float64.of_Z usec) float64.million) now
    (Some (setTag ∅ "name" (unit_Name u))).

(** The restart-count point of a service. *)
Definition restart_point (src : systemdMetricsSource) (now : Z) (u : unit_) (n : Z)
  : MetricPoint :=
  metricPoint src "service_restart_total" (float64.of_Z n) now
    (Some (setTag ∅ "name" (unit_Name u))).

(** The summary point of one bucket. *)
Definition summary_point (src : systemdMetricsSource) (now : Z)
    (entry : string * float64.t) : MetricPoint :=
  metricPoint src "units" entry.2 now (Some (setTag ∅ "state_name" entry.1)).

(** A unit name carries a suffix. *)
Definition has_suffix (suffix : string) (u : unit_) : Prop :=
  strings.HasSuffix (unit_Name u) suffix = true.

#[global] Instance has_suffix_dec suffix u : Decision (has_suffix suffix u).
Proof. unfold has_suffix. apply _. Defined.

(** No tag of the point has the empty string as its value. *)
Definition tags_nonempty (p : MetricPoint) : Prop :=
  ∀ tags key val, Tags p = Some tags → tags !! key = Some val → val ≠ "".

(** The point carries the source identity and the timestamp of the
    scrape. *)
Definition stamped (src : systemdMetricsSource) (now : Z) (p : MetricPoint) : Prop :=
  Source p = source src ∧ Timestamp p = now.

(** The points of a list the metric filter rejects. *)
Definition dropped (src : systemdMetricsSource) (l : list MetricPoint) : list MetricPoint :=
  filter (λ p, ¬ passes src p) l.

(** The strings [strconv.ParseBool] reads as true. *)
Definition true_literals : list string := ["1"; "t"; "T"; "TRUE"; "true"; "True"].


(** ** Further concrete inputs *)

(** A metric filter that rejects the system-state metric, and the default
    source with it. *)
Definition drop_system_running : Filter :=
  {| Match := λ name _, negb (String.eqb name "kubernetes.systemd.system.running") |}.

Definition filtering_src : systemdMetricsSource :=
  {| prefix := "kubernetes.systemd."; source := "node-1";
     collectTaskMetrics := true; collectStartTimeMetrics := true;
     collectRestartMetrics := false;
     unitsFilter := None; filters := Some drop_system_running |}.

(** A service manager that lists no unit. *)
Definition idle_conn : dbus.Conn :=
  {| dbus.ListUnits := Ok [];
     dbus.GetUnitProperty := dbus.GetUnitProperty example.conn;
     dbus.GetUnitTypeProperty := dbus.GetUnitTypeProperty example.conn;
     dbus.GetManagerProperty := dbus.GetManagerProperty example.conn |}.

(** The points [ScrapeMetrics] sends itself before its next statement
    that is not a send, and the states in which the points sent so far
    begin with (or, no goroutine started yet, are about to complete) a
    given list. *)
Fixpoint leading_sends (m : list scrape.main_action) : list MetricPoint :=
  match m with
  | scrape.MSend p :: m' => p :: leading_sends m'
  | _ => []
  end.

Definition begins_with (first : list MetricPoint) (s : scrape.state) : Prop :=
  (∃ rest, scrape.log s = first ++ rest) ∨
  (scrape.workers s = [] ∧ scrape.closed s = false ∧
   ∃ rest, scrape.log s ++ leading_sends (scrape.main s) = first ++ rest).

(** * Properties *)

(** ** float64: the integers below 2^53 are exact *)

Module float64_facts.

Import float64.

Lemma digits2_size p : digits2_pos p = Pos.size p.
Proof. induction p; simpl; congruence. Qed.

Lemma iter_pos_iter {A} (f : A → A) n x : SpecFloat.iter_pos f n x = Pos.iter f x n.
Proof.
  revert x; induction n as [n IH|n IH|]; intros x; simpl; auto.
  - by rewrite !IH, !Pos.iter_swap.
  - by rewrite !IH.
Qed.

Lemma digits2_shl m k : digits2_pos (Pos.iter xO m k) = (digits2_pos m + k)%positive.
Proof.
  induction k as [|k IH] using Pos.peano_ind.
  - simpl. by rewrite Pos.add_1_r.
  - rewrite Pos.iter_succ. simpl. rewrite IH. by rewrite Pos.add_succ_r.
Qed.

Lemma Zpos_shl m k : Z.pos (Pos.iter xO m k) = Z.pos m * 2 ^ Z.pos k.
Proof.
  change (Pos.iter xO m k) with (Zpower.shift_pos k m).
  rewrite Zpower.shift_pos_correct, Z.pow_pos_fold. lia.
Qed.

Lemma shr_shl m k :
  Pos.iter shr_1 {| shr_m := Z.pos (Pos.iter xO m k); shr_r := false; shr_s := false |} k
  = {| shr_m := Z.pos m; shr_r := false; shr_s := false |}.
Proof.
  revert m; induction k as [|k IH] using Pos.peano_ind; intros m.
  - reflexivity.
  - rewrite Pos.iter_succ, Pos.iter_succ_r, IH. reflexivity.
Qed.

Lemma shr_fexp_noop m e :
  Z.pos (digits2_pos m) = 53 → -1074 ≤ e →
  shr_fexp prec emax (Z.pos m) e loc_Exact
  = ({| shr_m := Z.pos m; shr_r := false; shr_s := false |}, e).
Proof.
  intros Hd He. unfold shr_fexp, fexp, emin, prec, emax.
  change (Zdigits2 (Z.pos m)) with (Z.pos (digits2_pos m)). rewrite Hd.
  replace (Z.max (53 + e - 53) (3 - 1024 - 53) - e) with 0 by lia.
  reflexivity.
Qed.

Lemma round_aux_tail m e :
  Z.pos (digits2_pos m) = 53 → -1074 ≤ e ≤ 971 →
  (let '(mrs, e') :=
     shr_fexp prec emax (round_nearest_even (Z.pos m) loc_Exact) e loc_Exact in
   match shr_m mrs with
   | 0 => S754_zero false
   | Z.pos m' =>
       if Z.leb e' (emax - prec) then S754_finite false m' e' else S754_infinity false
   | Z.neg _ => S754_nan
   end) = S754_finite false m e.
Proof.
  intros Hd He. cbn [round_nearest_even]. rewrite shr_fexp_noop by lia.
  cbn [shr_m]. unfold emax, prec. destruct (Z.leb_spec e (1024 - 53)); [reflexivity|lia].
Qed.

Lemma round_aux_exact m e :
  Z.pos (digits2_pos m) = 53 → -1074 ≤ e ≤ 971 →
  binary_round_aux prec emax false (Z.pos m) e loc_Exact = S754_finite false m e.
Proof.
  intros Hd He. unfold binary_round_aux. rewrite shr_fexp_noop by lia.
  cbn [shr_m loc_of_shr_record]. by apply round_aux_tail.
Qed.

Lemma round_aux_shl q k e :
  Z.pos (digits2_pos q) = 53 → -1074 ≤ e → e + Z.pos k ≤ 971 →
  binary_round_aux prec emax false (Z.pos (Pos.iter xO q k)) e loc_Exact
  = S754_finite false q (e + Z.pos k).
Proof.
  intros Hd He Hk. unfold binary_round_aux, shr_fexp at 1, fexp, emin, prec, emax.
  change (Zdigits2 (Z.pos ?m)) with (Z.pos (digits2_pos m)).
  rewrite digits2_shl, Pos2Z.inj_add, Hd.
  replace (Z.max (53 + Z.pos k + e - 53) (3 - 1024 - 53) - e) with (Z.pos k) by lia.
  cbn [shr shr_record_of_loc]. rewrite iter_pos_iter, shr_shl.
  cbn [shr_m loc_of_shr_record]. apply round_aux_tail; lia.
Qed.

Lemma shl_align_noop m ex ex' : ex ≤ ex' → shl_align m ex ex' = (m, ex).
Proof. intros H. unfold shl_align. destruct (ex' - ex) eqn:E; auto; lia. Qed.

Lemma shl_align_shift m ex k :
  shl_align m ex (ex - Z.pos k) = (Pos.iter xO m k, ex - Z.pos k).
Proof.
  unfold shl_align. replace (ex - Z.pos k - ex) with (Z.neg k) by lia. reflexivity.
Qed.

Lemma shl_align_canon p m e :
  Z.pos (digits2_pos p) ≤ 53 →
  shl_align p 0 (Z.pos (digits2_pos p) - 53) = (m, e) →
  Z.pos (digits2_pos m) = 53 ∧ e = Z.pos (digits2_pos p) - 53 ∧
  Z.pos m = Z.pos p * 2 ^ (- e).
Proof.
  intros Hd. remember (Z.pos (digits2_pos p)) as d eqn:Ed.
  destruct (Z.eq_dec d 53) as [->|Hne].
  - rewrite shl_align_noop by lia. intros Heq. inversion Heq; subst m e.
    rewrite <- Ed. repeat split; try lia.
  - destruct (53 - d) as [|k|k] eqn:Ek; try lia.
    replace (d - 53) with (0 - Z.pos k) by lia. rewrite shl_align_shift.
    intros Heq. inversion Heq; subst m e.
    rewrite digits2_shl, Zpos_shl, Pos2Z.inj_add, <- Ed.
    repeat split; try lia.
Qed.

Lemma digits2_bound p n : 0 ≤ n → Z.pos p < 2 ^ n → Z.pos (digits2_pos p) ≤ n.
Proof.
  intros Hn Hp. rewrite digits2_size.
  pose proof (Pos.size_le p) as H. apply Pos2Z.pos_le_pos in H.
  rewrite Pos2Z.inj_pow in H. change (Z.pos p~0) with (2 * Z.pos p) in H.
  assert (H0 : 2 ^ Z.pos (Pos.size p) < 2 ^ (n + 1)).
  { rewrite Z.pow_add_r by lia. lia. }
  apply Z.pow_lt_mono_r_iff in H0; lia.
Qed.

Lemma of_Z_canon p : Z.pos (digits2_pos p) ≤ 53 → of_Z (Z.pos p) = canon p.
Proof.
  intros Hd. unfold of_Z, canon, binary_normalize, binary_round, fexp, emin, prec, emax.
  replace (Z.max (Z.pos (digits2_pos p) + 0 - 53) (3 - 1024 - 53))
    with (Z.pos (digits2_pos p) - 53) by lia.
  destruct (shl_align p 0 _) as [m e] eqn:Hs.
  apply shl_align_canon in Hs as (H1 & H2 & _); auto.
  apply round_aux_exact; lia.
Qed.

Lemma add_canon_one p :
  Z.pos p + 1 < 2 ^ 53 → add (canon p) one = canon (p + 1).
Proof.
  intros Hp.
  assert (Hd : Z.pos (digits2_pos p) ≤ 53) by (apply digits2_bound; lia).
  assert (Hd' : Z.pos (digits2_pos (p + 1)) ≤ 53) by (apply digits2_bound; lia).
  assert (Hd2 : 2 ≤ Z.pos (digits2_pos (p + 1))).
  { destruct (digits2_pos (p + 1)) eqn:E; try lia.
    pose proof (Pos.size_gt (p + 1)) as H. rewrite <- digits2_size, E in H. lia. }
  unfold canon.
  destruct (shl_align p 0 _) as [m e] eqn:Hs.
  destruct (shl_align (p + 1) 0 _) as [m' e'] eqn:Hs'.
  apply shl_align_canon in Hs as (Hm & He & Hv); auto.
  apply shl_align_canon in Hs' as (Hm' & He' & Hv'); auto.
  unfold add, one, SFadd.
  replace (Z.min e (-52)) with (-52) by lia.
  rewrite (shl_align_noop 4503599627370496 (-52) (-52)) by lia.
  cbn [fst cond_Zopp].
  assert (Hsum : Z.pos (fst (shl_align m e (-52))) + 4503599627370496
                 = Z.pos (Pos.iter xO m' (Pos.pred (digits2_pos (p + 1))))).
  { rewrite Zpos_shl, Hv'. rewrite Pos2Z.inj_pred by lia.
    rewrite <- Z.mul_assoc, <- Z.pow_add_r by lia.
    replace (- e' + Z.pred (Z.pos (digits2_pos (p + 1)))) with 52 by lia.
    destruct (Z.eq_dec e (-52)) as [E|E].
    - rewrite shl_align_noop by lia. cbn [fst]. rewrite Hv.
      replace (- e) with 52 by lia. lia.
    - destruct (e + 52) as [|k|k] eqn:Ek; try lia.
      replace (-52) with (e - Z.pos k) by lia. rewrite shl_align_shift. cbn [fst].
      rewrite Zpos_shl, Hv, <- Z.mul_assoc, <- Z.pow_add_r by lia.
      replace (- e + Z.pos k) with 52 by lia. lia. }
  rewrite Hsum. unfold binary_normalize, binary_round.
  rewrite shl_align_noop.
  2:{ unfold fexp, emin, prec, emax. rewrite digits2_shl, Pos2Z.inj_add, Hm'. lia. }
  rewrite round_aux_shl; try lia.
  f_equal. rewrite Pos2Z.inj_pred by lia. lia.
Qed.

(** Adding [1.0] to an integer-valued float is exact below 2^53. *)
Lemma of_Z_succ n : 0 ≤ n → n + 1 < 2 ^ 53 → add (of_Z n) one = of_Z (n + 1).
Proof.
  intros H0 Hn. destruct n as [|p|p]; try lia.
  - reflexivity.
  - rewrite of_Z_canon by (apply digits2_bound; lia).
    rewrite add_canon_one by lia.
    change (Z.pos p + 1) with (Z.pos (p + 1)).
    rewrite of_Z_canon; auto. apply digits2_bound; lia.
Qed.

Lemma to_Z_of_Z n : 0 ≤ n < 2 ^ 53 → to_Z (of_Z n) = Some n.
Proof.
  intros Hn. destruct n as [|p|p]; try lia; [reflexivity|].
  assert (Hd : Z.pos (digits2_pos p) ≤ 53) by (apply digits2_bound; lia).
  rewrite of_Z_canon by auto. unfold canon.
  destruct (shl_align p 0 _) as [m e] eqn:Hs.
  apply shl_align_canon in Hs as (Hm & He & Hv); auto.
  unfold to_Z. rewrite Hv.
  destruct (Z.leb_spec 0 e).
  - replace e with 0 by lia. f_equal. simpl. lia.
  - rewrite Z.mod_mul, Z.div_mul by (apply Z.pow_nonzero; lia). reflexivity.
Qed.

End float64_facts.

(** ** Goroutine bodies: what is sent, how they end *)

Lemma sent_bind {A B} (m : Go A) (f : A → Go B) :
  sent (m ≫= f) =
  sent m ++ match ending m with Returned a => sent (f a) | Panicked => [] end.
Proof.
  destruct m as [out [a|]]; unfold sent, ending, mbind, Go_bind; simpl.
  - by destruct (f a).
  - by rewrite app_nil_r.
Qed.

Lemma ending_bind {A B} (m : Go A) (f : A → Go B) :
  ending (m ≫= f) =
  match ending m with Returned a => ending (f a) | Panicked => Panicked end.
Proof.
  destruct m as [out [a|]]; unfold sent, ending, mbind, Go_bind; simpl; [|done].
  by destruct (f a).
Qed.

Lemma returns_bind {A B} (m : Go A) (f : A → Go B) :
  returns (m ≫= f) ↔ ∃ a, ending m = Returned a ∧ returns (f a).
Proof.
  unfold returns. rewrite ending_bind. destruct (ending m) as [a|].
  - split; [eauto|]. by intros (a' & [= <-] & ?).
  - split; [done|]. by intros (a' & ? & ?).
Qed.

Lemma sent_for_range_returns {A} (l : list A) (body : A → Go ()) :
  Forall (λ x, returns (body x)) l →
  returns (for_range l body) ∧
  sent (for_range l body) = concat ((λ x, sent (body x)) <$> l).
Proof.
  induction 1 as [|x l Hx Hl [IH1 IH2]]; [done|]. cbn [for_range fmap list_fmap concat].
  split.
  - apply returns_bind. unfold returns in Hx. destruct (ending (body x)) as [[]|]; naive_solver.
  - rewrite sent_bind. unfold returns in Hx. destruct (ending (body x)); [|done].
    by rewrite IH2.
Qed.

Lemma returns_for_range {A} (l : list A) (body : A → Go ()) :
  returns (for_range l body) ↔ Forall (λ x, returns (body x)) l.
Proof.
  split; [|intros H; by apply sent_for_range_returns].
  induction l as [|x l IH]; [by constructor|]. cbn [for_range].
  intros (a & Ha & Hr)%returns_bind. constructor; [|by apply IH].
  unfold returns. by rewrite Ha.
Qed.

Lemma Forall_sent_bind {A B} (P : MetricPoint → Prop) (m : Go A) (f : A → Go B) :
  Forall P (sent m) → (∀ a, Forall P (sent (f a))) → Forall P (sent (m ≫= f)).
Proof.
  intros Hm Hf. rewrite sent_bind. apply Forall_app. split; [done|].
  destruct (ending m); [apply Hf | constructor].
Qed.

Lemma Forall_sent_for_range_elem {A} (P : A → MetricPoint → Prop) (l : list A)
    (body : A → Go ()) :
  (∀ x, x ∈ l → Forall (P x) (sent (body x))) →
  Forall (λ p, ∃ x, x ∈ l ∧ P x p) (sent (for_range l body)).
Proof.
  induction l as [|x l IH]; intros Hb; [constructor|].
  cbn [for_range]. rewrite sent_bind. apply Forall_app. split.
  - eapply Forall_impl; [apply Hb, list_elem_of_here|].
    intros p Hp. exists x. split; [apply list_elem_of_here|done].
  - destruct (ending _); [|constructor].
    eapply Forall_impl; [apply IH; intros y Hy; apply Hb; by right|].
    intros p (y & Hy & Hp). exists y. split; [by right|done].
Qed.

Lemma Forall_sent_for_range {A} (P : MetricPoint → Prop) (l : list A) (body : A → Go ()) :
  (∀ x, Forall P (sent (body x))) → Forall P (sent (for_range l body)).
Proof.
  intros Hb. induction l as [|x l IH]; [constructor|].
  cbn [for_range]. by apply Forall_sent_bind.
Qed.

(** ** [filterAppend] *)

Lemma wrap64_id z : gm.MinInt64 ≤ z ≤ gm.MaxInt64 → gm.wrap64 z = z.
Proof.
  unfold gm.MinInt64, gm.MaxInt64, gm.wrap64. intros H.
  rewrite Z.mod_small; lia.
Qed.

Lemma filterAppend_passes src c slice point :
  passes src point → filterAppend src c slice point = (slice ++ [point], c).
Proof.
  unfold passes, filterAppend. intros [->|(f & -> & ->)]; done.
Qed.

Lemma filterAppend_drops src c slice point :
  ¬ passes src point → filterAppend src c slice point = (slice, gm.Inc c 1).
Proof.
  unfold passes, filterAppend. intros Hn.
  destruct (filters src) as [f|]; [|by destruct Hn; left].
  destruct (Match f (Metric point) (Tags point)) eqn:E; [|done].
  destruct Hn. right. eauto.
Qed.

(** C2 — [filterAppend] appends the point exactly when the metric filter is
    absent or matches the point's name and tags, leaving the counter alone;
    otherwise the sequence is unchanged and the dropped-point counter (an
    int64 that has not reached its maximum) grows by exactly one. *)
Theorem filterAppend_appends_iff_passes src (c : gm.Counter) slice point
    (Hc : gm.MinInt64 ≤ c < gm.MaxInt64) :
  ((filterAppend src c slice point).1 = slice ++ [point] ↔ passes src point) ∧
  (passes src point → (filterAppend src c slice point).2 = c) ∧
  (¬ passes src point →
     (filterAppend src c slice point).1 = slice ∧
     (filterAppend src c slice point).2 = c + 1).
Proof.
  destruct (decide (passes src point)) as [Hp|Hp].
  - rewrite filterAppend_passes by done. simpl. naive_solver.
  - rewrite filterAppend_drops by done. simpl. split_and!; [|done|].
    + split; [|done]. intros Heq. exfalso.
      apply (f_equal length) in Heq. rewrite length_app in Heq. simpl in Heq. lia.
    + intros _. split; [done|]. unfold gm.Inc. apply wrap64_id.
      unfold gm.MinInt64, gm.MaxInt64 in *. lia.
Qed.

(** ** [filterUnits] *)

Lemma foldl_append_filter {A} (P : A → Prop) `{∀ x, Decision (P x)}
    (b : A → bool) (l acc : list A) :
  (∀ x, b x = true ↔ P x) →
  foldl (λ filtered x, if b x then filtered ++ [x] else filtered) acc l
  = acc ++ filter P l.
Proof.
  intros Hb. revert acc. induction l as [|x l IH]; intros acc; simpl.
  - by rewrite app_nil_r.
  - rewrite IH, filter_cons. destruct (b x) eqn:E.
    + rewrite decide_True by by apply Hb. by rewrite <- app_assoc.
    + rewrite decide_False; [done|]. rewrite <- Hb. congruence.
Qed.

(** C5 — the Selector keeps exactly the units that are loaded and whose
    name the (possibly absent) name filter accepts, in the order of the
    input list. *)
Theorem filterUnits_selected src (units : list unit_) :
  filterUnits src units = filter (selected src) units ∧
  (∀ u, u ∈ filterUnits src units ↔ u ∈ units ∧ selected src u) ∧
  filterUnits src units `sublist_of` units.
Proof.
  assert (Heq : filterUnits src units = filter (selected src) units).
  { unfold filterUnits.
    rewrite (foldl_append_filter (selected src)); [done|].
    intros u. unfold selected. rewrite andb_true_iff.
    rewrite (String.eqb_eq (unit_LoadState u)).
    destruct (unitsFilter src) as [f|]; naive_solver. }
  rewrite Heq. split_and!; [done| |apply sublist_filter].
  intros u. rewrite list_elem_of_filter. naive_solver.
Qed.

(** ** [NewProvider] *)

(** C10 — a [taskMetrics], [startTimeMetrics] or [restartMetrics] value
    that does not parse as a boolean sets its toggle to [false], the
    boolean [strconv.ParseBool] returns with its error, also where the
    toggle of an absent parameter would be [true]. *)
Theorem NewProvider_unparseable_toggle_false nodeName hostname fromQuery filter_FromQuery
    (vals : gmap string (list string)) (s : systemdMetricsSource)
    (Hs : s ∈ NewProvider nodeName hostname fromQuery filter_FromQuery vals) :
  (∀ v rest, values vals "taskMetrics" = v :: rest →
     (strconv.ParseBool v).2 ≠ None → collectTaskMetrics s = false) ∧
  (∀ v rest, values vals "startTimeMetrics" = v :: rest →
     (strconv.ParseBool v).2 ≠ None → collectStartTimeMetrics s = false) ∧
  (∀ v rest, values vals "restartMetrics" = v :: rest →
     (strconv.ParseBool v).2 ≠ None → collectRestartMetrics s = false) ∧
  (values vals "taskMetrics" = [] → collectTaskMetrics s = true) ∧
  (values vals "startTimeMetrics" = [] → collectStartTimeMetrics s = true) ∧
  (values vals "restartMetrics" = [] → collectRestartMetrics s = false).
Proof.
  assert (Hparse : ∀ v, (strconv.ParseBool v).2 ≠ None → (strconv.ParseBool v).1 = false).
  { intros v. unfold strconv.ParseBool. repeat case_bool_decide; naive_solver. }
  apply list_elem_of_singleton in Hs. subst s. cbn [collectTaskMetrics
    collectStartTimeMetrics collectRestartMetrics].
  split_and!; try (intros v rest -> ?; by apply Hparse); by intros ->.
Qed.

Lemma NewProvider_unparseable_toggle_false_witness :
  let vals : gmap string (list string) :=
    {[ "taskMetrics" := ["yes"]; "startTimeMetrics" := ["2"] ]} in
  (λ s, (collectTaskMetrics s, collectStartTimeMetrics s, collectRestartMetrics s))
    <$> NewProvider "node-1" (Ok "host") (λ _, None) (λ _, None) vals
  = [(false, false, false)].
Proof.
  intros vals.
  pose proof (NewProvider_unparseable_toggle_false "node-1" (Ok "host") (λ _, None)
                (λ _, None) vals) as H.
  destruct (NewProvider "node-1" (Ok "host") (λ _, None) (λ _, None) vals)
    as [|s [|s' l]] eqn:E; try discriminate E.
  destruct (H s) as (H1 & H2 & _ & _ & _ & H6); [apply list_elem_of_here|].
  cbn [fmap list_fmap]. do 2 f_equal. f_equal; [f_equal|].
  - apply (H1 "yes" []); [reflexivity | vm_compute; discriminate].
  - apply (H2 "2" []); [reflexivity | vm_compute; discriminate].
  - apply H6. reflexivity.
Defined.

Lemma filterAppend_appends_iff_passes_witness :
  let reject_all := {| Match := λ _ _, false |} in
  let src := {| prefix := "kubernetes.systemd."; source := "node-1";
                collectTaskMetrics := true; collectStartTimeMetrics := true;
                collectRestartMetrics := false;
                unitsFilter := None; filters := Some reject_all |} in
  let p := metricPoint src "system_running" float64.one 1700000000 None in
  filterAppend src 41 [] p = ([], 42).
Proof.
  intros reject_all src p.
  assert (Hc : gm.MinInt64 ≤ 41 < gm.MaxInt64) by (vm_compute; split; [discriminate|done]).
  destruct (filterAppend_appends_iff_passes src 41 [] p Hc) as (_ & _ & H).
  destruct H as [H1 H2].
  - intros [?|(f & [= <-] & ?)]; discriminate.
  - destruct (filterAppend src 41 [] p) as [l c]. simpl in *. by subst.
Defined.

(** ** Metric names *)

Lemma Replace_from_underscores n s :
  n < 0 → strings.Replace_from "_" "." n 0 s = underscores_to_dots s.
Proof.
  revert n. induction s as [|c s IH]; intros n Hn; [done|].
  cbn [strings.Replace_from underscores_to_dots strings.map_bytes].
  destruct (Z.eqb_spec n 0); [lia|].
  cbn [String.prefix]. destruct (ascii_dec "_" c) as [<-|Hc].
  - cbn [strings.len String.length Nat.sub String.append Ascii.eqb].
    replace (Ascii.eqb "_" "_") with true by done.
    replace (String.prefix "" s) with true by (by destruct s).
    simpl. f_equal. apply IH. lia.
  - replace (Ascii.eqb c "_") with false.
    + f_equal. by apply IH.
    + symmetry. apply Ascii.eqb_neq. congruence.
Qed.

Lemma Replace_underscores name :
  strings.Replace name "_" "." (-1) = underscores_to_dots name.
Proof. unfold strings.Replace. simpl. by apply Replace_from_underscores. Qed.

Lemma metricPoint_Metric src name value ts tags :
  Metric (metricPoint src name value ts tags) = prefix src +:+ underscores_to_dots name.
Proof. unfold metricPoint. simpl. by rewrite Replace_underscores. Qed.

Lemma metricPoint_in_category src name value ts tags :
  in_category src name (metricPoint src name value ts tags).
Proof. apply metricPoint_Metric. Qed.

Lemma metricPoint_well_named src name value ts tags :
  name ∈ category_tokens → well_named src (metricPoint src name value ts tags).
Proof. intros H. exists name. split; [done|]. apply metricPoint_Metric. Qed.

Lemma string_app_inj_l (s a b : string) : s +:+ a = s +:+ b → a = b.
Proof. induction s as [|c s IH]; simpl; [done|]. intros [= H]. by apply IH. Qed.

Lemma in_category_inj src t1 t2 p :
  in_category src t1 p → in_category src t2 p →
  underscores_to_dots t1 = underscores_to_dots t2.
Proof.
  unfold in_category. intros -> H. by apply string_app_inj_l in H.
Qed.

#[local] Hint Resolve metricPoint_well_named : core.

Ltac token_in_list := unfold category_tokens; set_solver.

Lemma collectors_well_named src conn now units entries :
  Forall (well_named src) (sent (collectSummaryMetrics src now entries)) ∧
  Forall (well_named src) (sent (collectUnitStatusMetrics src conn now units)) ∧
  Forall (well_named src) (sent (collectUnitStartTimeMetrics src conn now units)) ∧
  Forall (well_named src) (sent (collectUnitTasksMetrics src conn now units)) ∧
  Forall (well_named src) (sent (collectTimers src conn now units)) ∧
  Forall (well_named src) (sent (collectSockets src conn now units)) ∧
  Forall (well_named src) (sent (collectSystemState src conn now)).
Proof.
  assert (Hsend : ∀ name v tags, name ∈ category_tokens →
            Forall (well_named src) (sent (send (metricPoint src name v now tags)))).
  { intros. repeat constructor. auto. }
  assert (Hret : ∀ A (a : A), Forall (well_named src) (sent (mret a : Go A))).
  { intros. constructor. }
  assert (Hassert32 : ∀ v, Forall (well_named src) (sent (as_uint32 v))).
  { intros []; constructor. }
  assert (Hassert64 : ∀ v, Forall (well_named src) (sent (as_uint64 v))).
  { intros []; constructor. }
  assert (Hasserts : ∀ v, Forall (well_named src) (sent (as_string v))).
  { intros []; constructor. }
  split_and!.
  - apply Forall_sent_for_range. intros [stateName count]. apply Hsend. token_in_list.
  - apply Forall_sent_for_range. intros u. unfold unitStatus_body.
    apply Forall_sent_bind.
    { unfold unitStatus_type. repeat case_match; auto. }
    intros ty. apply Forall_sent_bind.
    { apply Forall_sent_for_range. intros s. apply Hsend. token_in_list. }
    intros _. unfold unitStatus_restarts. repeat case_match; auto.
    apply Forall_sent_bind; [auto|]. intros n. apply Hsend. token_in_list.
  - apply Forall_sent_for_range. intros u. unfold startTime_body.
    repeat case_match; auto.
    + apply Hsend. token_in_list.
    + apply Forall_sent_bind; [auto|]. intros n. apply Hsend. token_in_list.
  - apply Forall_sent_for_range. intros u. unfold tasks_body, tasks_current, tasks_max.
    case_match; auto. apply Forall_sent_bind.
    + case_match; auto. apply Forall_sent_bind; [auto|]. intros n.
      case_match; auto. apply Hsend. token_in_list.
    + intros _. case_match; auto. apply Forall_sent_bind; [auto|]. intros n.
      case_match; auto. apply Hsend. token_in_list.
  - apply Forall_sent_for_range. intros u. unfold timers_body.
    repeat case_match; auto.
    apply Forall_sent_bind; [auto|]. intros n. apply Hsend. token_in_list.
  - apply Forall_sent_for_range. intros u. unfold sockets_body.
    case_match; auto. case_match; auto.
    apply Forall_sent_bind; [auto|]. intros n.
    apply Forall_sent_bind; [apply Hsend; token_in_list|]. intros _.
    case_match; auto.
    apply Forall_sent_bind; [auto|]. intros n'.
    apply Forall_sent_bind; [apply Hsend; token_in_list|]. intros _.
    case_match; auto.
    apply Forall_sent_bind; [auto|]. intros n''. apply Hsend. token_in_list.
  - unfold collectSystemState. case_match; auto.
    apply Forall_sent_bind; [apply Hsend; token_in_list|]. intros _. auto.
Qed.

Lemma filter_Forall_id {A} (P : A → Prop) `{∀ x, Decision (P x)} (l : list A) :
  Forall P l → filter P l = l.
Proof.
  induction 1 as [|x l Hx Hl IH]; [done|]. by rewrite filter_cons_True, IH.
Qed.

Lemma filter_Forall_nil {A} (P : A → Prop) `{∀ x, Decision (P x)} (l : list A) :
  Forall (λ x, ¬ P x) l → filter P l = [].
Proof.
  induction 1 as [|x l Hx Hl IH]; [done|]. by rewrite filter_cons_False.
Qed.

(** ** The Unit Status collector *)

Section unit_status.

Variable src : systemdMetricsSource.
Variable conn : dbus.Conn.
Variable now : Z.

Lemma unitStatus_type_sent u : sent (unitStatus_type conn u) = [].
Proof. unfold unitStatus_type, as_string. by repeat case_match. Qed.

Lemma unitStatus_restarts_sent u :
  Forall (in_category src "service_restart_total") (sent (unitStatus_restarts src conn now u)).
Proof.
  unfold unitStatus_restarts, as_uint32.
  repeat case_match; repeat constructor; apply metricPoint_in_category.
Qed.

Lemma unitStatus_body_sent u ty :
  ending (unitStatus_type conn u) = Returned ty →
  sent (unitStatus_body src conn now u)
  = (unitStatus_state src now u ty <$> unitStatesName)
    ++ sent (unitStatus_restarts src conn now u).
Proof.
  intros Hty. unfold unitStatus_body.
  rewrite sent_bind, unitStatus_type_sent, Hty, sent_bind. reflexivity.
Qed.

Lemma unitStatus_body_returns u :
  returns (unitStatus_body src conn now u) →
  ∃ ty, ending (unitStatus_type conn u) = Returned ty.
Proof. intros (ty & Hty & _)%returns_bind. eauto. Qed.

Lemma unit_state_points u ty :
  ending (unitStatus_type conn u) = Returned ty →
  filter (in_category src "unit_state") (sent (unitStatus_body src conn now u))
  = unitStatus_state src now u ty <$> unitStatesName.
Proof.
  intros Hty. rewrite (unitStatus_body_sent u ty Hty), filter_app.
  rewrite (filter_Forall_nil _ (sent (unitStatus_restarts src conn now u))).
  - rewrite app_nil_r. apply filter_Forall_id.
    unfold unitStatesName. repeat constructor; apply metricPoint_in_category.
  - eapply Forall_impl; [apply unitStatus_restarts_sent|].
    intros p H1 H2. by pose proof (in_category_inj _ _ _ _ H1 H2).
Qed.

Lemma setTags_state_name name state service :
  state ≠ "" → setTags ∅ name state service !! "state_name" = Some state.
Proof.
  intros Hs. unfold setTags, setTag. repeat case_bool_decide; by simplify_map_eq.
Qed.

Lemma unit_state_tag_value u ty state :
  state ≠ "" →
  tag "state_name" (unitStatus_state src now u ty state) = Some state ∧
  Value (unitStatus_state src now u ty state)
  = if decide (state = unit_ActiveState u) then float64.one else float64.zero.
Proof.
  intros Hs. split.
  - unfold tag, unitStatus_state, metricPoint. simpl. by apply setTags_state_name.
  - unfold unitStatus_state, metricPoint. simpl.
    destruct (String.eqb_spec state (unit_ActiveState u)); by case_decide.
Qed.

End unit_status.

Lemma one_hot_count (a : string) (names : list string) (pts : list MetricPoint) :
  NoDup names →
  Value <$> pts = (λ name, if decide (name = a) then float64.one else float64.zero) <$> names →
  length (filter hot pts) = (if decide (a ∈ names) then 1 else 0)%nat ∧
  (length (filter hot pts) + length (filter cold pts) = length names)%nat.
Proof.
  intros Hnd. revert pts. induction Hnd as [|n ns Hn Hns IH]; intros pts Hpts.
  - apply fmap_nil_inv in Hpts as ->. rewrite decide_False by set_solver. done.
  - destruct pts as [|p ps]; [done|]. injection Hpts as Hp Hps.
    destruct (IH ps Hps) as [IH1 IH2].
    assert (Hdec : (n = a ∧ hot p ∧ ¬ cold p) ∨ (n ≠ a ∧ ¬ hot p ∧ cold p)).
    { unfold hot, cold. rewrite Hp. destruct (decide (n = a)); [left|right]; done. }
    destruct Hdec as [(-> & Hh & Hc)|(Hne & Hh & Hc)].
    + rewrite filter_cons_True, filter_cons_False by done.
      rewrite (decide_True (P := a ∈ a :: ns)) by set_solver.
      rewrite decide_False in IH1 by done. cbn [length]. lia.
    + rewrite filter_cons_False, filter_cons_True by done.
      cbn [length]. split; [|lia].
      rewrite IH1. destruct (decide (a ∈ ns)).
      * rewrite decide_True by set_solver. done.
      * rewrite decide_False by set_solver. done.
Qed.

(** C3, amended — for every unit the Unit Status collector emits exactly
    five [unit_state] points, one per known active-state name and in that
    order, with value [1.0] when the name is the unit's active state and
    [0.0] otherwise; when the unit's active state is one of the five names
    exactly one point is hot and four are cold, and when it is any other
    state all five are cold. *)
Theorem unit_status_one_point_per_state src conn now (units : list unit_)
    (Hret : returns (collectUnitStatusMetrics src conn now units)) :
  sent (collectUnitStatusMetrics src conn now units)
    = concat ((λ u, sent (unitStatus_body src conn now u)) <$> units) ∧
  ∀ u, u ∈ units →
    let pts := filter (in_category src "unit_state") (sent (unitStatus_body src conn now u)) in
    (λ p, (tag "state_name" p, Value p)) <$> pts
      = (λ name, (Some name,
                  if decide (name = unit_ActiveState u) then float64.one else float64.zero))
        <$> unitStatesName ∧
    (unit_ActiveState u ∈ unitStatesName →
       length (filter hot pts) = 1%nat ∧ length (filter cold pts) = 4%nat) ∧
    (unit_ActiveState u ∉ unitStatesName →
       length (filter hot pts) = 0%nat ∧ length (filter cold pts) = 5%nat).
Proof.
  apply returns_for_range in Hret.
  split; [by apply sent_for_range_returns|].
  intros u Hu pts.
  rewrite Forall_forall in Hret. apply Hret, unitStatus_body_returns in Hu as [ty Hty].
  assert (Hpts : pts = unitStatus_state src now u ty <$> unitStatesName)
    by by apply unit_state_points.
  assert (Htv : (λ p, (tag "state_name" p, Value p)) <$> pts
      = (λ name, (Some name,
                  if decide (name = unit_ActiveState u) then float64.one else float64.zero))
        <$> unitStatesName).
  { rewrite Hpts, <- list_fmap_compose. apply Forall_fmap_ext_1.
    apply Forall_forall. intros name Hin.
    assert (Hne : name ≠ "") by (intros ->; unfold unitStatesName in Hin; set_solver).
    unfold compose. by destruct (unit_state_tag_value src now u ty name Hne) as [-> ->]. }
  split; [done|].
  destruct (one_hot_count (unit_ActiveState u) unitStatesName pts) as [H1 H2].
  - unfold unitStatesName. repeat (constructor; [set_solver|]). constructor.
  - apply (f_equal (fmap snd)) in Htv. by rewrite <- !list_fmap_compose in Htv.
  - cbn [unitStatesName length] in H2. split; intros Hin.
    + rewrite decide_True in H1 by done. lia.
    + rewrite decide_False in H1 by done. lia.
Qed.

Lemma unit_status_one_point_per_state_witness :
  let pts := filter (in_category example.src "unit_state")
               (sent (unitStatus_body example.src example.conn 1700000000
                        example.active_service)) in
  length (filter hot pts) = 1%nat ∧ length (filter cold pts) = 4%nat.
Proof.
  intros pts.
  assert (Hret : returns (collectUnitStatusMetrics example.src example.conn 1700000000
                            [example.active_service])) by exact I.
  destruct (unit_status_one_point_per_state _ _ _ _ Hret) as [_ H].
  destruct (H example.active_service) as (_ & H1 & _); [apply list_elem_of_here|].
  apply H1. unfold unitStatesName. apply list_elem_of_here.
Defined.

(** C3 as stated fails: a loaded service in the active state [reloading]
    is selected, the collector returns, and none of its five unit-state
    points is hot. *)
Lemma unit_status_reloading_no_hot_point :
  let units := filterUnits example.src [example.reloading_service] in
  let pts := filter (in_category example.src "unit_state")
               (sent (unitStatus_body example.src example.conn 1700000000
                        example.reloading_service)) in
  example.reloading_service ∈ units ∧
  returns (collectUnitStatusMetrics example.src example.conn 1700000000 units) ∧
  length pts = 5%nat ∧
  ¬ (length (filter hot pts) = 1%nat ∧ length (filter cold pts) = 4%nat).
Proof.
  intros units pts. split_and!.
  - apply list_elem_of_here.
  - exact I.
  - by vm_compute.
  - intros [H _]. vm_compute in H. discriminate.
Qed.

(** ** The Task Counts collector *)

Section tasks.

Variable src : systemdMetricsSource.
Variable conn : dbus.Conn.
Variable now : Z.

Lemma tasks_current_sent u :
  sent (tasks_current src conn now u)
  = tasks_points src now u "unit_tasks_current"
      (dbus.GetUnitTypeProperty conn (unit_Name u) "Service" "TasksCurrent").
Proof.
  unfold tasks_current, tasks_points, as_uint64.
  destruct (dbus.GetUnitTypeProperty _ _ _ _) as [[]|]; try done.
  simpl. by case_bool_decide.
Qed.

Lemma tasks_max_sent u :
  sent (tasks_max src conn now u)
  = tasks_points src now u "unit_tasks_max"
      (dbus.GetUnitTypeProperty conn (unit_Name u) "Service" "TasksMax").
Proof.
  unfold tasks_max, tasks_points, as_uint64.
  destruct (dbus.GetUnitTypeProperty _ _ _ _) as [[]|]; try done.
  simpl. by case_bool_decide.
Qed.

Lemma tasks_current_returns u :
  has_kind KUint64 (dbus.GetUnitTypeProperty conn (unit_Name u) "Service" "TasksCurrent") →
  ending (tasks_current src conn now u) = Returned ().
Proof.
  unfold tasks_current, has_kind, as_uint64.
  destruct (dbus.GetUnitTypeProperty _ _ _ _) as [[]|]; try done.
  simpl. by case_bool_decide.
Qed.

Lemma tasks_points_category u token r :
  Forall (in_category src token) (tasks_points src now u token r).
Proof.
  unfold tasks_points. repeat case_match; repeat constructor.
  apply metricPoint_in_category.
Qed.

Lemma tasks_body_sent u :
  strings.HasSuffix (unit_Name u) ".service" = true →
  sent (tasks_body src conn now u)
  = tasks_points src now u "unit_tasks_current"
      (dbus.GetUnitTypeProperty conn (unit_Name u) "Service" "TasksCurrent")
    ++ match ending (tasks_current src conn now u) with
       | Returned _ =>
           tasks_points src now u "unit_tasks_max"
             (dbus.GetUnitTypeProperty conn (unit_Name u) "Service" "TasksMax")
       | Panicked => []
       end.
Proof.
  intros Hs. unfold tasks_body. rewrite Hs, sent_bind, tasks_current_sent.
  f_equal. destruct (ending _); [apply tasks_max_sent | done].
Qed.

Lemma tasks_body_current u :
  strings.HasSuffix (unit_Name u) ".service" = true →
  filter (in_category src "unit_tasks_current") (sent (tasks_body src conn now u))
  = tasks_points src now u "unit_tasks_current"
      (dbus.GetUnitTypeProperty conn (unit_Name u) "Service" "TasksCurrent").
Proof.
  intros Hs. rewrite tasks_body_sent, filter_app by done.
  rewrite filter_Forall_id by apply tasks_points_category.
  rewrite filter_Forall_nil; [by rewrite app_nil_r|].
  destruct (ending _); [|constructor].
  eapply Forall_impl; [apply tasks_points_category|].
  intros p H1 H2. by pose proof (in_category_inj _ _ _ _ H1 H2).
Qed.

Lemma tasks_body_max u :
  strings.HasSuffix (unit_Name u) ".service" = true →
  has_kind KUint64 (dbus.GetUnitTypeProperty conn (unit_Name u) "Service" "TasksCurrent") →
  filter (in_category src "unit_tasks_max") (sent (tasks_body src conn now u))
  = tasks_points src now u "unit_tasks_max"
      (dbus.GetUnitTypeProperty conn (unit_Name u) "Service" "TasksMax").
Proof.
  intros Hs Hk. rewrite tasks_body_sent, filter_app, tasks_current_returns by done.
  rewrite (filter_Forall_id _ (tasks_points src now u "unit_tasks_max" _))
    by apply tasks_points_category.
  rewrite filter_Forall_nil; [done|].
  eapply Forall_impl; [apply tasks_points_category|].
  intros p H1 H2. by pose proof (in_category_inj _ _ _ _ H1 H2).
Qed.

Lemma tasks_body_not_service u :
  strings.HasSuffix (unit_Name u) ".service" = false →
  sent (tasks_body src conn now u) = [].
Proof. intros Hs. unfold tasks_body. by rewrite Hs. Qed.

(** What the body sends for a unit when it does not panic. *)
Lemma tasks_body_returns_sent u :
  returns (tasks_body src conn now u) →
  sent (tasks_body src conn now u)
  = if strings.HasSuffix (unit_Name u) ".service"
    then tasks_points src now u "unit_tasks_current"
           (dbus.GetUnitTypeProperty conn (unit_Name u) "Service" "TasksCurrent") ++
         tasks_points src now u "unit_tasks_max"
           (dbus.GetUnitTypeProperty conn (unit_Name u) "Service" "TasksMax")
    else [].
Proof.
  intros Hret. destruct (strings.HasSuffix (unit_Name u) ".service") eqn:Hs;
    [|by apply tasks_body_not_service].
  rewrite tasks_body_sent by done. f_equal.
  unfold tasks_body in Hret. rewrite Hs in Hret.
  apply returns_bind in Hret as (a & -> & _). done.
Qed.

(** Every task-count point of a unit comes from a lookup that succeeded
    with a value other than the sentinel. *)
Lemma tasks_body_from_lookup u token prop :
  (token = "unit_tasks_current" ∧ prop = "TasksCurrent") ∨
  (token = "unit_tasks_max" ∧ prop = "TasksMax") →
  Forall (λ p, in_category src token p →
            ∃ v, dbus.GetUnitTypeProperty conn (unit_Name u) "Service" prop
                   = Ok (dbus.VUint64 v) ∧
                 v ≠ MaxUint64 ∧ p = tasks_point src now u token v)
    (sent (tasks_body src conn now u)).
Proof.
  intros Htok. destruct (strings.HasSuffix (unit_Name u) ".service") eqn:Hs;
    [|rewrite tasks_body_not_service by done; constructor].
  rewrite tasks_body_sent by done. apply Forall_app. split.
  - unfold tasks_points.
    destruct (dbus.GetUnitTypeProperty conn (unit_Name u) "Service" "TasksCurrent")
      as [[| |v|]|] eqn:E; try constructor.
    case_bool_decide; repeat constructor. intros Hc.
    destruct Htok as [[-> ->]|[-> _]].
    + exists v. done.
    + by pose proof (in_category_inj _ _ _ _ Hc (metricPoint_in_category _ _ _ _ _)).
  - destruct (ending _); [|constructor]. unfold tasks_points.
    destruct (dbus.GetUnitTypeProperty conn (unit_Name u) "Service" "TasksMax")
      as [[| |v|]|] eqn:E; try constructor.
    case_bool_decide; repeat constructor. intros Hc.
    destruct Htok as [[-> _]|[-> ->]].
    + by pose proof (in_category_inj _ _ _ _ Hc (metricPoint_in_category _ _ _ _ _)).
    + exists v. done.
Qed.

End tasks.

(** C6 — the Task Counts collector never emits a [unit_tasks_current] or
    [unit_tasks_max] point for a looked-up value equal to the largest
    uint64: every such point of the collector comes from a lookup that
    succeeded with another value.  The collector sends what its loop body
    sends for each unit, in the order of the snapshot, and the body sends
    nothing for a unit that is not a service.  For a service the two
    halves are independent: what is emitted for one count is decided by its
    own lookup alone, whether the other lookup failed, was suppressed or
    succeeded. *)
Theorem task_counts_skip_sentinel_independently src conn now (units : list unit_) :
  Forall (λ p, ∃ u, u ∈ units ∧
      (in_category src "unit_tasks_current" p →
         ∃ v, dbus.GetUnitTypeProperty conn (unit_Name u) "Service" "TasksCurrent"
                = Ok (dbus.VUint64 v) ∧
              v ≠ MaxUint64 ∧ p = tasks_point src now u "unit_tasks_current" v) ∧
      (in_category src "unit_tasks_max" p →
         ∃ v, dbus.GetUnitTypeProperty conn (unit_Name u) "Service" "TasksMax"
                = Ok (dbus.VUint64 v) ∧
              v ≠ MaxUint64 ∧ p = tasks_point src now u "unit_tasks_max" v))
    (sent (collectUnitTasksMetrics src conn now units)) ∧
  (returns (collectUnitTasksMetrics src conn now units) →
     sent (collectUnitTasksMetrics src conn now units)
       = concat ((λ u, sent (tasks_body src conn now u)) <$> units) ∧
     sent (collectUnitTasksMetrics src conn now units)
       = concat ((λ u,
           if strings.HasSuffix (unit_Name u) ".service"
           then tasks_points src now u "unit_tasks_current"
                  (dbus.GetUnitTypeProperty conn (unit_Name u) "Service" "TasksCurrent") ++
                tasks_points src now u "unit_tasks_max"
                  (dbus.GetUnitTypeProperty conn (unit_Name u) "Service" "TasksMax")
           else []) <$> units)) ∧
  (∀ u, strings.HasSuffix (unit_Name u) ".service" = false →
     sent (tasks_body src conn now u) = []) ∧
  ∀ u, strings.HasSuffix (unit_Name u) ".service" = true →
    let current := dbus.GetUnitTypeProperty conn (unit_Name u) "Service" "TasksCurrent" in
    let max := dbus.GetUnitTypeProperty conn (unit_Name u) "Service" "TasksMax" in
    let pts := sent (tasks_body src conn now u) in
    (current = Ok (dbus.VUint64 MaxUint64) →
       filter (in_category src "unit_tasks_current") pts = []) ∧
    (max = Ok (dbus.VUint64 MaxUint64) →
       filter (in_category src "unit_tasks_max") pts = []) ∧
    filter (in_category src "unit_tasks_current") pts
      = tasks_points src now u "unit_tasks_current" current ∧
    (has_kind KUint64 current →
       filter (in_category src "unit_tasks_max") pts
         = tasks_points src now u "unit_tasks_max" max) ∧
    (∀ v, is_Err current ∨ current = Ok (dbus.VUint64 MaxUint64) →
       max = Ok (dbus.VUint64 v) → v ≠ MaxUint64 →
       filter (in_category src "unit_tasks_max") pts
         = [tasks_point src now u "unit_tasks_max" v]) ∧
    (∀ v, is_Err max ∨ max = Ok (dbus.VUint64 MaxUint64) →
       current = Ok (dbus.VUint64 v) → v ≠ MaxUint64 →
       filter (in_category src "unit_tasks_current") pts
         = [tasks_point src now u "unit_tasks_current" v]).
Proof.
  split_and!.
  - unfold collectUnitTasksMetrics. apply Forall_sent_for_range_elem.
    intros u _. apply Forall_forall. intros p Hp. split; intros Hc.
    + pose proof (tasks_body_from_lookup src conn now u "unit_tasks_current" "TasksCurrent"
                    (or_introl (conj eq_refl eq_refl))) as H.
      rewrite Forall_forall in H. by apply H.
    + pose proof (tasks_body_from_lookup src conn now u "unit_tasks_max" "TasksMax"
                    (or_intror (conj eq_refl eq_refl))) as H.
      rewrite Forall_forall in H. by apply H.
  - intros Hret. unfold collectUnitTasksMetrics in *.
    apply returns_for_range in Hret.
    destruct (sent_for_range_returns _ _ Hret) as [_ Hsent].
    split; [exact Hsent|]. rewrite Hsent. f_equal.
    apply Forall_fmap_ext. eapply Forall_impl; [exact Hret|].
    intros u Hu. by apply tasks_body_returns_sent.
  - intros u. apply tasks_body_not_service.
  - intros u Hs current max pts.
    assert (Hcur : filter (in_category src "unit_tasks_current") pts
                   = tasks_points src now u "unit_tasks_current" current)
      by by apply tasks_body_current.
    assert (Hmax : has_kind KUint64 current →
                   filter (in_category src "unit_tasks_max") pts
                   = tasks_points src now u "unit_tasks_max" max)
      by by apply tasks_body_max.
    split_and!; [| |done|done| |].
    + intros E. rewrite Hcur, E. unfold tasks_points. by rewrite bool_decide_false by naive_solver.
    + intros E. unfold pts. rewrite tasks_body_sent, filter_app by done.
      fold max. rewrite E.
      replace (tasks_points src now u "unit_tasks_max" (Ok (dbus.VUint64 MaxUint64)))
        with (@nil MetricPoint)
        by (unfold tasks_points; by rewrite bool_decide_false by naive_solver).
      rewrite filter_Forall_nil; [by destruct (ending _)|].
      eapply Forall_impl; [apply tasks_points_category|].
      intros p H1 H2. by pose proof (in_category_inj _ _ _ _ H1 H2).
    + intros v Hc E Hv. rewrite Hmax, E.
      * unfold tasks_points. by rewrite bool_decide_true.
      * destruct Hc as [Hc| ->]; [by destruct current|]. unfold has_kind, MaxUint64. lia.
    + intros v _ E Hv. rewrite Hcur, E. unfold tasks_points. by rewrite bool_decide_true.
Qed.

Lemma task_counts_skip_sentinel_independently_witness :
  let units := [example.reloading_service; example.active_service; example.socket] in
  let pts := sent (tasks_body example.src example.conn 1700000000 example.active_service) in
  sent (collectUnitTasksMetrics example.src example.conn 1700000000 units)
    = [tasks_point example.src 1700000000 example.reloading_service "unit_tasks_current" 3;
       tasks_point example.src 1700000000 example.active_service "unit_tasks_current" 3] ∧
  filter (in_category example.src "unit_tasks_max") pts = [] ∧
  filter (in_category example.src "unit_tasks_current") pts
    = [tasks_point example.src 1700000000 example.active_service "unit_tasks_current" 3].
Proof.
  intros units pts.
  destruct (task_counts_skip_sentinel_independently example.src example.conn 1700000000
              units) as (_ & Hsent & _ & H).
  destruct (H example.active_service) as (_ & H2 & _ & _ & _ & H6); [reflexivity|].
  split_and!.
  - destruct (Hsent I) as [_ ->]. reflexivity.
  - apply H2. reflexivity.
  - apply (H6 3); [by right | reflexivity | vm_compute; discriminate].
Defined.

(** ** The Sockets collector *)

(** C7, amended — the Sockets collector sends what its loop body sends
    for each unit, in the order of the snapshot, and nothing for a unit
    that is not a socket.  For a socket unit: a failed accepted-count
    lookup skips the unit altogether; a failed current-count lookup leaves
    the accepted point and skips both the current point and the
    refused-count attempt; a failed refused-count lookup costs only the
    refused point. *)
Theorem sockets_lookup_failures src conn now (units : list unit_) :
  (returns (collectSockets src conn now units) →
     sent (collectSockets src conn now units)
       = concat ((λ u, sent (sockets_body src conn now u)) <$> units)) ∧
  (∀ u, strings.HasSuffix (unit_Name u) ".socket" = false →
     sent (sockets_body src conn now u) = []) ∧
  ∀ u, strings.HasSuffix (unit_Name u) ".socket" = true →
    let accepted := dbus.GetUnitTypeProperty conn (unit_Name u) "Socket" "NAccepted" in
    let current := dbus.GetUnitTypeProperty conn (unit_Name u) "Socket" "NConnections" in
    let refused := dbus.GetUnitTypeProperty conn (unit_Name u) "Socket" "NRefused" in
    let pts := sent (sockets_body src conn now u) in
    (is_Err accepted → pts = []) ∧
    (∀ a, accepted = Ok (dbus.VUint32 a) → is_Err current →
       pts = [socket_point src now u "socket_accepted_connections_total" a]) ∧
    (∀ a c, accepted = Ok (dbus.VUint32 a) → current = Ok (dbus.VUint32 c) →
       is_Err refused →
       pts = [socket_point src now u "socket_accepted_connections_total" a;
              socket_point src now u "socket_current_connections" c]) ∧
    (∀ a c r, accepted = Ok (dbus.VUint32 a) → current = Ok (dbus.VUint32 c) →
       refused = Ok (dbus.VUint32 r) →
       pts = [socket_point src now u "socket_accepted_connections_total" a;
              socket_point src now u "socket_current_connections" c;
              socket_point src now u "socket_refused_connections_total" r]).
Proof.
  split_and!.
  - intros Hret. unfold collectSockets in *. apply returns_for_range in Hret.
    by destruct (sent_for_range_returns _ _ Hret) as [_ Hsent].
  - intros u Hs. unfold sockets_body. by rewrite Hs.
  - intros u Hs accepted current refused pts.
    unfold pts, sockets_body. rewrite Hs. cbn [negb].
    fold accepted current refused.
    split_and!.
    + by destruct accepted.
    + intros a -> Hc. by destruct current.
    + intros a c -> -> Hr. by destruct refused.
    + by intros a c r -> -> ->.
Qed.

Lemma sockets_lookup_failures_witness :
  sent (collectSockets example.src example.conn_no_NConnections 1700000000
          [example.active_service; example.socket])
  = [socket_point example.src 1700000000 example.socket
       "socket_accepted_connections_total" 2].
Proof.
  destruct (sockets_lookup_failures example.src example.conn_no_NConnections 1700000000
              [example.active_service; example.socket]) as (Hsent & Hother & Hsocket).
  rewrite (Hsent I). cbn [fmap list_fmap concat].
  rewrite (Hother example.active_service eq_refl).
  destruct (Hsocket example.socket eq_refl) as (_ & H & _).
  rewrite (H 2 eq_refl I). reflexivity.
Defined.

(** C7 as stated fails: with the accepted-count and refused-count lookups
    succeeding and the current-count lookup failing, the Sockets collector
    does not emit the refused-count point either. *)
Lemma sockets_current_failure_skips_refused :
  let conn := example.conn_no_NConnections in
  let name := unit_Name example.socket in
  let pts := sent (collectSockets example.src conn 1700000000 [example.socket]) in
  dbus.GetUnitTypeProperty conn name "Socket" "NAccepted" = Ok (dbus.VUint32 2) ∧
  is_Err (dbus.GetUnitTypeProperty conn name "Socket" "NConnections") ∧
  dbus.GetUnitTypeProperty conn name "Socket" "NRefused" = Ok (dbus.VUint32 2) ∧
  returns (collectSockets example.src conn 1700000000 [example.socket]) ∧
  pts = [socket_point example.src 1700000000 example.socket
           "socket_accepted_connections_total" 2] ∧
  filter (in_category example.src "socket_refused_connections_total") pts = [].
Proof.
  intros conn name pts.
  split_and!; [reflexivity | exact I | reflexivity | exact I | reflexivity | by vm_compute].
Qed.

(** ** The Summarizer *)

Section summarize.

Lemma summarize_floats_are_counts units (c : gmap string Z) :
  Z.of_nat (length units) < 2 ^ 53 →
  (∀ s k, c !! s = Some k → 0 ≤ k ∧ k + Z.of_nat (length units) < 2 ^ 53) →
  foldl summarize_step (float64.of_Z <$> c) units
  = float64.of_Z <$> foldl count_step c units.
Proof.
  revert c. induction units as [|u us IH]; intros c Hlen Hc; [done|].
  cbn [foldl]. cbn [length] in Hlen, Hc. unfold summarize_step at 2, count_step at 2.
  rewrite lookup_fmap.
  assert (Hk : 0 ≤ default 0 (c !! unit_ActiveState u) ∧
               default 0 (c !! unit_ActiveState u) + 1 + Z.of_nat (length us) < 2 ^ 53).
  { destruct (c !! unit_ActiveState u) as [k|] eqn:E; simpl.
    - apply Hc in E. lia.
    - lia. }
  replace (default float64.zero (float64.of_Z <$> c !! unit_ActiveState u))
    with (float64.of_Z (default 0 (c !! unit_ActiveState u)))
    by by destruct (c !! unit_ActiveState u).
  rewrite float64_facts.of_Z_succ by lia.
  rewrite <- fmap_insert. apply IH; [lia|].
  intros s k. destruct (decide (s = unit_ActiveState u)) as [->|Hne].
  - rewrite lookup_insert_eq. intros [= <-]. lia.
  - rewrite lookup_insert_ne by done. intros E%Hc. lia.
Qed.

Lemma count_step_lookup units (c : gmap string Z) s :
  foldl count_step c units !! s =
  match c !! s with
  | Some k => Some (k + state_count s units)
  | None => if decide (s ∈ unit_ActiveState <$> units)
            then Some (state_count s units) else None
  end.
Proof.
  revert c. induction units as [|u us IH]; intros c.
  - unfold state_count. cbn [foldl filter list_filter length fmap list_fmap].
    destruct (c !! s); [f_equal; lia|].
    destruct (decide _) as [Hin|]; [|done]. by apply elem_of_nil in Hin.
  - cbn [foldl]. rewrite IH. unfold count_step at 1, state_count.
    rewrite filter_cons. cbn [fmap list_fmap].
    destruct (decide (unit_ActiveState u = s)) as [<-|Hne].
    + rewrite lookup_insert_eq. cbn [length].
      destruct (c !! unit_ActiveState u) as [k|]; cbn [default from_option id].
      * f_equal. lia.
      * rewrite decide_True by set_solver. f_equal. lia.
    + rewrite lookup_insert_ne by done. destruct (c !! s); [done|].
      destruct (decide (s ∈ unit_ActiveState <$> us)).
      * by rewrite decide_True by set_solver.
      * by rewrite decide_False by set_solver.
Qed.

Lemma count_total_insert (c : gmap string Z) s k :
  count_total (<[s := k]> c) = count_total c - default 0 (c !! s) + k.
Proof.
  unfold count_total.
  destruct (c !! s) as [k'|] eqn:E; simpl.
  - rewrite <- insert_delete_eq.
    rewrite map_fold_insert_L; [|intros; lia|by rewrite lookup_delete_eq].
    rewrite (map_fold_delete_L _ _ s k' c); [lia|intros; lia|done].
  - rewrite map_fold_insert_L; [lia|intros; lia|done].
Qed.

Lemma count_total_foldl units (c : gmap string Z) :
  count_total (foldl count_step c units) = count_total c + Z.of_nat (length units).
Proof.
  revert c. induction units as [|u us IH]; intros c; [simpl; lia|].
  cbn [foldl length]. rewrite IH. unfold count_step. rewrite count_total_insert. lia.
Qed.

Lemma bucket_total_counts (c : gmap string Z) :
  (∀ s k, c !! s = Some k → 0 ≤ k < 2 ^ 53) →
  bucket_total (float64.of_Z <$> c) = Some (count_total c).
Proof.
  unfold bucket_total, count_total.
  induction c as [|s k c Hs Hfold IH] using map_first_key_ind; intros Hc.
  - by rewrite fmap_empty, !map_fold_empty.
  - rewrite fmap_insert.
    rewrite map_fold_insert_L; cycle 1.
    { intros j1 j2 z1 z2 y _ _ _.
      destruct (float64.to_Z z1), (float64.to_Z z2), y; simpl; try done.
      f_equal. lia. }
    { by rewrite lookup_fmap, Hs. }
    rewrite IH; cycle 1.
    { intros s' k' E. apply (Hc s'). rewrite lookup_insert_ne; [done|]. congruence. }
    rewrite float64_facts.to_Z_of_Z by (apply (Hc s); by rewrite lookup_insert_eq).
    simpl. rewrite map_fold_insert_L; [done|intros; lia|done].
Qed.

Lemma state_count_bounds s units :
  0 ≤ state_count s units ≤ Z.of_nat (length units).
Proof.
  unfold state_count. pose proof (length_filter (λ u, unit_ActiveState u = s) units). lia.
Qed.

Lemma zero_buckets_lookup s :
  foldl (λ m unitStateName, <[unitStateName := 0]> m) (∅ : gmap string Z) unitStatesName !! s
  = if decide (s ∈ unitStatesName) then Some 0 else None.
Proof.
  unfold unitStatesName. cbn [foldl].
  destruct (decide _) as [Hin|Hnin].
  - rewrite !elem_of_cons, elem_of_nil in Hin.
    destruct_or!; subst; try done; rewrite !lookup_insert; by repeat case_decide.
  - rewrite !not_elem_of_cons in Hnin. destruct_and!.
    by rewrite !lookup_insert_ne, lookup_empty.
Qed.

Lemma count_units_lookup units s :
  count_units units !! s
  = if decide (s ∈ unitStatesName ∨ s ∈ unit_ActiveState <$> units)
    then Some (state_count s units) else None.
Proof.
  unfold count_units. rewrite count_step_lookup, zero_buckets_lookup.
  destruct (decide (s ∈ unitStatesName)).
  - rewrite decide_True by by left. f_equal.
  - destruct (decide (s ∈ unit_ActiveState <$> units)).
    + by rewrite decide_True by by right.
    + by rewrite decide_False by naive_solver.
Qed.

Lemma summarizeUnits_counts units :
  Z.of_nat (length units) < 2 ^ 53 →
  summarizeUnits units = float64.of_Z <$> count_units units.
Proof.
  intros Hlen. unfold summarizeUnits, count_units.
  rewrite <- summarize_floats_are_counts; [|done|].
  - reflexivity.
  - intros s k. rewrite zero_buckets_lookup. case_decide; [|done]. intros [= <-]. lia.
Qed.

End summarize.

(** C4 — for every snapshot (of fewer than 2^53 units, so that the float64
    counts are exact) the Summarizer returns a map that holds each of the
    five known active-state names with a count of at least zero, holds the
    active state of every unit of the snapshot, holds nothing else, counts
    in each bucket the units of that state, and whose bucket counts add up
    to the number of units of the snapshot. *)
Theorem summarizeUnits_buckets (units : list unit_)
    (Hlen : Z.of_nat (length units) < 2 ^ 53) :
  let m := summarizeUnits units in
  (∀ s, s ∈ unitStatesName →
     ∃ v k, m !! s = Some v ∧ float64.to_Z v = Some k ∧ 0 ≤ k) ∧
  (∀ u, u ∈ units → is_Some (m !! unit_ActiveState u)) ∧
  (∀ s, m !! s = if decide (s ∈ unitStatesName ∨ s ∈ unit_ActiveState <$> units)
                 then Some (float64.of_Z (state_count s units)) else None) ∧
  bucket_total m = Some (Z.of_nat (length units)).
Proof.
  intros m.
  assert (Hm : m = float64.of_Z <$> count_units units) by by apply summarizeUnits_counts.
  assert (Hlookup : ∀ s, m !! s
            = if decide (s ∈ unitStatesName ∨ s ∈ unit_ActiveState <$> units)
              then Some (float64.of_Z (state_count s units)) else None).
  { intros s. rewrite Hm, lookup_fmap, count_units_lookup. by case_decide. }
  split_and!; [| |done|].
  - intros s Hs. exists (float64.of_Z (state_count s units)), (state_count s units).
    pose proof (state_count_bounds s units).
    rewrite Hlookup, decide_True by by left.
    split_and!; [done| |lia]. apply float64_facts.to_Z_of_Z. lia.
  - intros u Hu. rewrite Hlookup, decide_True; [done|].
    right. apply list_elem_of_fmap. eauto.
  - rewrite Hm, bucket_total_counts.
    + f_equal. unfold count_units. rewrite count_total_foldl.
      unfold unitStatesName. cbn [foldl]. rewrite !count_total_insert.
      unfold count_total at 1. rewrite map_fold_empty. by simplify_map_eq.
    + intros s k. rewrite count_units_lookup. case_decide; [|done].
      intros [= <-]. pose proof (state_count_bounds s units). lia.
Qed.

Lemma summarizeUnits_buckets_witness :
  let units := [example.reloading_service; example.active_service; example.socket] in
  bucket_total (summarizeUnits units) = Some 3 ∧
  summarizeUnits units !! "reloading" = Some (float64.of_Z 1) ∧
  summarizeUnits units !! "failed" = Some (float64.of_Z 0).
Proof.
  intros units.
  assert (Hlen : Z.of_nat (length units) < 2 ^ 53) by done.
  destruct (summarizeUnits_buckets units Hlen) as (_ & _ & H3 & H4).
  split_and!; [exact H4|rewrite H3; reflexivity|rewrite H3; reflexivity].
Defined.

(** ** The scrape: invariants, progress, termination *)

Import scrape scrape_spec.

Lemma pending_nonneg w : 0 ≤ pending w.
Proof. induction w as [|[] w IH]; simpl; lia. Qed.

Lemma pending_all_nonneg ws : 0 ≤ pending_all ws.
Proof.
  induction ws as [|w ws IH]; simpl; [lia|]. pose proof (pending_nonneg w). lia.
Qed.

Lemma pending_all_app ws1 ws2 :
  pending_all (ws1 ++ ws2) = pending_all ws1 + pending_all ws2.
Proof. induction ws1 as [|w ws1 IH]; simpl; lia. Qed.

Lemma pending_all_middle ws1 w ws2 :
  pending_all (ws1 ++ w :: ws2) = pending_all ws1 + pending w + pending_all ws2.
Proof. rewrite pending_all_app. simpl. lia. Qed.

Lemma pending_all_zero ws : pending_all ws = 0 → Forall finished ws.
Proof.
  induction ws as [|w ws IH]; simpl; [constructor|]. intros H.
  pose proof (pending_nonneg w). pose proof (pending_all_nonneg ws).
  constructor; [unfold finished; lia | apply IH; lia].
Qed.

Lemma wf_worker_finished_no_sends w : wf_worker w → finished w → worker_sends w = [].
Proof.
  unfold finished. destruct w as [|[] w]; simpl; try done.
  - intros [_ H]. pose proof (pending_nonneg w). lia.
  - pose proof (pending_nonneg w). lia.
  - by intros ->.
Qed.

Lemma sends_middle ws1 (w : list action) ws2 :
  concat (worker_sends <$> (ws1 ++ w :: ws2))
  = concat (worker_sends <$> ws1) ++ worker_sends w ++ concat (worker_sends <$> ws2).
Proof. by rewrite fmap_app, concat_app, fmap_cons. Qed.

Lemma aggregate_snoc src c0 consumed p :
  aggregate src c0 (consumed ++ [p])
  = filterAppend src (aggregate src c0 consumed).2 (aggregate src c0 consumed).1 p.
Proof. unfold aggregate. by rewrite foldl_snoc. Qed.

Lemma perm_send {A} (lg M W1 W W2 : list A) p :
  (lg ++ [p]) ++ M ++ W1 ++ W ++ W2 ≡ₚ lg ++ M ++ W1 ++ (p :: W) ++ W2.
Proof.
  rewrite <- app_assoc. simpl. f_equiv.
  rewrite (app_assoc M W1 (p :: _)), <- Permutation_middle.
  by rewrite <- app_assoc.
Qed.

Lemma perm_go {A} (lg G M W : list A) :
  lg ++ M ++ W ++ G ≡ₚ lg ++ (G ++ M) ++ W.
Proof.
  f_equiv. rewrite <- app_assoc, (Permutation_app_comm G). by rewrite <- app_assoc.
Qed.

Section inv.
Variable src : systemdMetricsSource.
Variable ts : Z.
Variable e0 : option string.
Variable c0 : gm.Counter.
Variable total : list MetricPoint.
Variable panic_free : Prop.

Ltac inv_auto :=
  destruct_and?; subst; simpl in *; first [done | lia | tauto].

Ltac inv_consumer Hcons Hcl :=
  match type of Hcons with
  | match ?c with _ => _ end => destruct c
  end; simpl in *; destruct_and?; subst; simpl in *;
  repeat split; first [done | lia | (destruct Hcl as [Hcl _]; specialize (Hcl eq_refl); lia)].

Ltac inv_aggregate Hagg :=
  destruct Hagg as (consumed & Hlog & Hag);
  first
    [ exists consumed; split; [first [done | by rewrite Hlog, app_assoc] | done]
    | exists (consumed ++ [_]); split;
      [ by rewrite Hlog, <- app_assoc
      | rewrite aggregate_snoc, <- Hag; simpl; by destruct (filterAppend _ _ _ _) ] ].

Ltac inv_total Htot :=
  first
    [ exact Htot
    | rewrite <- app_assoc; exact Htot
    | rewrite app_nil_r, perm_go; exact Htot
    | rewrite perm_send; exact Htot ].

Ltac inv_crash Hcr :=
  let Hpf := fresh in
  intros Hpf; destruct (Hcr Hpf) as [[? ?] ?]; unfold crash_free in *; simpl in *;
  rewrite ?Forall_app, ?Forall_cons, ?Forall_nil in *;
  destruct_and?; repeat split; first [done | set_solver].

Lemma invariant_step s s' :
  invariant src ts e0 c0 total panic_free s → step src ts s s' →
  invariant src ts e0 c0 total panic_free s'.
Proof.
  intros [Hmain Hws Hwg Hcl Hwait Hcons Hagg Htot Herr Hret Hcap Hcr] Hstep.
  inversion Hstep; subst; simpl in *.
  all: rewrite ?Forall_app, ?Forall_cons, ?pending_all_middle, ?sends_middle,
         ?pending_all_app, ?fmap_app, ?concat_app, ?length_app in *.
  all: simpl in *.
  all: try (pose proof (pending_all_nonneg ws1); pose proof (pending_all_nonneg ws2);
            pose proof (pending_nonneg w)).
  all: try (exfalso; destruct_and?; first [lia | (destruct Hcl as [Hcl _]; specialize (Hcl eq_refl); simpl in Hcl; first [lia | (specialize (Hwait ltac:(lia)); lia)])]).
  all: constructor; simpl.
  all: rewrite ?Forall_app, ?Forall_cons, ?pending_all_middle, ?sends_middle,
         ?pending_all_app, ?fmap_app, ?concat_app, ?length_app.
  all: simpl.
  all: try (by inv_auto).
  all: try (by inv_consumer Hcons Hcl).
  all: try (by inv_aggregate Hagg).
  all: try (by inv_total Htot).
  all: try (by inv_crash Hcr).
  all: try (by (destruct_and?; subst; simpl in *; repeat case_decide; first [done | lia])).
  all: try (by (destruct r; simpl in *; destruct_and?; subst; simpl in *; first [done | lia])).
  all: try (by (destruct_and?; subst; simpl in *; destruct Hcl as [Hcl1 Hcl2];
                split; intros; first [lia | (apply Hcl2; lia) | (apply Hcl1 in H; lia)
                                     | (specialize (Hcl1 eq_refl); lia)])).
  all: try (by (destruct_and?; destruct_or?; subst; simpl; repeat split; auto)).
  - destruct_and?. destruct cl; split; intros Hx; try done; lia.
  - destruct Hagg as (consumed & Hlog & Hag). exists (consumed ++ [p]).
    split; [by rewrite Hlog, <- app_assoc|].
    rewrite aggregate_snoc, <- Hag. simpl. by destruct (filterAppend _ _ _ _).
  - split; [|done]. destruct Hcl as [Hcl1 _]. specialize (Hcl1 eq_refl). lia.
Qed.
End inv.

Lemma worker_sends_Send l tail : worker_sends ((Send <$> l) ++ tail) = l ++ worker_sends tail.
Proof. induction l as [|p l IH]; simpl; [done|]. by f_equal. Qed.

Lemma pending_Send l tail : pending ((Send <$> l) ++ tail) = pending tail.
Proof. induction l as [|p l IH]; simpl; done. Qed.

Lemma wf_worker_Send l tail :
  wf_worker tail → pending tail = 1 → wf_worker ((Send <$> l) ++ tail).
Proof.
  intros Hw Hp. induction l as [|p l IH]; simpl; [done|].
  split; [done|]. by rewrite pending_Send.
Qed.

Lemma worker_sends_goroutine {A} (body : Go A) : worker_sends (goroutine body) = sent body.
Proof.
  unfold goroutine. rewrite worker_sends_Send.
  destruct (ending body); simpl; by rewrite app_nil_r.
Qed.

Lemma pending_goroutine {A} (body : Go A) : pending (goroutine body) = 1.
Proof. unfold goroutine. rewrite pending_Send. by destruct (ending body). Qed.

Lemma wf_worker_goroutine {A} (body : Go A) : wf_worker (goroutine body).
Proof.
  unfold goroutine. apply wf_worker_Send; destruct (ending body); simpl; auto.
Qed.

Lemma crash_free_goroutine {A} (body : Go A) : returns body → Crash ∉ goroutine body.
Proof.
  unfold returns, goroutine. destruct (ending body); [|done]. intros _.
  rewrite elem_of_app, list_elem_of_fmap. intros [(p & ? & _)|Hin]; [done|].
  by apply list_elem_of_singleton in Hin.
Qed.

Lemma wf_main_prologue e0 pre rest :
  Forall prologue_action pre → wf_main e0 rest → stage rest ≤ 1 →
  wf_main e0 (pre ++ rest) ∧ stage (pre ++ rest) ≤ 1.
Proof.
  intros Hpre Hrest Hstage. induction Hpre as [|a pre Ha Hpre [IH1 IH2]]; [done|].
  destruct a; simpl in *; try done; destruct_and?; repeat split; first [done | lia].
Qed.

Lemma main_sends_app m1 m2 : main_sends (m1 ++ m2) = main_sends m1 ++ main_sends m2.
Proof.
  induction m1 as [|a m1 IH]; [done|]. destruct a; simpl; rewrite ?IH; try done.
  by rewrite app_assoc.
Qed.

Lemma main_sends_MSend l : main_sends (MSend <$> l) = l.
Proof. induction l as [|p l IH]; simpl; [done|]. by f_equal. Qed.

Section init.
Variable src : systemdMetricsSource.
Variable conn : dbus.Conn.
Variable now ts : Z.
Variable c0 : gm.Counter.
Variable entries : list (string * float64.t).
Variable allUnits : list unit_.

Lemma spawns_prologue units : Forall prologue_action (spawns src conn now units).
Proof.
  unfold spawns. rewrite !Forall_app. split_and!.
  all: repeat case_match; repeat constructor;
    auto using @wf_worker_goroutine, @pending_goroutine.
Qed.

Lemma main_program_wf :
  wf_main (system_state_err (collectSystemState src conn now))
    (main_program src conn now entries allUnits) ∧
  stage (main_program src conn now entries allUnits) ≤ 1.
Proof.
  unfold main_program. rewrite !app_assoc. apply wf_main_prologue.
  - rewrite !Forall_app. split_and!; [| apply spawns_prologue |].
    all: apply Forall_fmap, Forall_true; done.
  - done.
  - simpl. lia.
Qed.

Lemma invariant_init :
  invariant src ts (system_state_err (collectSystemState src conn now)) c0
    (main_sends (main_program src conn now entries allUnits))
    (collectors_return src conn now allUnits)
    (init src conn now c0 entries allUnits).
Proof.
  destruct main_program_wf as [Hwf Hst].
  constructor; simpl; try done.
  all: try lia.
  all: try (by exists []).
  all: try (by rewrite app_nil_r).
  all: try (by rewrite decide_True).
  all: try (unfold capacity; lia).
  all: try (split; [intros [=]|lia]).
  intros (H1 & H2 & H3 & H4 & H5). split; [|done]. split; simpl; [constructor|].
    unfold main_program, spawns. rewrite !Forall_app. split_and!.
    all: try (apply Forall_fmap, Forall_true; done).
    all: repeat case_match; repeat constructor; auto using @crash_free_goroutine.
Qed.

Lemma invariant_reachable s :
  rtc (step src ts) (init src conn now c0 entries allUnits) s →
  invariant src ts (system_state_err (collectSystemState src conn now)) c0
    (main_sends (main_program src conn now entries allUnits))
    (collectors_return src conn now allUnits) s.
Proof.
  intros H.
  eapply (rtc_ind_r (λ s,
    invariant src ts (system_state_err (collectSystemState src conn now)) c0
      (main_sends (main_program src conn now entries allUnits))
      (collectors_return src conn now allUnits) s));
    [apply invariant_init| |exact H].
  intros y z _ Hyz IH. by eapply invariant_step.
Qed.
End init.

Lemma aggregate_fst src c0 l : (aggregate src c0 l).1 = filter (passes src) l.
Proof.
  induction l as [|p l IH] using rev_ind; [done|].
  rewrite aggregate_snoc, filter_app, filter_cons, filter_nil.
  destruct (decide (passes src p)) as [Hp|Hp].
  - rewrite filterAppend_passes by done. simpl. by rewrite IH.
  - rewrite filterAppend_drops by done. simpl. by rewrite IH, app_nil_r.
Qed.

Lemma weight_step src ts s s' : step src ts s s' → (weight s' < weight s)%nat.
Proof.
  assert (Hmid : ∀ ws1 (w : list action) ws2,
    foldr (λ w n, worker_weight w + n)%nat 0%nat (ws1 ++ w :: ws2)
    = (foldr (λ w n, worker_weight w + n)%nat 0%nat ws1 + worker_weight w
       + foldr (λ w n, worker_weight w + n)%nat 0%nat ws2)%nat).
  { intros ws1 w ws2. induction ws1 as [|w1 ws1 IH]; simpl; [lia|]. rewrite IH. lia. }
  destruct 1; unfold weight; simpl; rewrite ?Hmid, ?length_app; simpl; lia.
Qed.

Lemma step_sn src ts s : sn (step src ts) s.
Proof.
  remember (weight s) as n eqn:Hn. revert s Hn.
  induction (lt_wf n) as [n _ IH]. intros s ->.
  constructor. intros s' Hs'. simpl in Hs'.
  eapply IH; [|done]. by eapply weight_step.
Qed.

Lemma pending_all_pos ws :
  pending_all ws ≠ 0 → ∃ ws1 w ws2, ws = ws1 ++ w :: ws2 ∧ pending w ≠ 0.
Proof.
  induction ws as [|w ws IH]; simpl; [done|]. intros H.
  destruct (decide (pending w = 0)) as [Hw|Hw].
  - destruct IH as (ws1 & w' & ws2 & -> & ?); [lia|].
    by exists (w :: ws1), w', ws2.
  - by exists [], w, ws.
Qed.

Lemma wf_worker_pending w :
  wf_worker w → pending w ≠ 0 →
  (∃ p w', w = Send p :: w') ∨ (∃ w', w = WgDone :: w').
Proof.
  destruct w as [|[] w]; simpl; [done|eauto|eauto|]. by intros ->.
Qed.

Section progress.
Variable src : systemdMetricsSource.
Variable ts : Z.
Variable e0 : option string.
Variable c0 : gm.Counter.
Variable total : list MetricPoint.
Variable panic_free : Prop.

Lemma consumer_can_receive m ws n p buf cl pts c e r lg :
  ∃ s', step src ts (St m ws n (p :: buf) cl CReceiving pts c e r false lg) s'.
Proof. eexists. apply step_recv. Qed.

Lemma scrape_progress s :
  invariant src ts e0 c0 total panic_free s →
  crashed s = false → returned s = None → ∃ s', step src ts s s'.
Proof.
  intros [Hmain Hws Hwg Hcl Hwait Hcons Hagg Htot Herr Hret Hcap Hcr] Hc Hr.
  destruct s as [m ws n buf cl cons pts c e r cr lg]. simpl in *. subst cr r.
  assert (Hopen : stage m ≤ 3 → cl = false).
  { intros Hst. destruct cl; [|done]. destruct Hcl as [Hcl _]. specialize (Hcl eq_refl). lia. }
  destruct m as [|a m].
  { simpl in *. lia. }
  destruct a; simpl in *.
  - (* MSend *)
    rewrite Hopen by lia.
    destruct (decide (length buf < capacity)%nat).
    + eexists. by apply step_main_send.
    + destruct buf as [|q buf']; [unfold capacity in *; simpl in *; lia|].
      destruct cons; [|simpl in *; lia..]. apply consumer_can_receive.
  - eexists. apply step_go.
  - eexists. apply step_set_err.
  - (* MWait *)
    destruct (decide (n = 0)) as [->|Hn]; [eexists; apply step_wait|].
    rewrite Hwg in Hn. apply pending_all_pos in Hn as (ws1 & w & ws2 & -> & Hw).
    rewrite Forall_app, Forall_cons in Hws. destruct Hws as (_ & Hww & _).
    rewrite pending_all_middle in Hwg.
    pose proof (pending_all_nonneg ws1). pose proof (pending_all_nonneg ws2).
    destruct (wf_worker_pending w Hww Hw) as [(p & w' & ->)|(w' & ->)].
    + rewrite Hopen by lia.
      destruct (decide (length buf < capacity)%nat).
      * eexists. by apply step_worker_send.
      * destruct buf as [|q buf']; [unfold capacity in *; simpl in *; lia|].
        destruct cons; [|simpl in *; lia..]. apply consumer_can_receive.
    + simpl in Hwg. pose proof (pending_nonneg w').
      eexists. apply step_worker_done. lia.
  - (* MClose *)
    rewrite Hopen by lia. eexists. apply step_close.
  - (* MRecvDone *)
    destruct cons; simpl in *.
    + destruct buf as [|q buf']; [|apply consumer_can_receive].
      destruct Hcl as [_ Hcl]. rewrite Hcl by lia. eexists. apply step_recv_closed.
    + eexists. apply step_done.
    + lia.
  - eexists. apply step_return.
Qed.

Lemma scrape_returns s :
  panic_free → invariant src ts e0 c0 total panic_free s →
  ∃ s' r, rtc (step src ts) s s' ∧ returned s' = Some r.
Proof.
  intros Hpf. remember (weight s) as n eqn:Hn. revert s Hn.
  induction (lt_wf n) as [n _ IH]. intros s -> Hinv.
  destruct (returned s) as [r|] eqn:Hr.
  { exists s, r. split; [apply rtc_refl|done]. }
  destruct (scrape_progress s Hinv) as [s1 Hs1];
    [by apply (inv_crashed _ _ _ _ _ _ _ Hinv)|done|].
  destruct (IH (weight s1) (weight_step _ _ _ _ Hs1) s1 eq_refl) as (s' & r & Hrtc & Hret).
  { by eapply invariant_step. }
  exists s', r. split; [by eapply rtc_l|done].
Qed.

Lemma returned_facts s b e :
  invariant src ts e0 c0 total panic_free s → returned s = Some (b, e) →
  main s = [] ∧ closed s = true ∧ consumer s = CExited ∧ gather s = [] ∧
  wg s = 0 ∧ Forall finished (workers s) ∧
  b = {| batch_Timestamp := ts; MetricPoints := filter (passes src) (log s) |} ∧
  filteredPoints s = (aggregate src c0 (log s)).2 ∧
  log s ≡ₚ total ∧ e = e0.
Proof.
  intros [Hmain Hws Hwg Hcl Hwait Hcons Hagg Htot Herr Hret Hcap Hcr] Hr.
  rewrite Hr in Hret. destruct Hret as [Hst [= -> ->]].
  assert (Hm : main s = []).
  { destruct (main s) as [|[] ?]; simpl in Hst; [done|lia..]. }
  rewrite Hm in *. simpl in *.
  assert (Hcons2 : consumer s = CExited ∧ gather s = []).
  { destruct (consumer s); [lia|lia|]. by destruct Hcons. }
  destruct Hcons2 as [-> Hg]. rewrite Hg in *.
  destruct Hagg as (consumed & Hlog & Hag). rewrite app_nil_r in Hlog. subst consumed.
  assert (Hfin : Forall finished (workers s)).
  { apply pending_all_zero. rewrite <- Hwg. apply Hwait. lia. }
  split_and!; try done.
  - apply Hcl. lia.
  - apply Hwait. lia.
  - f_equal. by rewrite <- (aggregate_fst src c0), <- Hag.
  - by rewrite <- Hag.
  - rewrite <- Htot. rewrite (proj2 (concat_nil_Forall _)), !app_nil_r; [done|].
    apply Forall_fmap. apply Forall_forall. intros w Hw. simpl.
    rewrite Forall_forall in Hws, Hfin.
    apply wf_worker_finished_no_sends; auto.
Qed.
End progress.

(** ** What [ScrapeMetrics] returns *)

Lemma summary_sent src now entries :
  sent (collectSummaryMetrics src now entries)
  = (λ '(stateName, count),
       metricPoint src "units" count now (Some (setTag ∅ "state_name" stateName)))
    <$> entries.
Proof.
  unfold collectSummaryMetrics. induction entries as [|[s c] l IH]; [done|].
  cbn [for_range]. rewrite sent_bind. simpl. by rewrite IH.
Qed.

Lemma main_sends_spawns src conn now units :
  main_sends (spawns src conn now units)
  = sent (collectUnitStatusMetrics src conn now units) ++
    (if collectStartTimeMetrics src
     then sent (collectUnitStartTimeMetrics src conn now units) else []) ++
    (if collectTaskMetrics src
     then sent (collectUnitTasksMetrics src conn now units) else []) ++
    sent (collectTimers src conn now units) ++
    sent (collectSockets src conn now units).
Proof.
  unfold spawns. rewrite !main_sends_app.
  destruct (collectStartTimeMetrics src), (collectTaskMetrics src); simpl;
    rewrite ?worker_sends_goroutine, ?app_nil_r; done.
Qed.

Lemma main_program_sends src conn now entries allUnits :
  entries ≡ₚ map_to_list (summarizeUnits allUnits) →
  main_sends (main_program src conn now entries allUnits) ≡ₚ collected src conn now allUnits.
Proof.
  intros Hperm. unfold main_program, collected.
  rewrite !main_sends_app, !main_sends_MSend, main_sends_spawns.
  simpl. rewrite app_nil_r, !summary_sent, Hperm, <- !app_assoc. done.
Qed.

Lemma system_state_err_None src conn now :
  system_state_err (collectSystemState src conn now) = None
  ↔ is_Ok (dbus.GetManagerProperty conn "SystemState").
Proof.
  unfold system_state_err, collectSystemState.
  by destruct (dbus.GetManagerProperty conn "SystemState").
Qed.

Lemma system_state_failure src conn now err :
  dbus.GetManagerProperty conn "SystemState" = Err err →
  sent (collectSystemState src conn now) = [] ∧
  system_state_err (collectSystemState src conn now)
  = Some ("couldn't get system state: " +:+ err).
Proof. unfold system_state_err, collectSystemState. by intros ->. Qed.

Lemma system_state_success src conn now systemState :
  dbus.GetManagerProperty conn "SystemState" = Ok systemState →
  sent (collectSystemState src conn now)
  = [metricPoint src "system_running"
       (if String.eqb systemState quoted_running then float64.one else float64.zero)
       now None].
Proof. unfold collectSystemState. by intros ->. Qed.

Lemma scrape_collect_result src conn now ts c0 entries allUnits s b e :
  entries ≡ₚ map_to_list (summarizeUnits allUnits) →
  rtc (step src ts) (init src conn now c0 entries allUnits) s →
  returned s = Some (b, e) →
  batch_Timestamp b = ts ∧
  MetricPoints b = filter (passes src) (log s) ∧
  log s ≡ₚ collected src conn now allUnits ∧
  e = system_state_err (collectSystemState src conn now).
Proof.
  intros Hperm Hrtc Hret.
  apply invariant_reachable in Hrtc.
  destruct (returned_facts _ _ _ _ _ _ _ _ _ Hrtc Hret)
    as (_ & _ & _ & _ & _ & _ & -> & _ & Hlog & ->).
  split_and!; try done. by rewrite Hlog, main_program_sends.
Qed.

Lemma ScrapeMetrics_collect_result src conn now ts c0 allUnits b e :
  getAllUnits conn = Ok allUnits →
  ScrapeMetrics src (Ok conn) now ts c0 b e →
  ∃ batch, b = Some batch ∧ batch_Timestamp batch = ts ∧
    MetricPoints batch ≡ₚ filter (passes src) (collected src conn now allUnits) ∧
    e = system_state_err (collectSystemState src conn now).
Proof.
  intros Hunits Hs. inversion Hs as [err Hn|conn' err Hn Hu|conn' all' entries s batch err Hn Hu Hperm Hrtc Hret];
    subst; try done.
  - injection Hn as <-. congruence.
  - injection Hn as <-. rewrite Hunits in Hu. injection Hu as <-.
    destruct (scrape_collect_result _ _ _ _ _ _ _ _ _ _ Hperm Hrtc Hret) as (H1 & H2 & H3 & H4).
    exists batch. split_and!; try done. by rewrite H2, H3.
Qed.

Lemma ScrapeMetrics_collect_exists src conn now ts c0 allUnits :
  getAllUnits conn = Ok allUnits →
  collectors_return src conn now allUnits →
  ∃ batch e, ScrapeMetrics src (Ok conn) now ts c0 (Some batch) e.
Proof.
  intros Hunits Hret.
  destruct (scrape_returns src ts _ c0 _ _ (init src conn now c0
              (map_to_list (summarizeUnits allUnits)) allUnits) Hret
              (invariant_init src conn now ts c0 _ allUnits)) as (s & [b e] & Hrtc & Hr).
  exists b, e. by eapply Scrape_collect.
Qed.

Lemma collected_well_named src conn now allUnits :
  Forall (well_named src) (collected src conn now allUnits).
Proof.
  unfold collected.
  destruct (collectors_well_named src conn now (filterUnits src allUnits)
              (map_to_list (summarizeUnits allUnits))) as (H1 & H2 & H3 & H4 & H5 & H6 & H7).
  rewrite !Forall_app. split_and!; try done; by case_match.
Qed.

Lemma collected_unit_by_unit src conn now allUnits :
  collectors_return src conn now allUnits →
  collected src conn now allUnits = collected_per_unit src conn now allUnits.
Proof.
  intros (H1 & H2 & H3 & H4 & H5). unfold collected, collected_per_unit, per_unit.
  unfold collectUnitStatusMetrics, collectUnitStartTimeMetrics, collectUnitTasksMetrics,
    collectTimers, collectSockets in *.
  apply returns_for_range, sent_for_range_returns in H1 as [_ ->].
  apply returns_for_range, sent_for_range_returns in H4 as [_ ->].
  apply returns_for_range, sent_for_range_returns in H5 as [_ ->].
  do 2 f_equal. f_equal; [|f_equal].
  - destruct (collectStartTimeMetrics src); [|done].
    by apply returns_for_range, sent_for_range_returns in H2 as [_ ->].
  - destruct (collectTaskMetrics src); [|done].
    by apply returns_for_range, sent_for_range_returns in H3 as [_ ->].
Qed.

Lemma ScrapeMetrics_fatal src dbus_New now ts c0 b e :
  (is_Err dbus_New ∨ ∃ conn, dbus_New = Ok conn ∧ is_Err (getAllUnits conn)) →
  ScrapeMetrics src dbus_New now ts c0 b e → b = None ∧ is_Some e.
Proof.
  intros Hfatal Hs. destruct Hs as [err Hn|conn err Hn Hu|conn all entries s batch err Hn Hu _ _ _];
    [done|done|].
  exfalso. destruct Hfatal as [Hf|(conn' & Hc & Hf)].
  - by rewrite Hn in Hf.
  - rewrite Hn in Hc. injection Hc as <-. by rewrite Hu in Hf.
Qed.

(** C1, amended — when the connection cannot be opened or the unit
    snapshot cannot be fetched, [ScrapeMetrics] returns no batch and an
    error.  Otherwise it returns a batch (it does return one when no
    collector panics): the points of the summary and of the enabled
    collectors that pass the metric filter, each collector contributing
    unit by unit, so that a failed lookup costs only the points of its
    unit; the error returned is nil exactly when the system-state lookup
    succeeds, and when that lookup fails the batch, which then lacks only
    the system-running point, comes with the lookup's error. *)
Theorem ScrapeMetrics_fatal_and_partial src now ts c0 :
  (∀ err,
     ScrapeMetrics src (Err err) now ts c0 None
       (Some ("couldn't get dbus connection: " +:+ err)) ∧
     ∀ b e, ScrapeMetrics src (Err err) now ts c0 b e → b = None ∧ is_Some e) ∧
  (∀ conn err, getAllUnits conn = Err err →
     ScrapeMetrics src (Ok conn) now ts c0 None (Some ("couldn't get units: " +:+ err)) ∧
     ∀ b e, ScrapeMetrics src (Ok conn) now ts c0 b e → b = None ∧ is_Some e) ∧
  (∀ conn allUnits, getAllUnits conn = Ok allUnits →
     (collectors_return src conn now allUnits →
        (∃ batch e, ScrapeMetrics src (Ok conn) now ts c0 (Some batch) e) ∧
        collected src conn now allUnits = collected_per_unit src conn now allUnits) ∧
     (∀ b e, ScrapeMetrics src (Ok conn) now ts c0 b e →
        ∃ batch, b = Some batch ∧ batch_Timestamp batch = ts ∧
          MetricPoints batch ≡ₚ filter (passes src) (collected src conn now allUnits) ∧
          (e = None ↔ is_Ok (dbus.GetManagerProperty conn "SystemState")) ∧
          (∀ err, dbus.GetManagerProperty conn "SystemState" = Err err →
             e = Some ("couldn't get system state: " +:+ err))) ∧
     (is_Err (dbus.GetManagerProperty conn "SystemState") →
        sent (collectSystemState src conn now) = [])).
Proof.
  split_and!.
  - intros err. split; [by constructor|]. intros b e. apply ScrapeMetrics_fatal. by left.
  - intros conn err Hu. split; [by econstructor|]. intros b e. apply ScrapeMetrics_fatal.
    right. exists conn. by rewrite Hu.
  - intros conn allUnits Hu. split_and!.
    + intros Hret. split; [by apply (ScrapeMetrics_collect_exists _ _ _ _ _ allUnits)|].
      by apply collected_unit_by_unit.
    + intros b e Hs.
      destruct (ScrapeMetrics_collect_result _ _ _ _ _ _ _ _ Hu Hs) as (batch & -> & Hts & Hp & ->).
      exists batch. split_and!; try done.
      * apply system_state_err_None.
      * intros err Herr. by apply system_state_failure.
    + intros Herr. destruct (dbus.GetManagerProperty conn "SystemState") as [|err] eqn:E; [done|].
      by apply (system_state_failure src conn now err).
Qed.

Lemma example_collectors_return conn :
  dbus.GetUnitProperty conn = dbus.GetUnitProperty example.conn →
  dbus.GetUnitTypeProperty conn = dbus.GetUnitTypeProperty example.conn →
  collectors_return example.src conn 1700000000
    [example.reloading_service; example.active_service; example.socket].
Proof.
  destruct conn as [lu gp gtp gm]. simpl. intros -> ->.
  unfold collectors_return. split_and!; try intros _; exact I.
Qed.

Lemma ScrapeMetrics_fatal_and_partial_witness :
  (∃ batch e, ScrapeMetrics example.src (Ok example.conn) 1700000000 1700000001 0
                (Some batch) e) ∧
  ∀ b e, ScrapeMetrics example.src (Ok example.conn) 1700000000 1700000001 0 b e →
    is_Some b ∧ e = None.
Proof.
  destruct (ScrapeMetrics_fatal_and_partial example.src 1700000000 1700000001 0)
    as (_ & _ & H).
  destruct (H example.conn
              [example.reloading_service; example.active_service; example.socket] eq_refl)
    as (H1 & H2 & _).
  split.
  - apply H1. by apply example_collectors_return.
  - intros b e Hs. destruct (H2 b e Hs) as (batch & -> & _ & _ & He & _).
    split; [done|]. by apply He.
Defined.

(** C1 as stated fails: with a failing system-state lookup [ScrapeMetrics]
    does return a batch, and every return carries a non-nil error. *)
Lemma scrape_system_state_failure_returns_error :
  let conn := example.conn_no_SystemState in
  is_Err (dbus.GetManagerProperty conn "SystemState") ∧
  is_Ok (getAllUnits conn) ∧
  (∃ batch e, ScrapeMetrics example.src (Ok conn) 1700000000 1700000001 0 (Some batch) e) ∧
  ∀ b e, ScrapeMetrics example.src (Ok conn) 1700000000 1700000001 0 b e →
    is_Some b ∧ e = Some "couldn't get system state: connection timed out".
Proof.
  intros conn. split_and!; [exact I|exact I| |].
  - apply (ScrapeMetrics_collect_exists _ _ _ _ _
             [example.reloading_service; example.active_service; example.socket]);
      [done|]. by apply example_collectors_return.
  - intros b e Hs.
    destruct (ScrapeMetrics_collect_result example.src conn 1700000000 1700000001 0
                [example.reloading_service; example.active_service; example.socket]
                b e eq_refl Hs) as (batch & -> & _ & _ & ->).
    done.
Qed.

(** ** Synchronisation *)

Lemma wf_main_after_close e0 m : wf_main e0 m → 4 ≤ stage m → main_sends m = [].
Proof. destruct m as [|[] m]; simpl; intros; subst; simpl; first [done | lia]. Qed.

Lemma closed_facts src ts e0 c0 total panic_free s :
  invariant src ts e0 c0 total panic_free s → closed s = true →
  4 ≤ stage (main s) ∧ main_sends (main s) = [] ∧ wg s = 0 ∧
  Forall finished (workers s) ∧ Forall (λ w, worker_sends w = []) (workers s).
Proof.
  intros Hinv Hcl.
  assert (Hst : 4 ≤ stage (main s)) by by apply (inv_closed _ _ _ _ _ _ _ Hinv).
  assert (Hwg : wg s = 0) by (apply (inv_waited _ _ _ _ _ _ _ Hinv); lia).
  assert (Hfin : Forall finished (workers s)).
  { apply pending_all_zero. by rewrite <- (inv_wg _ _ _ _ _ _ _ Hinv). }
  split_and!; try done.
  - eapply wf_main_after_close; [apply (inv_main _ _ _ _ _ _ _ Hinv)|done].
  - pose proof (inv_workers _ _ _ _ _ _ _ Hinv) as Hws.
    rewrite Forall_forall in Hws, Hfin. apply Forall_forall. intros w Hw.
    apply wf_worker_finished_no_sends; auto.
Qed.

Lemma consumer_left_facts src ts e0 c0 total panic_free s :
  invariant src ts e0 c0 total panic_free s → consumer s ≠ CReceiving →
  closed s = true ∧ gather s = [].
Proof.
  intros Hinv Hc. pose proof (inv_consumer _ _ _ _ _ _ _ Hinv) as H.
  destruct (consumer s); [done| |]; destruct H as [Hst ->];
    (split; [apply (inv_closed _ _ _ _ _ _ _ Hinv); lia | done]).
Qed.

(** C9 — in every state an execution of the scrape can reach: if the
    channel is closed, [ScrapeMetrics] has started all its goroutines and
    sent all its own points, the wait group is at zero and every collector
    goroutine has sent all its points and called [wg.Done()], and the step
    that closes the channel is taken in such a state; the consumer leaves
    its receive loop only by a step taken with the channel closed and
    empty; and once the batch is returned the consumer has exited, the
    channel is empty and the batch holds exactly the points, of all those
    sent, that pass the filter. *)
Theorem scrape_closes_after_producers_returns_after_drain src conn now ts c0 entries allUnits
    (s : state)
    (Hreach : rtc (step src ts) (init src conn now c0 entries allUnits) s) :
  (closed s = true →
     4 ≤ stage (main s) ∧ main_sends (main s) = [] ∧ wg s = 0 ∧
     Forall finished (workers s) ∧ Forall (λ w, worker_sends w = []) (workers s)) ∧
  (∀ s', step src ts s s' → closed s = false → closed s' = true →
     main_sends (main s) = [] ∧ wg s = 0 ∧
     Forall finished (workers s) ∧ Forall (λ w, worker_sends w = []) (workers s)) ∧
  (consumer s ≠ CReceiving → closed s = true ∧ gather s = []) ∧
  (∀ s', step src ts s s' → consumer s = CReceiving → consumer s' ≠ CReceiving →
     closed s = true ∧ gather s = []) ∧
  (∀ b e, returned s = Some (b, e) →
     consumer s = CExited ∧ gather s = [] ∧ closed s = true ∧
     Forall finished (workers s) ∧
     MetricPoints b = filter (passes src) (log s) ∧
     log s ≡ₚ main_sends (main_program src conn now entries allUnits)).
Proof.
  pose proof (invariant_reachable _ _ _ _ _ _ _ _ Hreach) as Hinv.
  split_and!.
  - by eapply closed_facts.
  - intros s' Hstep Hop Hcl.
    assert (Hinv' : invariant src ts (system_state_err (collectSystemState src conn now)) c0
              (main_sends (main_program src conn now entries allUnits))
              (collectors_return src conn now allUnits) s') by by eapply invariant_step.
    destruct (closed_facts _ _ _ _ _ _ _ Hinv' Hcl) as (_ & H2 & H3 & H4 & H5).
    destruct Hstep; simpl in *; try done; congruence.
  - by eapply consumer_left_facts.
  - intros s' Hstep Hc Hc'. destruct Hstep; simpl in *; try done.
  - intros b e Hret.
    destruct (returned_facts _ _ _ _ _ _ _ _ _ Hinv Hret)
      as (_ & H2 & H3 & H4 & _ & H6 & -> & _ & H9 & _).
    done.
Qed.

Lemma scrape_closes_after_producers_returns_after_drain_witness :
  ∃ s b e,
    rtc (step example.src 1700000001)
      (init example.src example.conn 1700000000 0
         (map_to_list (summarizeUnits
            [example.reloading_service; example.active_service; example.socket]))
         [example.reloading_service; example.active_service; example.socket]) s ∧
    returned s = Some (b, e) ∧
    consumer s = CExited ∧ gather s = [] ∧ closed s = true ∧
    MetricPoints b = filter (passes example.src) (log s).
Proof.
  destruct (scrape_returns example.src 1700000001 _ 0 _ _ _
              (example_collectors_return example.conn eq_refl eq_refl)
              (invariant_init example.src example.conn 1700000000 1700000001 0
                 (map_to_list (summarizeUnits
                    [example.reloading_service; example.active_service; example.socket]))
                 [example.reloading_service; example.active_service; example.socket]))
    as (s & [b e] & Hrtc & Hret).
  exists s, b, e.
  destruct (scrape_closes_after_producers_returns_after_drain _ _ _ _ _ _ _ s Hrtc)
    as (_ & _ & _ & _ & H).
  destruct (H b e Hret) as (H1 & H2 & H3 & _ & H5 & _).
  done.
Defined.

(** ** Every emitted point is named by prefix and dotted token *)

(** C8 — the metric name of a point built by [metricPoint] is the
    configured prefix followed by the category token with every underscore
    replaced by a dot; every point a collector sends, and every point of a
    batch [ScrapeMetrics] returns, is named so from one of the source's
    category tokens; with the default prefix the token [unit_state] gives
    [kubernetes.systemd.unit.state]. *)
Theorem metric_names_prefix_and_dotted_token src :
  (∀ name value ts tags,
     Metric (metricPoint src name value ts tags)
       = prefix src +:+ strings.Replace name "_" "." (-1) ∧
     strings.Replace name "_" "." (-1) = underscores_to_dots name) ∧
  (∀ conn now units entries,
     Forall (well_named src) (sent (collectSummaryMetrics src now entries)) ∧
     Forall (well_named src) (sent (collectUnitStatusMetrics src conn now units)) ∧
     Forall (well_named src) (sent (collectUnitStartTimeMetrics src conn now units)) ∧
     Forall (well_named src) (sent (collectUnitTasksMetrics src conn now units)) ∧
     Forall (well_named src) (sent (collectTimers src conn now units)) ∧
     Forall (well_named src) (sent (collectSockets src conn now units)) ∧
     Forall (well_named src) (sent (collectSystemState src conn now))) ∧
  (∀ dbus_New now ts c0 batch e,
     ScrapeMetrics src dbus_New now ts c0 (Some batch) e →
     Forall (well_named src) (MetricPoints batch)) ∧
  (prefix src = "kubernetes.systemd." →
   ∀ value ts tags,
     Metric (metricPoint src "unit_state" value ts tags) = "kubernetes.systemd.unit.state").
Proof.
  split_and!.
  - intros. split; [done|apply Replace_underscores].
  - intros. apply collectors_well_named.
  - intros dbus_New now ts c0 batch e Hs.
    inversion Hs as [| |conn allUnits entries s batch' err Hn Hu Hperm Hrtc Hret]; subst.
    destruct (scrape_collect_result _ _ _ _ _ _ _ _ _ _ Hperm Hrtc Hret) as (_ & -> & Hlog & _).
    apply Forall_forall. intros p [_ Hp]%list_elem_of_filter.
    rewrite Hlog in Hp.
    pose proof (collected_well_named src conn now allUnits) as Hall.
    rewrite Forall_forall in Hall. by apply Hall.
  - intros Hp value ts tags. rewrite metricPoint_Metric, Hp. reflexivity.
Qed.

(** Without a panicking collector every execution of the scrape, however
    the goroutines are scheduled, can be continued to the return of
    [ScrapeMetrics], and no execution runs forever. *)
Lemma scrape_always_completes src conn now ts c0 entries allUnits s :
  collectors_return src conn now allUnits →
  rtc (step src ts) (init src conn now c0 entries allUnits) s →
  sn (step src ts) s ∧
  ∃ s' r, rtc (step src ts) s s' ∧ returned s' = Some r.
Proof.
  intros Hret Hreach. split; [apply step_sn|].
  eapply scrape_returns; [exact Hret|]. by apply invariant_reachable.
Qed.

(** * Further properties *)

(** ** Loops over units that skip most of them *)

Lemma for_range_filter {A} (P : A → Prop) `{∀ x, Decision (P x)} (l : list A)
    (body : A → Go ()) :
  (∀ x, ¬ P x → body x = mret ()) →
  for_range l body = for_range (filter P l) body.
Proof.
  intros Hskip. induction l as [|x l IH]; [done|].
  rewrite filter_cons. destruct (decide (P x)) as [Hx|Hx]; cbn [for_range].
  - by rewrite IH.
  - rewrite (Hskip x Hx), IH. by destruct (for_range (filter P l) body) as [out []].
Qed.

Lemma for_range_skip_all {A} (l : list A) (body : A → Go ()) :
  (∀ x, x ∈ l → body x = mret ()) → for_range l body = mret ().
Proof.
  induction l as [|x l IH]; intros Hskip; [done|]. cbn [for_range].
  rewrite (Hskip x) by apply list_elem_of_here. rewrite IH; [done|].
  intros y Hy. apply Hskip. by right.
Qed.

(** X1 — the Task Counts, Timers and Sockets collectors look only at the
    units whose name ends in [.service], [.timer] and [.socket]: run on a
    snapshot they send the points, and end the way, they do on the units of
    that suffix alone; on a snapshot without such a unit they send nothing,
    whatever the connection answers. *)
Theorem collectors_select_by_suffix src conn now (units : list unit_) :
  collectUnitTasksMetrics src conn now units
    = collectUnitTasksMetrics src conn now (filter (has_suffix ".service") units) ∧
  collectTimers src conn now units
    = collectTimers src conn now (filter (has_suffix ".timer") units) ∧
  collectSockets src conn now units
    = collectSockets src conn now (filter (has_suffix ".socket") units) ∧
  (Forall (λ u, ¬ has_suffix ".service" u) units →
     collectUnitTasksMetrics src conn now units = mret ()) ∧
  (Forall (λ u, ¬ has_suffix ".timer" u) units →
     collectTimers src conn now units = mret ()) ∧
  (Forall (λ u, ¬ has_suffix ".socket" u) units →
     collectSockets src conn now units = mret ()).
Proof.
  assert (Htasks : ∀ u, ¬ has_suffix ".service" u → tasks_body src conn now u = mret ()).
  { intros u Hu. unfold tasks_body, has_suffix in *. by destruct (strings.HasSuffix _ _). }
  assert (Htimers : ∀ u, ¬ has_suffix ".timer" u → timers_body src conn now u = mret ()).
  { intros u Hu. unfold timers_body, has_suffix in *. by destruct (strings.HasSuffix _ _). }
  assert (Hsockets : ∀ u, ¬ has_suffix ".socket" u → sockets_body src conn now u = mret ()).
  { intros u Hu. unfold sockets_body, has_suffix in *. by destruct (strings.HasSuffix _ _). }
  unfold collectUnitTasksMetrics, collectTimers, collectSockets.
  split_and!.
  - by apply for_range_filter.
  - by apply for_range_filter.
  - by apply for_range_filter.
  - rewrite Forall_forall. intros H. apply for_range_skip_all. auto.
  - rewrite Forall_forall. intros H. apply for_range_skip_all. auto.
  - rewrite Forall_forall. intros H. apply for_range_skip_all. auto.
Qed.

(** ** The Start Time collector *)




(** ** The Timers collector *)

(** X3 — the Timers collector sends what its loop body sends for each
    unit, in the order of the snapshot: nothing for a unit that is not a
    timer, nothing for a timer whose [LastTriggerUSec] lookup fails, and
    one point, the trigger time divided by a million, for a timer whose
    lookup succeeds; every point it sends on a snapshot is such a point of
    a timer unit of the snapshot whose lookup succeeded. *)
Theorem timers_points src conn now :
  (∀ u, has_suffix ".timer" u →
     is_Err (dbus.GetUnitTypeProperty conn (unit_Name u) "Timer" "LastTriggerUSec") →
     timers_body src conn now u = mret ()) ∧
  (∀ u usec, has_suffix ".timer" u →
     dbus.GetUnitTypeProperty conn (unit_Name u) "Timer" "LastTriggerUSec"
       = Ok (dbus.VUint64 usec) →
     timers_body src conn now u = send (timer_point src now u usec)) ∧
  (∀ units,
     Forall (λ p, ∃ u usec, u ∈ units ∧ has_suffix ".timer" u ∧
                dbus.GetUnitTypeProperty conn (unit_Name u) "Timer" "LastTriggerUSec"
                  = Ok (dbus.VUint64 usec) ∧
                p = timer_point src now u usec)
       (sent (collectTimers src conn now units))) ∧
  (∀ u, ¬ has_suffix ".timer" u → timers_body src conn now u = mret ()) ∧
  (∀ units, returns (collectTimers src conn now units) →
     sent (collectTimers src conn now units)
       = concat ((λ u, sent (timers_body src conn now u)) <$> units) ∧
     sent (collectTimers src conn now units)
       = concat ((λ u,
           if strings.HasSuffix (unit_Name u) ".timer"
           then match dbus.GetUnitTypeProperty conn (unit_Name u) "Timer" "LastTriggerUSec"
                with
                | Ok (dbus.VUint64 usec) => [timer_point src now u usec]
                | _ => []
                end
           else []) <$> units)).
Proof.
  split_and!.
  - intros u Hu Herr. unfold timers_body, has_suffix in *. rewrite Hu. simpl.
    by destruct (dbus.GetUnitTypeProperty _ _ _ _).
  - intros u usec Hu Hok. unfold timers_body, has_suffix in *. by rewrite Hu, Hok.
  - intros units. unfold collectTimers.
    eapply Forall_impl.
    + apply (Forall_sent_for_range_elem
               (λ u p, ∃ usec, has_suffix ".timer" u ∧
                  dbus.GetUnitTypeProperty conn (unit_Name u) "Timer" "LastTriggerUSec"
                    = Ok (dbus.VUint64 usec) ∧
                  p = timer_point src now u usec)).
      intros u _. unfold timers_body, has_suffix.
      destruct (strings.HasSuffix (unit_Name u) ".timer") eqn:Hs; [|constructor].
      simpl.
      destruct (dbus.GetUnitTypeProperty conn (unit_Name u) "Timer" "LastTriggerUSec")
        as [[| |usec|]|] eqn:E; try constructor; [|constructor].
      exists usec. done.
    + intros p (u & Hu & usec & H1 & H2 & H3). exists u, usec. done.
  - intros u Hu. unfold timers_body, has_suffix in *.
    by destruct (strings.HasSuffix (unit_Name u) ".timer").
  - intros units Hret. unfold collectTimers in *. apply returns_for_range in Hret.
    destruct (sent_for_range_returns _ _ Hret) as [_ Hsent].
    split; [exact Hsent|]. rewrite Hsent. f_equal.
    apply Forall_fmap_ext. eapply Forall_impl; [exact Hret|].
    intros u Hu. unfold timers_body in *.
    destruct (strings.HasSuffix (unit_Name u) ".timer"); [|done]. cbn [negb] in *.
    by destruct (dbus.GetUnitTypeProperty conn (unit_Name u) "Timer" "LastTriggerUSec")
      as [[| |usec|]|].
Qed.

Lemma timers_points_witness :
  let timer := example.mk_unit "backup.timer" "loaded" "active" in
  sent (collectTimers example.src example.conn 1700000000
          [example.active_service; timer; example.socket])
  = [timer_point example.src 1700000000 timer 1700000000000000].
Proof.
  intros timer.
  destruct (timers_points example.src example.conn 1700000000) as (_ & _ & _ & _ & H).
  destruct (H [example.active_service; timer; example.socket] I) as [_ ->].
  reflexivity.
Defined.

(** ** The snapshot fetch *)

Lemma foldl_snoc_fmap {A B} (f : A → B) (l : list A) (acc : list B) :
  foldl (λ result x, result ++ [f x]) acc l = acc ++ (f <$> l).
Proof.
  revert acc. induction l as [|x l IH]; intros acc; simpl.
  - by rewrite app_nil_r.
  - by rewrite IH, <- app_assoc.
Qed.

(** X4 — [getAllUnits] hands on the error of [ListUnits] unchanged, and
    otherwise returns one unit per listed status, in the order listed. *)
Theorem getAllUnits_wraps_ListUnits conn :
  (∀ err, dbus.ListUnits conn = Err err → getAllUnits conn = Err err) ∧
  (∀ statuses, dbus.ListUnits conn = Ok statuses →
     ∃ units, getAllUnits conn = Ok units ∧
       UnitStatus <$> units = statuses ∧ length units = length statuses) ∧
  (∀ units, getAllUnits conn = Ok units →
     dbus.ListUnits conn = Ok (UnitStatus <$> units)).
Proof.
  unfold getAllUnits. split_and!.
  - by intros err ->.
  - intros statuses ->. rewrite foldl_snoc_fmap. eexists. split; [done|].
    simpl. split; [|by rewrite length_fmap].
    rewrite <- list_fmap_compose. by rewrite <- (list_fmap_id statuses) at 2.
  - intros units. destruct (dbus.ListUnits conn) as [statuses|]; [|done].
    rewrite foldl_snoc_fmap. intros [= <-]. simpl. f_equal.
    rewrite <- list_fmap_compose. by rewrite <- (list_fmap_id statuses) at 1.
Qed.

(** ** The summary points *)

Lemma summary_sent_points src now entries :
  collectSummaryMetrics src now entries = (summary_point src now <$> entries, Returned ()).
Proof.
  unfold collectSummaryMetrics. induction entries as [|[s c] l IH]; [done|].
  cbn [for_range]. rewrite IH. reflexivity.
Qed.

Lemma setTag_lookup (tags : gmap string string) key val k :
  setTag tags key val !! k
  = if decide (k = key ∧ val ≠ "") then Some val else tags !! k.
Proof.
  unfold setTag. case_bool_decide.
  - destruct (decide (k = key)) as [->|Hne].
    + rewrite lookup_insert_eq. by rewrite decide_True.
    + rewrite lookup_insert_ne by done. rewrite decide_False; [done|]. naive_solver.
  - rewrite decide_False; [done|]. naive_solver.
Qed.

Lemma summary_point_tag src now (entry : string * float64.t) :
  tag "state_name" (summary_point src now entry)
  = if decide (entry.1 = "") then None else Some entry.1.
Proof.
  unfold tag, summary_point, metricPoint. simpl. rewrite setTag_lookup, lookup_empty.
  destruct (decide (entry.1 = "")) as [->|Hne].
  - rewrite decide_False; [done|]. naive_solver.
  - by rewrite decide_True.
Qed.

Lemma filter_unique_key {V} (l : list (string * V)) (s : string) (v : V) :
  NoDup l.*1 → (s, v) ∈ l → filter (λ e, e.1 = s) l = [(s, v)].
Proof.
  induction l as [|[k w] l IH]; [by intros _ ?%elem_of_nil|].
  rewrite fmap_cons, NoDup_cons. intros [Hk Hnd] Hin. rewrite filter_cons. simpl.
  apply elem_of_cons in Hin as [[= <- <-]|Hin].
  - rewrite decide_True by done. f_equal.
    apply filter_Forall_nil. apply Forall_forall. intros [k' w'] Hin' Heq. simpl in Heq.
    subst k'. apply Hk. apply list_elem_of_fmap. by exists (s, w').
  - rewrite decide_False; [by apply IH|].
    intros ->. apply Hk. apply list_elem_of_fmap. by exists (s, v).
Qed.

Lemma filter_fmap_comm {A B} (f : A → B) (P : B → Prop) `{∀ y, Decision (P y)}
    (l : list A) :
  filter P (f <$> l) = f <$> filter (λ x, P (f x)) l.
Proof.
  induction l as [|x l IH]; [done|]. rewrite fmap_cons, !filter_cons. simpl.
  destruct (decide (P (f x))); by rewrite IH.
Qed.

(** X5 — the summary collector never fails and sends one [units] point
    per bucket of the summary, whatever the order in which the map is
    visited; for a snapshot (of fewer than 2^53 units) there are at least
    five of them, and for every known or occurring active state (other than
    the empty string) exactly one point is tagged with it, holding the
    number of units of that state. *)
Theorem summary_one_point_per_bucket src now (units : list unit_)
    (entries : list (string * float64.t))
    (Hlen : Z.of_nat (length units) < 2 ^ 53)
    (Hentries : entries ≡ₚ map_to_list (summarizeUnits units)) :
  returns (collectSummaryMetrics src now entries) ∧
  length (sent (collectSummaryMetrics src now entries)) = size (summarizeUnits units) ∧
  (5 ≤ length (sent (collectSummaryMetrics src now entries)))%nat ∧
  ∀ s, (s ∈ unitStatesName ∨ s ∈ unit_ActiveState <$> units) → s ≠ "" →
    filter (λ p, tag "state_name" p = Some s) (sent (collectSummaryMetrics src now entries))
    = [summary_point src now (s, float64.of_Z (state_count s units))].
Proof.
  rewrite summary_sent_points. unfold sent, returns, ending. simpl.
  assert (Hsize : length (summary_point src now <$> entries) = size (summarizeUnits units)).
  { by rewrite length_fmap, Hentries, length_map_to_list. }
  assert (Hlookup : ∀ s, (s ∈ unitStatesName ∨ s ∈ unit_ActiveState <$> units) →
            summarizeUnits units !! s = Some (float64.of_Z (state_count s units))).
  { intros s Hs. rewrite summarizeUnits_counts, lookup_fmap, count_units_lookup by done.
    by rewrite decide_True. }
  split_and!; [done|done| |].
  - rewrite Hsize.
    assert (Hsub : list_to_set unitStatesName ⊆ dom (summarizeUnits units)).
    { intros s Hs. apply elem_of_list_to_set in Hs. apply elem_of_dom.
      rewrite Hlookup by by left. done. }
    apply subseteq_size in Hsub. rewrite size_dom in Hsub.
    etrans; [|exact Hsub]. by vm_compute.
  - intros s Hs Hne. rewrite filter_fmap_comm.
    assert (Hfil : filter (λ e, tag "state_name" (summary_point src now e) = Some s) entries
                   = filter (λ e, e.1 = s) entries).
    { apply list_filter_iff. intros e. simpl. rewrite summary_point_tag.
      case_decide; naive_solver. }
    rewrite Hfil.
    assert (Hperm : filter (λ e : string * float64.t, e.1 = s) entries
                    ≡ₚ [(s, float64.of_Z (state_count s units))]).
    { rewrite Hentries. rewrite (filter_unique_key _ s (float64.of_Z (state_count s units))).
      - done.
      - apply NoDup_fst_map_to_list.
      - apply elem_of_map_to_list. by apply Hlookup. }
    apply Permutation_singleton_r in Hperm. by rewrite Hperm.
Qed.

Lemma summary_one_point_per_bucket_witness :
  let units := [example.reloading_service; example.active_service; example.socket] in
  let pts := sent (collectSummaryMetrics example.src 1700000000
                     (map_to_list (summarizeUnits units))) in
  filter (λ p, tag "state_name" p = Some "active") pts
    = [summary_point example.src 1700000000 ("active", float64.of_Z 2)] ∧
  filter (λ p, tag "state_name" p = Some "reloading") pts
    = [summary_point example.src 1700000000 ("reloading", float64.of_Z 1)].
Proof.
  intros units pts.
  assert (Hlen : Z.of_nat (length units) < 2 ^ 53) by done.
  destruct (summary_one_point_per_bucket example.src 1700000000 units
              (map_to_list (summarizeUnits units)) Hlen (reflexivity _))
    as (_ & _ & _ & H).
  split.
  - apply (H "active"); [left; apply list_elem_of_here | done].
  - apply (H "reloading"); [right; apply list_elem_of_here | done].
Defined.

(** ** What every point carries *)

Lemma setTag_values_nonempty (tags : gmap string string) key val :
  (∀ k v, tags !! k = Some v → v ≠ "") →
  ∀ k v, setTag tags key val !! k = Some v → v ≠ "".
Proof.
  intros Htags k v. rewrite setTag_lookup. case_decide; [|apply Htags].
  intros [= <-]. naive_solver.
Qed.

Lemma setTags_values_nonempty name state service :
  ∀ k v, setTags ∅ name state service !! k = Some v → v ≠ "".
Proof.
  unfold setTags. do 3 apply setTag_values_nonempty. intros k v. by rewrite lookup_empty.
Qed.

Lemma setTag_empty_values_nonempty key val :
  ∀ k v, setTag ∅ key val !! k = Some v → v ≠ "".
Proof. apply setTag_values_nonempty. intros k v. by rewrite lookup_empty. Qed.

Ltac tags_are_nonempty :=
  let m := fresh in let k := fresh in let v := fresh in let H := fresh in
  intros m k v H;
  first [ discriminate H
        | injection H as <-;
          first [ apply setTags_values_nonempty | apply setTag_empty_values_nonempty ] ].

Lemma collectors_Forall src conn now units entries (P : MetricPoint → Prop) :
  (∀ name value (tags : tagmap),
     name ∈ category_tokens →
     (∀ m k v, tags = Some m → m !! k = Some v → v ≠ "") →
     P (metricPoint src name value now tags)) →
  Forall P (sent (collectSummaryMetrics src now entries)) ∧
  Forall P (sent (collectUnitStatusMetrics src conn now units)) ∧
  Forall P (sent (collectUnitStartTimeMetrics src conn now units)) ∧
  Forall P (sent (collectUnitTasksMetrics src conn now units)) ∧
  Forall P (sent (collectTimers src conn now units)) ∧
  Forall P (sent (collectSockets src conn now units)) ∧
  Forall P (sent (collectSystemState src conn now)).
Proof.
  intros HP.
  assert (Hsend : ∀ name v tags, name ∈ category_tokens →
            (∀ m k w, tags = Some m → m !! k = Some w → w ≠ "") →
            Forall P (sent (send (metricPoint src name v now tags)))).
  { intros. repeat constructor. auto. }
  assert (Hret : ∀ A (a : A), Forall P (sent (mret a : Go A))).
  { intros. constructor. }
  assert (Hassert32 : ∀ v, Forall P (sent (as_uint32 v))).
  { intros []; constructor. }
  assert (Hassert64 : ∀ v, Forall P (sent (as_uint64 v))).
  { intros []; constructor. }
  assert (Hasserts : ∀ v, Forall P (sent (as_string v))).
  { intros []; constructor. }
  split_and!.
  - apply Forall_sent_for_range. intros [stateName count].
    apply Hsend; [token_in_list | tags_are_nonempty].
  - apply Forall_sent_for_range. intros u. unfold unitStatus_body.
    apply Forall_sent_bind.
    { unfold unitStatus_type. repeat case_match; auto. }
    intros ty. apply Forall_sent_bind.
    { apply Forall_sent_for_range. intros s. unfold unitStatus_state.
      apply Hsend; [token_in_list | tags_are_nonempty]. }
    intros _. unfold unitStatus_restarts. repeat case_match; auto.
    apply Forall_sent_bind; [auto|]. intros n.
    apply Hsend; [token_in_list | tags_are_nonempty].
  - apply Forall_sent_for_range. intros u. unfold startTime_body.
    repeat case_match; auto.
    + apply Hsend; [token_in_list | tags_are_nonempty].
    + apply Forall_sent_bind; [auto|]. intros n.
      apply Hsend; [token_in_list | tags_are_nonempty].
  - apply Forall_sent_for_range. intros u. unfold tasks_body, tasks_current, tasks_max.
    case_match; auto. apply Forall_sent_bind.
    + case_match; auto. apply Forall_sent_bind; [auto|]. intros n.
      case_match; auto. apply Hsend; [token_in_list | tags_are_nonempty].
    + intros _. case_match; auto. apply Forall_sent_bind; [auto|]. intros n.
      case_match; auto. apply Hsend; [token_in_list | tags_are_nonempty].
  - apply Forall_sent_for_range. intros u. unfold timers_body.
    repeat case_match; auto.
    apply Forall_sent_bind; [auto|]. intros n.
    apply Hsend; [token_in_list | tags_are_nonempty].
  - apply Forall_sent_for_range. intros u. unfold sockets_body.
    case_match; auto. case_match; auto.
    apply Forall_sent_bind; [auto|]. intros n.
    apply Forall_sent_bind; [apply Hsend; [token_in_list | tags_are_nonempty]|]. intros _.
    case_match; auto.
    apply Forall_sent_bind; [auto|]. intros n'.
    apply Forall_sent_bind; [apply Hsend; [token_in_list | tags_are_nonempty]|]. intros _.
    case_match; auto.
    apply Forall_sent_bind; [auto|]. intros n''.
    apply Hsend; [token_in_list | tags_are_nonempty].
  - unfold collectSystemState. case_match; auto.
    apply Forall_sent_bind; [apply Hsend; [token_in_list | tags_are_nonempty]|].
    intros _. auto.
Qed.

Lemma collected_Forall src conn now allUnits (P : MetricPoint → Prop) :
  (∀ name value (tags : tagmap),
     name ∈ category_tokens →
     (∀ m k v, tags = Some m → m !! k = Some v → v ≠ "") →
     P (metricPoint src name value now tags)) →
  Forall P (collected src conn now allUnits).
Proof.
  intros HP. unfold collected.
  destruct (collectors_Forall src conn now (filterUnits src allUnits)
              (map_to_list (summarizeUnits allUnits)) P HP)
    as (H1 & H2 & H3 & H4 & H5 & H6 & H7).
  rewrite !Forall_app. split_and!; try done; by case_match.
Qed.

Lemma batch_Forall src dbus_New now ts c0 batch e (P : MetricPoint → Prop) :
  (∀ name value (tags : tagmap),
     name ∈ category_tokens →
     (∀ m k v, tags = Some m → m !! k = Some v → v ≠ "") →
     P (metricPoint src name value now tags)) →
  ScrapeMetrics src dbus_New now ts c0 (Some batch) e →
  Forall P (MetricPoints batch).
Proof.
  intros HP Hs.
  inversion Hs as [| |conn allUnits entries s batch' err Hn Hu Hperm Hrtc Hret]; subst.
  destruct (scrape_collect_result _ _ _ _ _ _ _ _ _ _ Hperm Hrtc Hret) as (_ & -> & Hlog & _).
  apply Forall_forall. intros p [_ Hp]%list_elem_of_filter.
  rewrite Hlog in Hp.
  pose proof (collected_Forall src conn now allUnits P HP) as Hall.
  rewrite Forall_forall in Hall. by apply Hall.
Qed.

(** X6 — no point of a batch [ScrapeMetrics] returns, and no point a
    collector sends, has a tag whose value is the empty string: [setTag]
    leaves such a tag out. *)
Theorem points_have_no_empty_tag src :
  (∀ (tags : gmap string string) key,
     setTag tags key "" = tags ∧
     ∀ val, val ≠ "" → setTag tags key val = <[key := val]> tags) ∧
  (∀ conn now units entries,
     Forall tags_nonempty (sent (collectSummaryMetrics src now entries)) ∧
     Forall tags_nonempty (sent (collectUnitStatusMetrics src conn now units)) ∧
     Forall tags_nonempty (sent (collectUnitStartTimeMetrics src conn now units)) ∧
     Forall tags_nonempty (sent (collectUnitTasksMetrics src conn now units)) ∧
     Forall tags_nonempty (sent (collectTimers src conn now units)) ∧
     Forall tags_nonempty (sent (collectSockets src conn now units)) ∧
     Forall tags_nonempty (sent (collectSystemState src conn now))) ∧
  (∀ dbus_New now ts c0 batch e,
     ScrapeMetrics src dbus_New now ts c0 (Some batch) e →
     Forall tags_nonempty (MetricPoints batch)).
Proof.
  assert (HP : ∀ now name value (tags : tagmap),
     name ∈ category_tokens →
     (∀ m k v, tags = Some m → m !! k = Some v → v ≠ "") →
     tags_nonempty (metricPoint src name value now tags)).
  { intros now name value tags _ Htags m k v. unfold metricPoint. simpl. apply Htags. }
  split_and!.
  - intros tags key. unfold setTag. split.
    + by rewrite bool_decide_false by naive_solver.
    + intros val Hval. by rewrite bool_decide_true.
  - intros conn now units entries. apply collectors_Forall, HP.
  - intros dbus_New now ts c0 batch e. apply batch_Forall, HP.
Qed.

(** X7 — every point of a batch [ScrapeMetrics] returns, and every point a
    collector sends, carries the source identity of the configuration and
    the one timestamp read at the start of the scrape. *)
Theorem points_share_source_and_timestamp src :
  (∀ conn now units entries,
     Forall (stamped src now) (sent (collectSummaryMetrics src now entries)) ∧
     Forall (stamped src now) (sent (collectUnitStatusMetrics src conn now units)) ∧
     Forall (stamped src now) (sent (collectUnitStartTimeMetrics src conn now units)) ∧
     Forall (stamped src now) (sent (collectUnitTasksMetrics src conn now units)) ∧
     Forall (stamped src now) (sent (collectTimers src conn now units)) ∧
     Forall (stamped src now) (sent (collectSockets src conn now units)) ∧
     Forall (stamped src now) (sent (collectSystemState src conn now))) ∧
  (∀ dbus_New now ts c0 batch e,
     ScrapeMetrics src dbus_New now ts c0 (Some batch) e →
     Forall (stamped src now) (MetricPoints batch)).
Proof.
  assert (HP : ∀ now name value (tags : tagmap),
     name ∈ category_tokens →
     (∀ m k v, tags = Some m → m !! k = Some v → v ≠ "") →
     stamped src now (metricPoint src name value now tags)).
  { intros. by split. }
  split.
  - intros conn now units entries. apply collectors_Forall, HP.
  - intros dbus_New now ts c0 batch e. apply batch_Forall, HP.
Qed.

(** ** The sub-type and restart count of the Unit Status collector *)

Lemma setTags_lookup_type name state service :
  setTags ∅ name state service !! "type" = if decide (service = "") then None else Some service.
Proof.
  unfold setTags. rewrite !setTag_lookup, lookup_empty.
  destruct (decide (service = "")) as [->|Hne].
  - rewrite decide_False by naive_solver. by rewrite !decide_False by naive_solver.
  - by rewrite decide_True.
Qed.

Lemma setTags_lookup_name name state service :
  setTags ∅ name state service !! "name" = if decide (name = "") then None else Some name.
Proof.
  unfold setTags. rewrite !setTag_lookup, lookup_empty.
  rewrite (decide_False (P := "name" = "type" ∧ _)) by naive_solver.
  rewrite (decide_False (P := "name" = "state_name" ∧ _)) by naive_solver.
  destruct (decide (name = "")) as [->|Hne].
  - by rewrite decide_False by naive_solver.
  - by rewrite decide_True.
Qed.

(** X8 — the sub-type of a unit is looked up for services and mounts only
    and a failed lookup leaves it empty without stopping the collector;
    whatever the sub-type found, each of the unit's state points carries it
    as its [type] tag, or no [type] tag when it is empty, and carries the
    unit's name as its [name] tag. *)
Theorem unit_status_type_is_best_effort src conn now (u : unit_) :
  (has_suffix ".service" u →
     is_Err (dbus.GetUnitTypeProperty conn (unit_Name u) "Service" "Type") →
     unitStatus_type conn u = mret "") ∧
  (has_suffix ".service" u → ∀ ty,
     dbus.GetUnitTypeProperty conn (unit_Name u) "Service" "Type" = Ok (dbus.VString ty) →
     unitStatus_type conn u = mret ty) ∧
  (¬ has_suffix ".service" u → has_suffix ".mount" u →
     is_Err (dbus.GetUnitTypeProperty conn (unit_Name u) "Mount" "Type") →
     unitStatus_type conn u = mret "") ∧
  (¬ has_suffix ".service" u → has_suffix ".mount" u → ∀ ty,
     dbus.GetUnitTypeProperty conn (unit_Name u) "Mount" "Type" = Ok (dbus.VString ty) →
     unitStatus_type conn u = mret ty) ∧
  (¬ has_suffix ".service" u → ¬ has_suffix ".mount" u →
     unitStatus_type conn u = mret "") ∧
  (∀ ty, ending (unitStatus_type conn u) = Returned ty →
     Forall (λ p, tag "type" p = (if decide (ty = "") then None else Some ty) ∧
                  tag "name" p
                    = (if decide (unit_Name u = "") then None else Some (unit_Name u)))
       (filter (in_category src "unit_state") (sent (unitStatus_body src conn now u)))).
Proof.
  unfold has_suffix. split_and!.
  - intros Hs Herr. unfold unitStatus_type. rewrite Hs.
    by destruct (dbus.GetUnitTypeProperty _ _ _ _).
  - intros Hs ty Hok. unfold unitStatus_type. by rewrite Hs, Hok.
  - intros Hs Hm Herr. unfold unitStatus_type.
    destruct (strings.HasSuffix (unit_Name u) ".service"); [done|]. rewrite Hm.
    by destruct (dbus.GetUnitTypeProperty _ _ _ _).
  - intros Hs Hm ty Hok. unfold unitStatus_type.
    destruct (strings.HasSuffix (unit_Name u) ".service"); [done|]. by rewrite Hm, Hok.
  - intros Hs Hm. unfold unitStatus_type.
    destruct (strings.HasSuffix (unit_Name u) ".service"); [done|].
    by destruct (strings.HasSuffix (unit_Name u) ".mount").
  - intros ty Hty. rewrite (unit_state_points src conn now u ty Hty).
    apply Forall_fmap, Forall_true. intros state.
    unfold tag, unitStatus_state, metricPoint, compose. simpl.
    by rewrite setTags_lookup_type, setTags_lookup_name.
Qed.

Lemma unit_status_type_is_best_effort_witness :
  Forall (λ p, tag "type" p = Some "simple" ∧ tag "name" p = Some "sshd.service")
    (filter (in_category example.src "unit_state")
       (sent (unitStatus_body example.src example.conn 1700000000 example.active_service))).
Proof.
  destruct (unit_status_type_is_best_effort example.src example.conn 1700000000
              example.active_service) as (_ & _ & _ & _ & _ & H).
  exact (H "simple" eq_refl).
Defined.

Lemma filter_concat_fmap {A B} (P : B → Prop) `{∀ y, Decision (P y)} (f : A → list B)
    (l : list A) :
  filter P (concat (f <$> l)) = concat ((λ x, filter P (f x)) <$> l).
Proof.
  induction l as [|x l IH]; [done|].
  cbn [fmap list_fmap concat]. rewrite filter_app. f_equal. exact IH.
Qed.

Lemma unitStatus_body_restart_points src conn now u :
  returns (unitStatus_body src conn now u) →
  returns (unitStatus_restarts src conn now u) ∧
  filter (in_category src "service_restart_total") (sent (unitStatus_body src conn now u))
  = sent (unitStatus_restarts src conn now u).
Proof.
  intros Hret. unfold unitStatus_body in Hret.
  apply returns_bind in Hret as (ty & Hty & Hret).
  apply returns_bind in Hret as (a & _ & Hret). split; [done|].
  rewrite (unitStatus_body_sent src conn now u ty Hty), filter_app.
  rewrite filter_Forall_nil.
  - apply filter_Forall_id, unitStatus_restarts_sent.
  - apply Forall_fmap, Forall_true. intros state H.
    by pose proof (in_category_inj _ _ _ _ H (metricPoint_in_category _ _ _ _ _)).
Qed.

(** X9 — the restart count is read only when restart metrics are enabled
    and only for services: otherwise, and when the [NRestarts] lookup
    fails, nothing is sent; when it succeeds one [service_restart_total]
    point is sent.  The restart points the Unit Status collector sends on a
    snapshot are these, unit by unit in the order of the snapshot; with
    restart metrics disabled the collector sends unit-state points and
    nothing else. *)
Theorem restart_count_is_gated src conn now :
  (∀ u, collectRestartMetrics src = false ∨ ¬ has_suffix ".service" u →
     unitStatus_restarts src conn now u = mret ()) ∧
  (∀ u, is_Err (dbus.GetUnitTypeProperty conn (unit_Name u) "Service" "NRestarts") →
     unitStatus_restarts src conn now u = mret ()) ∧
  (∀ u n, collectRestartMetrics src = true → has_suffix ".service" u →
     dbus.GetUnitTypeProperty conn (unit_Name u) "Service" "NRestarts"
       = Ok (dbus.VUint32 n) →
     unitStatus_restarts src conn now u = send (restart_point src now u n)) ∧
  (∀ units, collectRestartMetrics src = false →
     Forall (in_category src "unit_state")
       (sent (collectUnitStatusMetrics src conn now units))) ∧
  (∀ units, returns (collectUnitStatusMetrics src conn now units) →
     filter (in_category src "service_restart_total")
       (sent (collectUnitStatusMetrics src conn now units))
       = concat ((λ u, sent (unitStatus_restarts src conn now u)) <$> units) ∧
     filter (in_category src "service_restart_total")
       (sent (collectUnitStatusMetrics src conn now units))
       = concat ((λ u,
           if collectRestartMetrics src && strings.HasSuffix (unit_Name u) ".service"
           then match dbus.GetUnitTypeProperty conn (unit_Name u) "Service" "NRestarts" with
                | Ok (dbus.VUint32 n) => [restart_point src now u n]
                | _ => []
                end
           else []) <$> units)).
Proof.
  assert (Hoff : ∀ u, collectRestartMetrics src = false ∨ ¬ has_suffix ".service" u →
            unitStatus_restarts src conn now u = mret ()).
  { intros u Hu. unfold unitStatus_restarts, has_suffix in *.
    destruct (collectRestartMetrics src); [|done].
    destruct (strings.HasSuffix (unit_Name u) ".service"); [|done]. naive_solver. }
  split_and!; [done| | | |].
  - intros u Herr. unfold unitStatus_restarts.
    destruct (dbus.GetUnitTypeProperty _ _ _ _); [done|]. by case_match.
  - intros u n Hon Hs Hok. unfold unitStatus_restarts, has_suffix in *.
    by rewrite Hon, Hs, Hok.
  - intros units Hflag. unfold collectUnitStatusMetrics.
    apply Forall_sent_for_range. intros u. unfold unitStatus_body.
    apply Forall_sent_bind; [by rewrite unitStatus_type_sent|]. intros ty.
    apply Forall_sent_bind.
    + apply Forall_sent_for_range. intros state.
      apply Forall_cons; split; [apply metricPoint_in_category|constructor].
    + intros _. rewrite Hoff by by left. constructor.
  - intros units Hret. unfold collectUnitStatusMetrics in *.
    apply returns_for_range in Hret.
    destruct (sent_for_range_returns _ _ Hret) as [_ Hsent].
    assert (Htie : filter (in_category src "service_restart_total")
                     (sent (for_range units (unitStatus_body src conn now)))
                   = concat ((λ u, sent (unitStatus_restarts src conn now u)) <$> units)).
    { rewrite Hsent, filter_concat_fmap. f_equal.
      apply Forall_fmap_ext. eapply Forall_impl; [exact Hret|].
      intros u Hu. by apply unitStatus_body_restart_points. }
    split; [exact Htie|]. rewrite Htie. f_equal.
    apply Forall_fmap_ext. eapply Forall_impl; [exact Hret|].
    intros u Hu. apply unitStatus_body_restart_points in Hu as [Hu _].
    unfold unitStatus_restarts in *.
    destruct (collectRestartMetrics src && strings.HasSuffix (unit_Name u) ".service");
      [|done].
    by destruct (dbus.GetUnitTypeProperty conn (unit_Name u) "Service" "NRestarts")
      as [[| | |]|].
Qed.

Lemma restart_count_is_gated_witness :
  let src := {| prefix := "kubernetes.systemd."; source := "node-1";
                collectTaskMetrics := true; collectStartTimeMetrics := true;
                collectRestartMetrics := true;
                unitsFilter := None; filters := None |} in
  filter (in_category src "service_restart_total")
    (sent (collectUnitStatusMetrics src example.conn 1700000000
             [example.active_service; example.socket]))
  = [restart_point src 1700000000 example.active_service 2].
Proof.
  intros src.
  destruct (restart_count_is_gated src example.conn 1700000000) as (_ & _ & _ & _ & H).
  destruct (H [example.active_service; example.socket] I) as [_ ->].
  reflexivity.
Defined.

(** ** A well-typed service manager never makes a collector panic *)

Ltac go_returns :=
  repeat case_match;
  cbv [returns ending mbind Go_bind send mret Go_ret as_string as_uint32 as_uint64 panic
       snd];
  repeat case_match; by simplify_eq.

Ltac typed_lookup H :=
  match type of H with
  | has_kind _ ?r => destruct r as [[]|]; simpl in H; try done
  end.

Lemma returns_send_loop {A} (l : list A) (f : A → MetricPoint) :
  returns (for_range l (λ x, send (f x))).
Proof. by apply returns_for_range, Forall_true. Qed.

Lemma well_typed_collectors_return src conn now allUnits :
  well_typed conn → collectors_return src conn now allUnits.
Proof.
  intros Hwt. unfold collectors_return.
  assert (H1 : ∀ u, returns (unitStatus_body src conn now u)).
  { intros u. destruct (Hwt (unit_Name u)) as (Hs & Hm & Hr & _).
    unfold unitStatus_body. apply returns_bind.
    assert (∃ ty, ending (unitStatus_type conn u) = Returned ty) as [ty Hty].
    { unfold unitStatus_type. typed_lookup Hs; typed_lookup Hm; repeat case_match; eauto. }
    exists ty. split; [done|]. apply returns_bind. exists ().
    split.
    { pose proof (returns_send_loop unitStatesName (unitStatus_state src now u ty)) as Hl.
      unfold returns in Hl. by destruct (ending _) as [[]|]. }
    unfold unitStatus_restarts. typed_lookup Hr; go_returns. }
  assert (H2 : ∀ u, returns (startTime_body src conn now u)).
  { intros u. destruct (Hwt (unit_Name u)) as (_ & _ & _ & _ & _ & _ & _ & _ & _ & Ht).
    unfold startTime_body. typed_lookup Ht; go_returns. }
  assert (H3 : ∀ u, returns (tasks_body src conn now u)).
  { intros u. destruct (Hwt (unit_Name u)) as (_ & _ & _ & _ & _ & _ & Hc & Hx & _).
    unfold tasks_body, tasks_current, tasks_max.
    typed_lookup Hc; typed_lookup Hx; go_returns. }
  assert (H4 : ∀ u, returns (timers_body src conn now u)).
  { intros u. destruct (Hwt (unit_Name u)) as (_ & _ & _ & _ & _ & _ & _ & _ & Ht & _).
    unfold timers_body. typed_lookup Ht; go_returns. }
  assert (H5 : ∀ u, returns (sockets_body src conn now u)).
  { intros u. destruct (Hwt (unit_Name u)) as (_ & _ & _ & Ha & Hc & Hr & _).
    unfold sockets_body. typed_lookup Ha; typed_lookup Hc; typed_lookup Hr; go_returns. }
  split_and!; try intros _; apply returns_for_range, Forall_forall; auto.
Qed.

(** X10 — when the connection opens, the snapshot is fetched and every
    property value the service manager answers has the dynamic type of its
    property (string, uint32 or uint64), no type assertion fails and
    [ScrapeMetrics] returns a batch. *)
Theorem well_typed_scrape_returns src conn now ts c0 allUnits
    (Hunits : getAllUnits conn = Ok allUnits)
    (Htyped : well_typed conn) :
  collectors_return src conn now allUnits ∧
  ∃ batch e, ScrapeMetrics src (Ok conn) now ts c0 (Some batch) e.
Proof.
  pose proof (well_typed_collectors_return src conn now allUnits Htyped) as Hret.
  split; [done|]. by apply (ScrapeMetrics_collect_exists _ _ _ _ _ allUnits).
Qed.

Lemma example_conn_well_typed : well_typed example.conn.
Proof.
  intros name. unfold has_kind, example.conn, MaxUint64. simpl. split_and!; try done; lia.
Qed.

Lemma well_typed_scrape_returns_witness :
  ∃ batch e, ScrapeMetrics example.src (Ok example.conn) 1700000000 1700000001 0
               (Some batch) e.
Proof.
  destruct (well_typed_scrape_returns example.src example.conn 1700000000 1700000001 0
              [example.reloading_service; example.active_service; example.socket]
              eq_refl example_conn_well_typed) as [_ H].
  exact H.
Defined.

(** ** The counter of dropped points *)

Lemma dropped_snoc src l p :
  dropped src (l ++ [p]) = dropped src l ++ (if decide (passes src p) then [] else [p]).
Proof.
  unfold dropped. rewrite filter_app, filter_cons, filter_nil.
  destruct (decide (passes src p)), (decide (¬ passes src p)); done.
Qed.

Lemma aggregate_snd src c0 l :
  gm.MinInt64 ≤ c0 → c0 + Z.of_nat (length (dropped src l)) ≤ gm.MaxInt64 →
  (aggregate src c0 l).2 = c0 + Z.of_nat (length (dropped src l)).
Proof.
  intros Hlo. induction l as [|p l IH] using rev_ind; intros Hhi.
  - unfold aggregate, dropped. simpl. lia.
  - rewrite aggregate_snoc. rewrite dropped_snoc, length_app in *.
    destruct (decide (passes src p)) as [Hp|Hp]; simpl in *.
    + rewrite filterAppend_passes by done. simpl. rewrite IH by lia. lia.
    + rewrite filterAppend_drops by done. simpl. rewrite IH by lia.
      unfold gm.Inc. rewrite wrap64_id; lia.
Qed.

Lemma passed_dropped_length src l :
  (length (filter (passes src) l) + length (dropped src l) = length l)%nat.
Proof.
  unfold dropped. induction l as [|p l IH]; [done|].
  rewrite !filter_cons.
  destruct (decide (passes src p)), (decide (¬ passes src p)); simpl; try done; lia.
Qed.

Lemma dropped_no_filter src (l : list MetricPoint) : filters src = None → dropped src l = [].
Proof.
  intros Hf. apply filter_Forall_nil, Forall_true. intros p Hp. apply Hp. by left.
Qed.

Lemma passes_no_filter src (l : list MetricPoint) : filters src = None → filter (passes src) l = l.
Proof. intros Hf. apply filter_Forall_id, Forall_true. intros p. by left. Qed.

(** X11 — when [ScrapeMetrics] returns its batch, the process-wide
    counter of filtered points has grown by exactly the number of collected
    points the metric filter rejects (as long as the 64-bit counter does
    not overflow), the batch and the rejected points together account for
    every collected point, and without a metric filter the counter is
    unchanged and the batch holds every collected point. *)
Theorem scrape_counts_dropped_points src conn now ts c0 entries allUnits s b e
    (Hentries : entries ≡ₚ map_to_list (summarizeUnits allUnits))
    (Hreach : rtc (step src ts) (init src conn now c0 entries allUnits) s)
    (Hret : returned s = Some (b, e))
    (Hlo : gm.MinInt64 ≤ c0)
    (Hhi : c0 + Z.of_nat (length (dropped src (collected src conn now allUnits)))
           ≤ gm.MaxInt64) :
  filteredPoints s = c0 + Z.of_nat (length (dropped src (collected src conn now allUnits))) ∧
  (length (MetricPoints b) + length (dropped src (collected src conn now allUnits))
   = length (collected src conn now allUnits))%nat ∧
  (filters src = None →
     filteredPoints s = c0 ∧ MetricPoints b ≡ₚ collected src conn now allUnits).
Proof.
  pose proof (invariant_reachable _ _ _ _ _ _ _ _ Hreach) as Hinv.
  destruct (returned_facts _ _ _ _ _ _ _ _ _ Hinv Hret)
    as (_ & _ & _ & _ & _ & _ & -> & Hc & Hlog & _).
  rewrite (main_program_sends _ _ _ _ _ Hentries) in Hlog.
  assert (Hd : length (dropped src (log s))
               = length (dropped src (collected src conn now allUnits))).
  { unfold dropped. by rewrite Hlog. }
  assert (Hcount : filteredPoints s
                   = c0 + Z.of_nat (length (dropped src (collected src conn now allUnits)))).
  { rewrite Hc, aggregate_snd; rewrite ?Hd; done. }
  split_and!; [done| |].
  - simpl. rewrite Hlog. apply passed_dropped_length.
  - intros Hf. rewrite Hcount, (dropped_no_filter _ _ Hf). simpl.
    split; [lia|]. by rewrite passes_no_filter.
Qed.

Lemma scrape_counts_dropped_points_witness :
  ∃ s b e,
    returned s = Some (b, e) ∧ filteredPoints s = 42 ∧ length (MetricPoints b) = 29%nat.
Proof.
  pose (units := [example.reloading_service; example.active_service; example.socket]).
  destruct (scrape_returns filtering_src 1700000001 _ 41 _ _ _
              (well_typed_collectors_return filtering_src example.conn 1700000000 units
                 example_conn_well_typed)
              (invariant_init filtering_src example.conn 1700000000 1700000001 41
                 (map_to_list (summarizeUnits units)) units))
    as (s & [b e] & Hrtc & Hret).
  exists s, b, e.
  destruct (scrape_counts_dropped_points filtering_src example.conn 1700000000 1700000001
              41 (map_to_list (summarizeUnits units)) units s b e)
    as (H1 & H2 & _); [done|exact Hrtc|exact Hret| | |].
  - vm_compute. discriminate.
  - vm_compute. discriminate.
  - split; [done|]. split; [exact H1|].
    apply (Nat.add_cancel_r _ _ 1). exact H2.
Defined.

(** ** The result does not depend on the scheduling *)

(** X12 — two calls of [ScrapeMetrics] on the same source, answers of the
    service manager and clock readings end alike however their goroutines
    are scheduled: they return the same error, both return a batch or
    neither does, and two batches carry the same timestamp and the same
    points up to their order. *)
Theorem ScrapeMetrics_schedule_independent src dbus_New now ts c0 b1 e1 b2 e2
    (H1 : ScrapeMetrics src dbus_New now ts c0 b1 e1)
    (H2 : ScrapeMetrics src dbus_New now ts c0 b2 e2) :
  e1 = e2 ∧
  match b1, b2 with
  | Some x, Some y =>
      batch_Timestamp x = batch_Timestamp y ∧ MetricPoints x ≡ₚ MetricPoints y
  | None, None => True
  | _, _ => False
  end.
Proof.
  destruct dbus_New as [conn|err].
  - destruct (getAllUnits conn) as [allUnits|err] eqn:Hunits.
    + destruct (ScrapeMetrics_collect_result _ _ _ _ _ _ _ _ Hunits H1)
        as (x & -> & Hx1 & Hx2 & ->).
      destruct (ScrapeMetrics_collect_result _ _ _ _ _ _ _ _ Hunits H2)
        as (y & -> & Hy1 & Hy2 & ->).
      split; [done|]. split; [congruence|]. by rewrite Hx2, Hy2.
    + inversion H1; inversion H2; simplify_eq; try congruence.
      split; [congruence|done].
  - inversion H1; inversion H2; simplify_eq; done.
Qed.

Lemma ScrapeMetrics_schedule_independent_witness :
  ∃ batch e,
    ScrapeMetrics example.src (Ok example.conn) 1700000000 1700000001 0 (Some batch) e ∧
    ∀ b' e', ScrapeMetrics example.src (Ok example.conn) 1700000000 1700000001 0 b' e' →
      e' = e ∧ ∃ batch', b' = Some batch' ∧ MetricPoints batch' ≡ₚ MetricPoints batch.
Proof.
  destruct (ScrapeMetrics_collect_exists example.src example.conn 1700000000 1700000001 0
              [example.reloading_service; example.active_service; example.socket]
              eq_refl (example_collectors_return example.conn eq_refl eq_refl))
    as (batch & e & Hs).
  exists batch, e. split; [exact Hs|]. intros b' e' Hs'.
  destruct (ScrapeMetrics_schedule_independent _ _ _ _ _ _ _ _ _ Hs' Hs) as [He Hb].
  split; [exact He|]. destruct b' as [batch'|]; [|destruct Hb].
  exists batch'. split; [reflexivity|apply Hb].
Defined.

(** ** A snapshot without units *)

Lemma summarizeUnits_nil_entries :
  map_to_list (summarizeUnits []) ≡ₚ (λ st, (st, float64.zero)) <$> unitStatesName.
Proof.
  unfold summarizeUnits, unitStatesName. cbn [foldl fmap list_fmap].
  rewrite !map_to_list_insert, map_to_list_empty by (by vm_compute).
  exact (reverse_Permutation
           ((λ st, (st, float64.zero)) <$>
              ["active"; "activating"; "deactivating"; "inactive"; "failed"])).
Qed.

Lemma collected_nil src conn now :
  collected src conn now []
  ≡ₚ ((λ st, summary_point src now (st, float64.zero)) <$> unitStatesName) ++
     sent (collectSystemState src conn now).
Proof.
  unfold collected. rewrite summary_sent_points, summarizeUnits_nil_entries.
  rewrite <- list_fmap_compose.
  replace (filterUnits src []) with (@nil unit_) by done.
  cbn [collectUnitStatusMetrics collectUnitStartTimeMetrics collectUnitTasksMetrics
       collectTimers collectSockets for_range].
  by destruct (collectStartTimeMetrics src), (collectTaskMetrics src).
Qed.

(** X13 — when the service manager lists no unit, [ScrapeMetrics] still
    returns a batch: of the points that pass the metric filter, one summary
    point of value zero for each of the five states and the system-state
    point if its lookup succeeds, and nothing else. *)
Theorem scrape_of_no_units src conn now ts c0
    (Hempty : dbus.ListUnits conn = Ok []) :
  getAllUnits conn = Ok [] ∧
  (∃ batch e, ScrapeMetrics src (Ok conn) now ts c0 (Some batch) e) ∧
  ∀ b e, ScrapeMetrics src (Ok conn) now ts c0 b e →
    ∃ batch, b = Some batch ∧
      MetricPoints batch
      ≡ₚ filter (passes src)
           (((λ st, summary_point src now (st, float64.zero)) <$> unitStatesName) ++
            sent (collectSystemState src conn now)).
Proof.
  assert (Hunits : getAllUnits conn = Ok []) by (unfold getAllUnits; by rewrite Hempty).
  split_and!; [done| |].
  - apply (ScrapeMetrics_collect_exists _ _ _ _ _ [] Hunits).
    unfold collectors_return. by split_and!.
  - intros b e Hs.
    destruct (ScrapeMetrics_collect_result _ _ _ _ _ _ _ _ Hunits Hs)
      as (batch & -> & _ & Hpts & _).
    exists batch. split; [done|]. by rewrite Hpts, collected_nil.
Qed.

Lemma scrape_of_no_units_witness :
  ∃ batch e,
    ScrapeMetrics example.src (Ok idle_conn) 1700000000 1700000001 0 (Some batch) e.
Proof.
  destruct (scrape_of_no_units example.src idle_conn 1700000000 1700000001 0 eq_refl)
    as (_ & H & _).
  exact H.
Defined.

(** ** The channel and the wait group are never misused *)

(** X14 — in every state a scrape can reach the channel holds at most its
    1000 points and the wait-group counter is not negative; the only step
    that can kill the process is the panic of a collector goroutine: no
    goroutine sends on the closed channel, the channel is not closed
    twice and the counter never goes below zero; and once the channel is
    closed it stays closed and nothing more is sent. *)
Theorem scrape_channel_discipline src conn now ts c0 entries allUnits (s : state)
    (Hreach : rtc (step src ts) (init src conn now c0 entries allUnits) s) :
  (length (gather s) ≤ capacity)%nat ∧
  0 ≤ wg s ∧
  (∀ s', step src ts s s' → crashed s' = true →
     ∃ ws1 w ws2, workers s = ws1 ++ (Crash :: w) :: ws2) ∧
  (∀ s', step src ts s s' → closed s = true → closed s' = true ∧ log s' = log s).
Proof.
  pose proof (invariant_reachable _ _ _ _ _ _ _ _ Hreach) as Hinv.
  split_and!.
  - apply (inv_capacity _ _ _ _ _ _ _ Hinv).
  - rewrite (inv_wg _ _ _ _ _ _ _ Hinv). apply pending_all_nonneg.
  - intros s' Hstep Hcr.
    pose proof (inv_wg _ _ _ _ _ _ _ Hinv) as Hwg.
    pose proof (inv_closed _ _ _ _ _ _ _ Hinv) as Hcl.
    pose proof (closed_facts _ _ _ _ _ _ _ Hinv) as Hfacts.
    destruct Hstep; simpl in *; try discriminate Hcr.
    + apply Hcl in Hcr. simpl in Hcr. lia.
    + apply Hcl in Hcr. simpl in Hcr. lia.
    + destruct (Hfacts eq_refl) as (_ & _ & _ & _ & Hs).
      apply Forall_app in Hs as [_ Hs]. apply Forall_cons in Hs as [Hs _]. done.
    + rewrite pending_all_middle in Hwg. simpl in Hwg.
      pose proof (pending_all_nonneg ws1). pose proof (pending_all_nonneg ws2).
      pose proof (pending_nonneg w). lia.
    + by exists ws1, w, ws2.
  - intros s' Hstep Hcl. destruct Hstep; simpl in *; done.
Qed.

Lemma scrape_channel_discipline_witness :
  let s := init example.src example.conn 1700000000 0
             (map_to_list (summarizeUnits [example.active_service]))
             [example.active_service] in
  (length (gather s) ≤ capacity)%nat ∧ 0 ≤ wg s.
Proof.
  intros s.
  destruct (scrape_channel_discipline example.src example.conn 1700000000 1700000001 0
              (map_to_list (summarizeUnits [example.active_service]))
              [example.active_service] s (rtc_refl _ _)) as (H1 & H2 & _).
  split; [exact H1|exact H2].
Defined.

(** ** The scrape stops only by returning *)

Lemma finished_worker_stuck a w :
  wf_worker (a :: w) → finished (a :: w) → Crash ∉ a :: w → False.
Proof.
  unfold finished. destruct a; simpl.
  - intros [_ H] H0 _. lia.
  - intros _ H0 _. pose proof (pending_nonneg w). lia.
  - intros _ _ H. apply H, list_elem_of_here.
Qed.

(** X15 — when no collector panics, a scrape never crashes and never
    blocks for good: every reachable state in which [ScrapeMetrics] has
    not returned can take a step, a state in which it has returned can
    take none (no goroutine is left running), no execution is infinite,
    and every reachable state can be continued to the return. *)
Theorem scrape_stops_only_by_returning src conn now ts c0 entries allUnits (s : state)
    (Hret : collectors_return src conn now allUnits)
    (Hreach : rtc (step src ts) (init src conn now c0 entries allUnits) s) :
  crashed s = false ∧
  (returned s = None → ∃ s', step src ts s s') ∧
  (∀ s', step src ts s s' → returned s = None) ∧
  sn (step src ts) s ∧
  ∃ s' r, rtc (step src ts) s s' ∧ returned s' = Some r.
Proof.
  pose proof (invariant_reachable _ _ _ _ _ _ _ _ Hreach) as Hinv.
  destruct (inv_crashed _ _ _ _ _ _ _ Hinv Hret) as [[Hfree _] Hcr].
  split_and!; [done| | |apply step_sn|exact (scrape_returns _ _ _ _ _ _ s Hret Hinv)].
  - intros Hr. by eapply scrape_progress.
  - intros s' Hstep. destruct (returned s) as [[b e]|] eqn:Hr; [exfalso|done].
    destruct (returned_facts _ _ _ _ _ _ _ _ _ Hinv Hr)
      as (Hm & _ & Hcons & _ & _ & Hfin & _).
    pose proof (inv_workers _ _ _ _ _ _ _ Hinv) as Hwf.
    destruct Hstep; simpl in *; try done.
    all: apply Forall_app in Hwf as [_ Hwf]; apply Forall_cons in Hwf as [Hwf _].
    all: apply Forall_app in Hfin as [_ Hfin]; apply Forall_cons in Hfin as [Hfin _].
    all: apply Forall_app in Hfree as [_ Hfree]; apply Forall_cons in Hfree as [Hfree _].
    all: by eapply finished_worker_stuck.
Qed.

Lemma scrape_stops_only_by_returning_witness :
  let s := init example.src example.conn 1700000000 0
             (map_to_list (summarizeUnits [example.active_service]))
             [example.active_service] in
  crashed s = false ∧ ∃ s' r, rtc (step example.src 1700000001) s s' ∧ returned s' = Some r.
Proof.
  intros s.
  destruct (scrape_stops_only_by_returning example.src example.conn 1700000000 1700000001
              0 (map_to_list (summarizeUnits [example.active_service]))
              [example.active_service] s
              (well_typed_collectors_return _ _ _ _ example_conn_well_typed)
              (rtc_refl _ _)) as (H1 & _ & _ & _ & H5).
  split; [exact H1|exact H5].
Defined.

(** ** What [NewProvider] reads from the query *)

Lemma ParseBool_true v : (strconv.ParseBool v).1 = true ↔ v ∈ true_literals.
Proof.
  unfold strconv.ParseBool, true_literals.
  repeat case_bool_decide; simpl; naive_solver.
Qed.

(** X16 — [NewProvider] builds exactly one source.  Its prefix is the
    first [prefix] value of the query, also when that value is empty, and
    [kubernetes.systemd.] without one; its source name is the node name,
    else the host name, else [wavefront-kubernetes-collector]; each toggle
    with a value in the query is on exactly when the first value is one of
    the six spellings of true, whatever other values follow; and the two
    filters are the ones built from the query. *)
Theorem NewProvider_configuration nodeName hostname fromQuery filter_FromQuery
    (vals : gmap string (list string)) :
  ∃ s, NewProvider nodeName hostname fromQuery filter_FromQuery vals = [s] ∧
    (∀ v rest, values vals "prefix" = v :: rest → prefix s = v) ∧
    (values vals "prefix" = [] → prefix s = "kubernetes.systemd.") ∧
    (nodeName ≠ "" → source s = nodeName) ∧
    (nodeName = "" → ∀ h, hostname = Ok h → source s = h) ∧
    (nodeName = "" → is_Err hostname → source s = "wavefront-kubernetes-collector") ∧
    (∀ v rest, values vals "taskMetrics" = v :: rest →
       (collectTaskMetrics s = true ↔ v ∈ true_literals)) ∧
    (∀ v rest, values vals "startTimeMetrics" = v :: rest →
       (collectStartTimeMetrics s = true ↔ v ∈ true_literals)) ∧
    (∀ v rest, values vals "restartMetrics" = v :: rest →
       (collectRestartMetrics s = true ↔ v ∈ true_literals)) ∧
    unitsFilter s = fromQuery vals ∧
    filters s = filter_FromQuery vals.
Proof.
  eexists. split; [reflexivity|].
  cbn [prefix source collectTaskMetrics collectStartTimeMetrics collectRestartMetrics
       unitsFilter filters].
  split_and!; try done.
  - by intros v rest ->.
  - by intros ->.
  - intros Hn. destruct (String.eqb nodeName "") eqn:E; [|done].
    by apply String.eqb_eq in E.
  - by intros -> h ->.
  - intros -> Herr. by destruct hostname.
  - intros v rest ->. apply ParseBool_true.
  - intros v rest ->. apply ParseBool_true.
  - intros v rest ->. apply ParseBool_true.
Qed.

(** ** [strings.HasSuffix] *)

Lemma substring_0_length s : String.substring 0 (String.length s) s = s.
Proof. induction s as [|c s IH]; simpl; [done|by rewrite IH]. Qed.

Lemma length_append (s1 s2 : string) :
  String.length (s1 +:+ s2) = (String.length s1 + String.length s2)%nat.
Proof. induction s1 as [|c s1 IH]; simpl; [done|by rewrite IH]. Qed.

Lemma substring_append p s :
  String.substring (String.length p) (String.length s) (p +:+ s) = s.
Proof. induction p as [|c p IH]; simpl; [apply substring_0_length|done]. Qed.

Lemma substring_split n m s :
  (n + m = String.length s)%nat →
  s = String.substring 0 n s +:+ String.substring n m s.
Proof.
  revert s. induction n as [|n IH]; intros s Hlen.
  - simpl in Hlen. subst m. rewrite substring_0_length. by destruct s.
  - destruct s as [|c s]; simpl in *; [lia|].
    change (String c s = String c (String.substring 0 n s +:+ String.substring n m s)).
    f_equal. apply IH. lia.
Qed.

Lemma substring_none n s : String.substring n 0 s = "".
Proof. revert n. induction s as [|c s IH]; intros [|n]; simpl; auto. Qed.

(** [strings.HasSuffix], computed by comparing lengths and then the last
    bytes, holds exactly of the strings that end with the suffix. *)
Lemma HasSuffix_iff_ends_with (s suffix : string) :
  (strings.HasSuffix s suffix = true ↔ ∃ p, s = p +:+ suffix) ∧
  strings.HasSuffix s "" = true ∧
  ((strings.len s < strings.len suffix)%nat → strings.HasSuffix s suffix = false).
Proof.
  unfold strings.HasSuffix, strings.len. split_and!.
  - rewrite andb_true_iff, Nat.leb_le, String.eqb_eq. split.
    + intros [Hle Hsub].
      exists (String.substring 0 (String.length s - String.length suffix) s).
      pose proof (substring_split (String.length s - String.length suffix)
                    (String.length suffix) s ltac:(lia)) as Hsplit.
      by rewrite Hsub in Hsplit.
    + intros [p ->]. rewrite length_append. split; [lia|].
      replace (String.length p + String.length suffix - String.length suffix)%nat
        with (String.length p) by lia.
      apply substring_append.
  - simpl. by rewrite substring_none.
  - intros Hlt. apply andb_false_iff. left. apply Nat.leb_gt. lia.
Qed.

(** X17 — the collectors tell services, mounts, sockets and timers by
    the test [strings.HasSuffix(unit.Name, suffix)], which holds exactly
    of the units whose name ends with the suffix: a unit named by the bare
    suffix passes it, a name shorter than the suffix does not, and neither
    does a name that ends differently. *)
Theorem unit_kind_is_name_ending (u : unit_) (suffix : string) :
  (has_suffix suffix u ↔ ∃ stem, unit_Name u = stem +:+ suffix) ∧
  (unit_Name u = suffix → has_suffix suffix u) ∧
  ((strings.len (unit_Name u) < strings.len suffix)%nat → ¬ has_suffix suffix u) ∧
  (∀ stem other, unit_Name u = stem +:+ other →
     strings.len other = strings.len suffix → other ≠ suffix → ¬ has_suffix suffix u).
Proof.
  unfold has_suffix.
  destruct (HasSuffix_iff_ends_with (unit_Name u) suffix) as (Hiff & _ & Hshort).
  split_and!.
  - exact Hiff.
  - intros Hname. apply Hiff. exists "". by rewrite Hname.
  - intros Hlt. rewrite (Hshort Hlt). discriminate.
  - intros stem other Hname Hlen Hne [stem' Hs]%Hiff. rewrite Hname in Hs.
    assert (Hstem : String.length stem = String.length stem').
    { apply (f_equal String.length) in Hs. rewrite !length_append in Hs.
      unfold strings.len in Hlen. lia. }
    clear Hname Hiff Hshort. revert stem' Hs Hstem.
    induction stem as [|c stem IH]; intros [|c' stem'] Hs Hstem; simpl in *;
      try discriminate Hstem.
    + done.
    + injection Hs as _ Hs. apply (IH stem' Hs). lia.
Qed.

(** ** The system-state point *)

(** X18 — [collectSystemState] sends nothing when the lookup fails and
    returns the error with its prefix; otherwise it sends one untagged
    [system_running] point and returns no error, and the value of the
    point is 1 exactly when the state is the word [running] between double
    quotes, as the service manager prints it: the bare word gives 0. *)
Theorem system_state_point src conn now :
  (∀ err, dbus.GetManagerProperty conn "SystemState" = Err err →
     sent (collectSystemState src conn now) = [] ∧
     ending (collectSystemState src conn now)
       = Returned (Some ("couldn't get system state: " +:+ err))) ∧
  (∀ st, dbus.GetManagerProperty conn "SystemState" = Ok st →
     ∃ p, sent (collectSystemState src conn now) = [p] ∧
       ending (collectSystemState src conn now) = Returned None ∧
       in_category src "system_running" p ∧ Tags p = None ∧
       (Value p = float64.one ↔ st = quoted_running) ∧
       (Value p = float64.zero ↔ st ≠ quoted_running)) ∧
  quoted_running ≠ "running".
Proof.
  split_and!; [| |done].
  - intros err Herr. unfold collectSystemState. by rewrite Herr.
  - intros st Hst. unfold collectSystemState. rewrite Hst.
    eexists. split; [reflexivity|]. split; [reflexivity|].
    split; [apply metricPoint_in_category|]. split; [reflexivity|].
    unfold metricPoint. cbn [Value].
    destruct (String.eqb st quoted_running) eqn:E.
    + apply String.eqb_eq in E.
      split; split; intros H; first [done | discriminate H | contradiction].
    + apply String.eqb_neq in E.
      split; split; intros H; first [done | discriminate H | contradiction].
Qed.

(** ** Counts are converted to floating point without loss *)

(** X19 — a connection or restart count, a 32-bit number, is converted to
    the point's float64 value exactly, and so is a task count below 2^53;
    a task count above 2^53 may be rounded: 2^53 + 1 gives the point of
    2^53. *)
Theorem counts_convert_exactly src now u token n
    (Hn : 0 ≤ n < 2 ^ 32) :
  float64.to_Z (Value (socket_point src now u token n)) = Some n ∧
  float64.to_Z (Value (restart_point src now u n)) = Some n ∧
  (∀ v, 0 ≤ v < 2 ^ 53 →
     float64.to_Z (Value (tasks_point src now u token v)) = Some v) ∧
  tasks_point src now u token (2 ^ 53 + 1) = tasks_point src now u token (2 ^ 53).
Proof.
  unfold socket_point, restart_point, tasks_point, metricPoint. cbn [Value].
  split_and!.
  - apply float64_facts.to_Z_of_Z. lia.
  - apply float64_facts.to_Z_of_Z. lia.
  - intros v Hv. by apply float64_facts.to_Z_of_Z.
  - f_equal.
Qed.

Lemma counts_convert_exactly_witness :
  float64.to_Z (Value (socket_point example.src 1700000000 example.socket
                         "socket_current_connections" 4294967295))
  = Some 4294967295.
Proof.
  destruct (counts_convert_exactly example.src 1700000000 example.socket
              "socket_current_connections" 4294967295) as [H _].
  - split; [discriminate|reflexivity].
  - exact H.
Defined.

(** ** The summary points come first *)

Lemma leading_sends_summary l g m :
  leading_sends ((MSend <$> l) ++ MGo g :: m) = l.
Proof. induction l as [|p l IH]; simpl; [done|f_equal; exact IH]. Qed.

Lemma begins_with_init src conn now c0 entries allUnits :
  begins_with (sent (collectSummaryMetrics src now entries))
    (init src conn now c0 entries allUnits).
Proof.
  right. split; [done|]. split; [done|]. exists []. unfold init, main_program, spawns.
  cbn [log main app]. by rewrite leading_sends_summary, app_nil_r.
Qed.

Lemma begins_with_step src ts first s s' :
  begins_with first s → step src ts s s' → begins_with first s'.
Proof.
  intros [[rest Hlog]|(Hws & Hcl & rest & Hlog)] Hstep.
  - left. destruct Hstep; simpl in *; eauto.
    all: exists (rest ++ [p]); rewrite Hlog;
      first [by rewrite app_assoc | by rewrite <- app_assoc].
  - destruct Hstep; simpl in *; subst;
      try discriminate Hcl;
      try (by destruct ws1); try (left; rewrite app_nil_r in Hlog; by eauto).
    + right. split; [done|]. split; [done|]. exists rest. simpl.
      rewrite <- Hlog. first [by rewrite app_assoc | by rewrite <- app_assoc].
    + right. split; [done|]. split; [done|]. by exists rest.
Qed.

Lemma begins_with_reachable src conn now ts c0 entries allUnits s :
  rtc (step src ts) (init src conn now c0 entries allUnits) s →
  begins_with (sent (collectSummaryMetrics src now entries)) s.
Proof.
  intros H.
  eapply (rtc_ind_r (λ s, begins_with (sent (collectSummaryMetrics src now entries)) s));
    [apply begins_with_init| |exact H].
  intros y z _ Hyz IH. by eapply begins_with_step.
Qed.

(** X20 — the summary points [ScrapeMetrics] sends before it starts any
    collector goroutine are the first points of the batch it returns: the
    batch begins with the summary points that pass the metric filter, in
    the order in which the summary was iterated, whatever the scheduling
    of the goroutines. *)
Theorem summary_points_come_first src conn now ts c0 entries allUnits s b e
    (Hreach : rtc (step src ts) (init src conn now c0 entries allUnits) s)
    (Hret : returned s = Some (b, e)) :
  ∃ rest,
    MetricPoints b = filter (passes src) (summary_point src now <$> entries) ++ rest.
Proof.
  pose proof (invariant_reachable _ _ _ _ _ _ _ _ Hreach) as Hinv.
  destruct (returned_facts _ _ _ _ _ _ _ _ _ Hinv Hret)
    as (Hm & _ & _ & _ & _ & _ & -> & _).
  assert (∃ rest, log s = sent (collectSummaryMetrics src now entries) ++ rest)
    as [rest Hlog].
  { destruct (begins_with_reachable _ _ _ _ _ _ _ _ Hreach) as [H|(_ & _ & rest & H)];
      [done|].
    rewrite Hm, app_nil_r in H. eauto. }
  exists (filter (passes src) rest). simpl.
  by rewrite Hlog, filter_app, summary_sent_points.
Qed.

Lemma summary_points_come_first_witness :
  ∃ s b e rest,
    returned s = Some (b, e) ∧
    MetricPoints b
    = (summary_point example.src 1700000000
         <$> map_to_list (summarizeUnits [example.active_service])) ++ rest.
Proof.
  pose (units := [example.active_service]).
  destruct (scrape_returns example.src 1700000001 _ 0 _ _ _
              (well_typed_collectors_return example.src example.conn 1700000000 units
                 example_conn_well_typed)
              (invariant_init example.src example.conn 1700000000 1700000001 0
                 (map_to_list (summarizeUnits units)) units))
    as (s & [b e] & Hrtc & Hret).
  destruct (summary_points_come_first example.src example.conn 1700000000 1700000001 0
              (map_to_list (summarizeUnits units)) units s b e Hrtc Hret) as [rest H].
  exists s, b, e, rest. split; [exact Hret|].
  rewrite H. f_equal.
Defined.
